(** * LibWoofer: the song choosing algorithm, the play history and the
      statistics updates

    A shallow embedding of [statistics.c], [intelligence.c] and the history
    part of [song_manager.c], with the properties of the filter pipeline, the
    weighted draw, the history lists and the statistics updates that the
    specification states.

    Conventions of the embedding.
    - [gint], [guint], [gint64] and [guint32] values are integers of [Z]: the
      ratings, counts, entry numbers of one song and seconds handled here stay
      far inside the machine ranges.  The one exception is the sum of the
      entries of all songs, the [gint] [full_sum] of
      [wf_intelligence_calculate_song_entries], which a large library drives
      past [G_MAXINT]: it is kept in the range of [gint] by [gint_wrap], the
      two's complement wrap-around of the compiled code.
    - [gdouble] is an interface, [GDouble], with two instances: [binary64]
      (IEEE 754 double precision, what the machine computes) and
      [exact_rational]
      (rational numbers, the arithmetic the formulas of the specification are
      written in).  Every function is written once, over the interface.
    - A [WfSong *] is a record that carries its address ([song_ptr]); two
      list nodes hold the same song when the addresses are equal.  A record
      is a live song object ([WF_IS_SONG] holds), and lists hold no [NULL]
      data: every list of the program is filled through functions that refuse
      a [NULL] song.
    - The clock ([wf_utils_time_now]), the random source ([g_rand_int]), the
      incognito flag and the two played-fraction settings are read by the C
      code from global state; here they are arguments. *)

From Stdlib Require Import ZArith QArith Qround Bool List Lia Lqa.
From Stdlib Require Import Floats.
Import ListNotations.

Local Open Scope Z_scope.

(** ** The [gdouble] interface *)

Class GDouble (D : Type) : Type := {
  d_of_Z : Z -> D;            (* (gdouble) n *)
  d_to_Z : D -> Z;            (* (gint) x: the fraction is dropped *)
  d_add : D -> D -> D;
  d_sub : D -> D -> D;
  d_mul : D -> D -> D;
  d_div : D -> D -> D;
  d_ltb : D -> D -> bool;     (* x < y *)
  d_leb : D -> D -> bool;     (* x <= y *)
  d_eqb : D -> D -> bool      (* x == y *)
}.


(** The integer part of a double, as the conversion to [gint] computes it
    (not-a-number and the infinities have no defined conversion; 0 here). *)
Definition b64_to_Z (f : float) : Z :=
  match Prim2SF f with
  | S754_finite s m e =>
      let a := match e with
               | Z0 => Zpos m
               | Zpos p => Z.shiftl (Zpos m) (Zpos p)
               | Zneg p => Z.shiftr (Zpos m) (Zpos p)
               end in
      if s then - a else a
  | _ => 0
  end.

Definition b64_of_Z (n : Z) : float :=
  match n with
  | Z0 => PrimFloat.zero
  | Zpos _ => PrimFloat.of_uint63 (Uint63.of_Z n)
  | Zneg p => PrimFloat.opp (PrimFloat.of_uint63 (Uint63.of_Z (Zpos p)))
  end.

#[export] Instance binary64 : GDouble float := {|
  d_of_Z := b64_of_Z;
  d_to_Z := b64_to_Z;
  d_add := PrimFloat.add;
  d_sub := PrimFloat.sub;
  d_mul := PrimFloat.mul;
  d_div := PrimFloat.div;
  d_ltb := PrimFloat.ltb;
  d_leb := PrimFloat.leb;
  d_eqb := PrimFloat.eqb
|}.

Definition Q_to_Z (q : Q) : Z := Z.quot (Qnum q) (Zpos (Qden q)).

Definition Qltb (x y : Q) : bool := negb (Qle_bool y x).

#[export] Instance exact_rational : GDouble Q := {|
  d_of_Z := inject_Z;
  d_to_Z := Q_to_Z;
  d_add := Qplus;
  d_sub := Qminus;
  d_mul := Qmult;
  d_div := Qdiv;
  d_ltb := Qltb;
  d_leb := Qle_bool;
  d_eqb := Qeq_bool
|}.

(** ** Songs (song.h, song.c) *)

Inductive WfSongStatus : Type :=
  | WF_SONG_STATUS_UNKNOWN
  | WF_SONG_AVAILABLE
  | WF_SONG_PLAYING
  | WF_SONG_NOT_FOUND.

Definition WfSongStatus_eqb (a b : WfSongStatus) : bool :=
  match a, b with
  | WF_SONG_STATUS_UNKNOWN, WF_SONG_STATUS_UNKNOWN
  | WF_SONG_AVAILABLE, WF_SONG_AVAILABLE
  | WF_SONG_PLAYING, WF_SONG_PLAYING
  | WF_SONG_NOT_FOUND, WF_SONG_NOT_FOUND => true
  | _, _ => false
  end.

Section Song.
Context {D : Type}.

Record WfSong : Type := mkSong {
  song_ptr : positive;          (* the address of the object *)
  song_uri_set : bool;          (* priv->uri != NULL *)
  song_artist_hash : Z;
  song_album_artist_hash : Z;
  song_status : WfSongStatus;
  song_rating : Z;
  song_score : D;
  song_playcount : Z;
  song_skipcount : Z;
  song_lastplayed : Z
}.

Definition wf_song_get_artist_hash (song : WfSong) : Z :=
  if negb (song_album_artist_hash song =? 0)
  then song_album_artist_hash song
  else song_artist_hash song.

Definition wf_song_get_rating (song : WfSong) : Z := song_rating song.
Definition wf_song_get_score (song : WfSong) : D := song_score song.
Definition wf_song_get_play_count (song : WfSong) : Z := song_playcount song.
Definition wf_song_get_skip_count (song : WfSong) : Z := song_skipcount song.
Definition wf_song_get_last_played (song : WfSong) : Z := song_lastplayed song.
Definition wf_song_get_status (song : WfSong) : WfSongStatus := song_status song.
Definition wf_song_is_valid (song : WfSong) : bool := song_uri_set song.

Definition wf_song_set_rating (song : WfSong) (v : Z) : WfSong :=
  mkSong (song_ptr song) (song_uri_set song) (song_artist_hash song)
    (song_album_artist_hash song) (song_status song)
    v (song_score song) (song_playcount song) (song_skipcount song)
    (song_lastplayed song).

Definition wf_song_set_score (song : WfSong) (v : D) : WfSong :=
  mkSong (song_ptr song) (song_uri_set song) (song_artist_hash song)
    (song_album_artist_hash song) (song_status song)
    (song_rating song) v (song_playcount song) (song_skipcount song)
    (song_lastplayed song).

Definition wf_song_set_play_count (song : WfSong) (v : Z) : WfSong :=
  mkSong (song_ptr song) (song_uri_set song) (song_artist_hash song)
    (song_album_artist_hash song) (song_status song)
    (song_rating song) (song_score song) v (song_skipcount song)
    (song_lastplayed song).

Definition wf_song_set_skip_count (song : WfSong) (v : Z) : WfSong :=
  mkSong (song_ptr song) (song_uri_set song) (song_artist_hash song)
    (song_album_artist_hash song) (song_status song)
    (song_rating song) (song_score song) (song_playcount song) v
    (song_lastplayed song).

Definition wf_song_set_last_played (song : WfSong) (v : Z) : WfSong :=
  mkSong (song_ptr song) (song_uri_set song) (song_artist_hash song)
    (song_album_artist_hash song) (song_status song)
    (song_rating song) (song_score song) (song_playcount song)
    (song_skipcount song) v.

(** Two pointers are equal when they hold the same address. *)
Definition same_song (a b : WfSong) : bool := Pos.eqb (song_ptr a) (song_ptr b).
End Song.

Arguments WfSong D : clear implicits.

(** ** GLib lists (the part the program uses) *)

Section GList.
Context {A : Type}.

(** [g_list_remove]: unlink the first node whose data is [x]. *)
Fixpoint g_list_remove (eqb : A -> A -> bool) (l : list A) (x : A) : list A :=
  match l with
  | [] => []
  | y :: l' => if eqb y x then l' else y :: g_list_remove eqb l' x
  end.

(** [g_list_nth]: the node at position [n], [None] past the end. *)
Definition g_list_nth (l : list A) (n : nat) : option A := nth_error l n.

Definition g_list_prepend (l : list A) (x : A) : list A := x :: l.

(** [g_list_sort]: a stable sort; [cmp a b > 0] when [a] goes after [b]. *)
Fixpoint g_list_insert_sorted (cmp : A -> A -> Z) (x : A) (l : list A) : list A :=
  match l with
  | [] => [x]
  | y :: l' =>
      if 0 <? cmp x y then y :: g_list_insert_sorted cmp x l' else x :: l
  end.

Definition g_list_sort (cmp : A -> A -> Z) (l : list A) : list A :=
  fold_right (g_list_insert_sorted cmp) [] l.
End GList.

(** ** statistics.c *)

Section Statistics.
Context {D : Type} `{GDouble D}.

Definition STAT_RATING_MIN : Z := 0.
Definition STAT_RATING_MAX : Z := 100.
Definition STAT_SCORE_MIN : D := d_of_Z 0.
Definition STAT_SCORE_MAX : D := d_of_Z 100.
Definition STAT_PLAYCOUNT_MIN : Z := 0.
Definition STAT_SKIPCOUNT_MIN : Z := 0.
Definition STAT_LASTPLAYED_MIN : Z := 0.

Definition wf_stats_rating_is_valid (rating : Z) : bool :=
  (STAT_RATING_MIN <=? rating) && (rating <=? STAT_RATING_MAX).
Definition wf_stats_score_is_valid (score : D) : bool :=
  d_leb STAT_SCORE_MIN score && d_leb score STAT_SCORE_MAX.
Definition wf_stats_playcount_is_valid (playcount : Z) : bool :=
  STAT_PLAYCOUNT_MIN <=? playcount.
Definition wf_stats_skipcount_is_valid (skipcount : Z) : bool :=
  STAT_SKIPCOUNT_MIN <=? skipcount.
Definition wf_stats_lastplayed_is_valid (lastplayed : Z) : bool :=
  STAT_LASTPLAYED_MIN <=? lastplayed.

Definition wf_stats_rating_invert (rating : Z) : Z :=
  if negb (wf_stats_rating_is_valid rating) then 0
  else if rating =? 0 then 0
  else (STAT_RATING_MAX - rating) + STAT_RATING_MIN.

Definition wf_stats_score_invert (score : D) : D :=
  if negb (wf_stats_score_is_valid score) then d_of_Z 0
  else d_add (d_sub STAT_SCORE_MAX score) STAT_SCORE_MIN.

(** The macro [CLAMP (x, low, high)] of GLib. *)
Definition CLAMP (x low high : D) : D :=
  if d_ltb high x then high else if d_ltb x low then low else x.

Definition wf_stats_update_rating (song : WfSong D) (rating increase : Z) : WfSong D :=
  let rating_current := wf_song_get_rating song in
  if rating =? -1 then wf_song_set_rating song 0
  else if negb (rating =? 0) && (STAT_RATING_MIN <=? rating) && (rating <=? STAT_RATING_MAX)
  then wf_song_set_rating song rating
  else if (-1 * STAT_RATING_MAX <=? increase) && (increase <=? STAT_RATING_MAX) then
    let rating_value := 0 + (rating_current + increase) in
    if rating_value <=? STAT_RATING_MIN then song
    else if STAT_RATING_MAX <? rating_value then song
    else wf_song_set_rating song rating_value
  else song.

Definition wf_stats_update_score (song : WfSong D) (score increase : D) : WfSong D :=
  let score_current := wf_song_get_score song in
  if d_eqb score (d_of_Z (-1)) then wf_song_set_score song (d_of_Z 0)
  else if negb (d_eqb score (d_of_Z 0)) && d_leb STAT_SCORE_MIN score
          && d_leb score STAT_SCORE_MAX
  then wf_song_set_score song score
  else if d_leb (d_mul (d_of_Z (-1)) STAT_SCORE_MAX) increase
          && d_leb increase STAT_SCORE_MAX then
    let score_value := d_add (d_of_Z 0) (d_add score_current increase) in
    if d_ltb score_value STAT_SCORE_MIN then song
    else if d_ltb STAT_SCORE_MAX score_value then song
    else wf_song_set_score song score_value
  else song.

Definition wf_stats_update_playcount (song : WfSong D) (playcount increase : Z) : WfSong D :=
  let playcount_current := wf_song_get_play_count song in
  if playcount =? -1 then wf_song_set_play_count song 0
  else if increase =? 0 then wf_song_set_play_count song playcount
  else
    let playcount_value := 0 + (playcount_current + increase) in
    if playcount_value <? STAT_PLAYCOUNT_MIN then song
    else wf_song_set_play_count song playcount_value.

Definition wf_stats_update_skipcount (song : WfSong D) (skipcount increase : Z) : WfSong D :=
  let skipcount_current := wf_song_get_skip_count song in
  if skipcount =? -1 then wf_song_set_skip_count song 0
  else if increase =? 0 then wf_song_set_skip_count song skipcount
  else
    let skipcount_value := 0 + (skipcount_current + increase) in
    if skipcount_value <? STAT_SKIPCOUNT_MIN then song
    else wf_song_set_skip_count song skipcount_value.

Definition wf_stats_update_lastplayed (song : WfSong D) (lastplayed increase : Z) : WfSong D :=
  let lastplayed_current := wf_song_get_last_played song in
  if lastplayed =? -1 then wf_song_set_last_played song 0
  else if 0 <=? lastplayed then wf_song_set_last_played song lastplayed
  else
    let lastplayed_value := 0 + (lastplayed_current + increase) in
    if lastplayed_value <=? STAT_LASTPLAYED_MIN then song
    else wf_song_set_last_played song lastplayed_value.

(** The two settings of [GeneralSettings] that the updates read through
    [wf_settings_static_get_double]. *)
Record WfPlayedSettings : Type := mkPlayedSettings {
  WF_SETTING_MIN_PLAYED_FRACTION : D;
  WF_SETTING_FULL_PLAYED_FRACTION : D
}.

(** [incognito] is the value of [wf_song_manager_get_incognito ()]. *)
Definition wf_stats_modify_and_update_score
    (incognito : bool) (sett : WfPlayedSettings)
    (song : WfSong D) (played_fraction : D) : WfSong D :=
  if incognito then song
  else if d_ltb played_fraction (d_of_Z 0) || d_ltb (d_of_Z 1) played_fraction then song
  else
    let played_fraction :=
      if d_leb (d_of_Z 1) played_fraction then
        let full_played_fraction := WF_SETTING_FULL_PLAYED_FRACTION sett in
        if d_leb full_played_fraction played_fraction then d_of_Z 1
        else played_fraction
      else played_fraction in
    let playcount := wf_song_get_play_count song in
    let old_score := wf_song_get_score song in
    if d_ltb old_score STAT_SCORE_MIN || d_ltb STAT_SCORE_MAX old_score then song
    else
      let new_score :=
        if playcount <=? STAT_PLAYCOUNT_MIN
        then d_div (d_add old_score (d_mul played_fraction (d_of_Z 100))) (d_of_Z 2)
        else d_div (d_add (d_mul old_score (d_of_Z playcount))
                          (d_mul played_fraction (d_of_Z 100)))
                   (d_of_Z (playcount + 1)) in
      wf_stats_update_score song (CLAMP new_score (d_of_Z 0) (d_of_Z 100)) (d_of_Z 0).

Definition wf_stats_modify_and_update_playcount
    (incognito : bool) (sett : WfPlayedSettings)
    (song : WfSong D) (played_fraction : D) (decrease : bool) : WfSong D :=
  if incognito then song
  else
    let min_played_fraction := WF_SETTING_MIN_PLAYED_FRACTION sett in
    if d_ltb played_fraction min_played_fraction then song
    else if decrease then wf_stats_update_playcount song 0 (-1)
    else wf_stats_update_playcount song 0 1.

Definition wf_stats_modify_and_update_skipcount
    (incognito : bool) (sett : WfPlayedSettings)
    (song : WfSong D) (played_fraction : D) (decrease : bool) : WfSong D :=
  if incognito then song
  else
    let full_played_fraction := WF_SETTING_FULL_PLAYED_FRACTION sett in
    if d_ltb full_played_fraction played_fraction then song
    else if decrease then wf_stats_update_skipcount song 0 (-1)
    else wf_stats_update_skipcount song 0 1.

(** [now] is the value [wf_utils_time_now ()] returns at the call. *)
Definition wf_stats_modify_and_update_lastplayed
    (incognito : bool) (sett : WfPlayedSettings) (now : Z)
    (song : WfSong D) (played_fraction : D) (time : Z) : WfSong D :=
  if incognito then song
  else
    let min_played_fraction := WF_SETTING_MIN_PLAYED_FRACTION sett in
    if d_ltb played_fraction min_played_fraction then song
    else if time =? 0 then wf_stats_update_lastplayed song now 0
    else wf_stats_update_lastplayed song time 0.
End Statistics.

Arguments WfPlayedSettings D : clear implicits.

(** ** intelligence.h, intelligence.c *)

Definition MULTIPLIER_RATING : Z := 1000.
Definition MULTIPLIER_SCORE : Z := 1000.
Definition MULTIPLIER_PLAYCOUNT : Z := 1000.
Definition MULTIPLIER_SKIPCOUNT : Z := 1000.
Definition MULTIPLIER_LASTPLAYED : Z := 1000.

Definition MIN_SONG_ENTRIES : Z := 0.
Definition MAX_SONG_ENTRIES : Z := 100.

Definition one_year : Z := 365 * 24 * 60 * 60.

Definition G_MAXINT : Z := 2147483647.

(** The value a [gint] holds after an addition whose exact result is [z]:
    the result modulo 2^32, in the range from -2^31 to 2^31 - 1. *)
Definition gint_wrap (z : Z) : Z := (z + 2 ^ 31) mod 2 ^ 32 - 2 ^ 31.

(** [wf_utils_time_compare] of utils.c. *)
Definition wf_utils_time_compare (time_first time_last : Z) : Z :=
  Z.abs (time_last - time_first).

(** The two curves take and return [gint]; the doubles in between are
    computed from integers, with a square root in the second one, and are
    evaluated in binary64. *)
Definition wf_intelligence_calculate_entries_with_fraction
    (x a r : Z) (invert : bool) : Z :=
  if negb (0 <? a) then 0
  else if negb (0 <? r) then 0
  else if negb (0 <=? x) then 0
  else if invert then
    let numerator := b64_of_Z (a * r) in
    let denominator := b64_of_Z (x + a) in
    b64_to_Z (PrimFloat.div numerator denominator)
  else
    let numerator := b64_of_Z (-1 * a * r) in
    let denominator := b64_of_Z (x + a) in
    b64_to_Z (PrimFloat.div numerator denominator) + r.

Definition wf_intelligence_calculate_entries_with_sqrt
    (x a r : Z) (invert : bool) : Z :=
  if negb (0 <? a) then 0
  else if negb (0 <? r) then 0
  else if negb (0 <=? x) then 0
  else if invert then
    let numerator := PrimFloat.mul (b64_of_Z (-1 * r)) (PrimFloat.sqrt (b64_of_Z x)) in
    let denominator := b64_of_Z a in
    b64_to_Z (PrimFloat.div numerator denominator) + r
  else
    let numerator := PrimFloat.mul (b64_of_Z r) (PrimFloat.sqrt (b64_of_Z x)) in
    let denominator := b64_of_Z a in
    b64_to_Z (PrimFloat.div numerator denominator).

Definition wf_intelligence_get_entries_count (count : Z) : Z :=
  wf_intelligence_calculate_entries_with_fraction count 100 MAX_SONG_ENTRIES false.

Definition wf_intelligence_get_entries_count_inverted (count : Z) : Z :=
  wf_intelligence_calculate_entries_with_fraction count 100 MAX_SONG_ENTRIES true.

Definition wf_intelligence_get_entries_time_since (time_since : Z) : Z :=
  let x := if one_year <? time_since then one_year else time_since in
  wf_intelligence_calculate_entries_with_sqrt x 5616 MAX_SONG_ENTRIES false.

Definition wf_intelligence_get_entries_time_since_inverted (time_since : Z) : Z :=
  let x := if one_year <? time_since then one_year else time_since in
  wf_intelligence_calculate_entries_with_sqrt x 5616 MAX_SONG_ENTRIES true.

(** [wf_intelligence_random]; [value] is what [g_rand_int] returns. *)
Definition wf_intelligence_random (value lower upper : Z) : Z :=
  (value mod (upper - lower + 1)) + lower.

Section Intelligence.
Context {D : Type} `{GDouble D}.

Record WfSongFilter : Type := mkSongFilter {
  filter_recent_artists : Z;
  filter_remove_recents_amount : Z;
  filter_remove_recents_percentage : D;
  filter_use_rating : bool;
  filter_use_score : bool;
  filter_use_playcount : bool;
  filter_use_skipcount : bool;
  filter_use_lastplayed : bool;
  filter_rating_inc_zero : bool;
  filter_playcount_invert : bool;
  filter_skipcount_invert : bool;
  filter_lastplayed_invert : bool;
  filter_rating_min : Z;
  filter_rating_max : Z;
  filter_score_min : Z;
  filter_score_max : Z;
  filter_playcount_th : Z;
  filter_skipcount_th : Z;
  filter_lastplayed_th : Z
}.

Record WfSongEntries : Type := mkSongEntries {
  entries_use_rating : bool;
  entries_use_score : bool;
  entries_use_playcount : bool;
  entries_use_skipcount : bool;
  entries_use_lastplayed : bool;
  entries_invert_rating : bool;
  entries_invert_score : bool;
  entries_invert_playcount : bool;
  entries_invert_skipcount : bool;
  entries_invert_lastplayed : bool;
  entries_use_default_rating : Z;
  entries_rating_multiplier : D;
  entries_score_multiplier : D;
  entries_playcount_multiplier : D;
  entries_skipcount_multiplier : D;
  entries_lastplayed_multiplier : D
}.

Record WfIntelligenceContainer : Type := mkContainer {
  total_entries : Z;
  default_rating : Z;
  favor_low_ratings : bool;
  rating_factor : Z;
  favor_low_scores : bool;
  score_factor : Z;
  favor_low_playcount : bool;
  playcount_factor : Z;
  favor_low_skipcount : bool;
  skipcount_factor : Z;
  favor_low_lastplayed : bool;
  lastplayed_factor : Z
}.

(** A [WfDList] of the song picker: the key is the song, the value its
    number of entries. *)
Definition WfDList : Type := list (WfSong D * Z).

Definition wf_d_list_add (list : WfDList) (key : WfSong D) (value : Z) : WfDList :=
  list ++ [(key, value)].

Definition wf_intelligence_remove_invalid_songs (library : list (WfSong D))
    : list (WfSong D) :=
  fold_left
    (fun library song =>
       if negb (WfSongStatus_eqb (wf_song_get_status song) WF_SONG_AVAILABLE)
       then g_list_remove same_song library song
       else library)
    library library.

(** The inner loop of [wf_intelligence_remove_songs_with_artists]: is
    [artist] among the first [amount] hashes? [x] counts the hashes seen. *)
Fixpoint artist_is_recent (artists : list Z) (amount x artist : Z) : bool :=
  match artists with
  | [] => false
  | hash :: artists' =>
      if amount <=? x then false
      else if artist =? hash then true
      else artist_is_recent artists' amount (x + 1) artist
  end.

Definition wf_intelligence_remove_songs_with_artists
    (library : list (WfSong D)) (artists : list Z) (amount : Z) : list (WfSong D) :=
  match library, artists with
  | [], _ | _, [] => library
  | _, _ =>
      fold_left
        (fun library song =>
           let artist := wf_song_get_artist_hash song in
           if negb (artist =? 0) && artist_is_recent artists amount 0 artist
           then g_list_remove same_song library song
           else library)
        library library
  end.

Definition wf_intelligence_use_rating_filter (use : bool) (rating_min rating_max : Z) : bool :=
  if negb use || (rating_min <=? 0) || (rating_max <=? 0) then false
  else wf_stats_rating_is_valid rating_min && wf_stats_rating_is_valid rating_max.

Definition wf_intelligence_use_score_filter (use : bool) (score_min score_max : D) : bool :=
  if negb use || d_leb score_min (d_of_Z 0) || d_leb score_max (d_of_Z 0) then false
  else wf_stats_score_is_valid score_min && wf_stats_score_is_valid score_max.

Definition wf_intelligence_use_playcount_filter (use : bool) (playcount_th : Z) : bool :=
  if negb use || (playcount_th <=? 0) then false
  else wf_stats_playcount_is_valid playcount_th.

Definition wf_intelligence_use_skipcount_filter (use : bool) (skipcount_th : Z) : bool :=
  if negb use || (skipcount_th <=? 0) then false
  else wf_stats_skipcount_is_valid skipcount_th.

Definition wf_intelligence_use_lastplayed_filter (use : bool) (lastplayed_th : Z) : bool :=
  if negb use || (lastplayed_th <=? 0) then false
  else wf_stats_lastplayed_is_valid lastplayed_th.

(** The body of the loop of [wf_intelligence_filter_by_stats] for one song:
    the final value of its flag [filtered]. *)
Definition song_filtered_by_stats (filter : WfSongFilter) (time : Z) (song : WfSong D) : bool :=
  let rating_min := filter_rating_min filter in
  let rating_max := filter_rating_max filter in
  let rating_inc_zero := filter_rating_inc_zero filter in
  let score_min := d_of_Z (filter_score_min filter) in
  let score_max := d_of_Z (filter_score_max filter) in
  let playcount_th := filter_playcount_th filter in
  let playcount_invert := filter_playcount_invert filter in
  let skipcount_th := filter_skipcount_th filter in
  let skipcount_invert := filter_skipcount_invert filter in
  let lastplayed_th := filter_lastplayed_th filter in
  let lastplayed_invert := filter_lastplayed_invert filter in
  let rating_on := wf_intelligence_use_rating_filter (filter_use_rating filter) rating_min rating_max in
  let score_on := wf_intelligence_use_score_filter (filter_use_score filter) score_min score_max in
  let playcount_on := wf_intelligence_use_playcount_filter (filter_use_playcount filter) playcount_th in
  let skipcount_on := wf_intelligence_use_skipcount_filter (filter_use_skipcount filter) skipcount_th in
  let lastplayed_on := wf_intelligence_use_lastplayed_filter (filter_use_lastplayed filter) lastplayed_th in
  let filtered := false in
  let filtered :=
    if rating_on && negb filtered then
      let rating_v := wf_song_get_rating song in
      if negb (wf_stats_rating_is_valid rating_v)
         || (negb (rating_inc_zero && (rating_v =? 0))
             && ((rating_v <? rating_min) || (rating_max <? rating_v)))
      then true else filtered
    else filtered in
  let filtered :=
    if score_on && negb filtered then
      let score_v := wf_song_get_score song in
      if negb (wf_stats_score_is_valid score_v)
         || (d_ltb score_v score_min || d_ltb score_max score_v)
      then true else filtered
    else filtered in
  let filtered :=
    if playcount_on && negb filtered then
      let playcount_v := wf_song_get_play_count song in
      if negb (wf_stats_playcount_is_valid playcount_v)
         || (playcount_invert && (playcount_th <? playcount_v))
         || (negb playcount_invert && (playcount_v <? playcount_th))
      then true else filtered
    else filtered in
  let filtered :=
    if skipcount_on && negb filtered then
      let skipcount_v := wf_song_get_skip_count song in
      if negb (wf_stats_skipcount_is_valid skipcount_v)
         || (skipcount_invert && (skipcount_th <? skipcount_v))
         || (negb skipcount_invert && (skipcount_v <? skipcount_th))
      then true else filtered
    else filtered in
  let filtered :=
    if lastplayed_on && negb filtered then
      let lastplayed_v := wf_song_get_last_played song in
      let time_since_last_played := wf_utils_time_compare lastplayed_v time in
      if negb (wf_stats_lastplayed_is_valid lastplayed_v)
         || (lastplayed_invert && (lastplayed_th <? time_since_last_played))
         || (negb lastplayed_invert && (time_since_last_played <? lastplayed_th))
      then true else filtered
    else filtered in
  filtered.

(** [g_list_remove_link (library, item)] unlinks the visited node itself,
    so the loop keeps exactly the nodes whose flag stays [FALSE]. *)
Definition wf_intelligence_filter_by_stats
    (library : list (WfSong D)) (filter : WfSongFilter) (time : Z) : list (WfSong D) :=
  List.filter (fun song => negb (song_filtered_by_stats filter time song)) library.
End Intelligence.

Arguments WfSongFilter D : clear implicits.
Arguments WfSongEntries D : clear implicits.
Arguments WfDList D : clear implicits.

Section Recents.
Context {D : Type} `{GDouble D}.

Definition wf_intelligence_sort_compare (song_a song_b : WfSong D) : Z :=
  let valid_a := wf_song_is_valid song_a in
  let valid_b := wf_song_is_valid song_b in
  if negb valid_a && negb valid_b then 0
  else if negb valid_a && valid_b then 1
  else if valid_a && negb valid_b then -1
  else
    let last_played_a := wf_song_get_last_played song_a in
    let last_played_b := wf_song_get_last_played song_b in
    if last_played_b <? last_played_a then -1
    else if last_played_a <? last_played_b then 1
    else 0.

(** The first two loops of [wf_intelligence_remove_recents]: every song of
    [songs] is taken out of [library] and counted, until [amount] is reached.
    The result is the library and the counter [x]. *)
Fixpoint remove_listed_songs (songs : list (WfSong D)) (library : list (WfSong D))
    (x amount : Z) : list (WfSong D) * Z :=
  match songs with
  | [] => (library, x)
  | song :: songs' =>
      if x <? amount
      then remove_listed_songs songs' (g_list_remove same_song library song) (x + 1) amount
      else (library, x)
  end.

(** The third loop: the sorted copy is walked, songs never played are
    passed over without being counted. *)
Fixpoint remove_last_played_songs (songs : list (WfSong D)) (library : list (WfSong D))
    (x amount : Z) : list (WfSong D) * Z :=
  match songs with
  | [] => (library, x)
  | song :: songs' =>
      if x <? amount then
        if wf_song_get_last_played song <=? 0
        then remove_last_played_songs songs' library x amount
        else remove_last_played_songs songs' (g_list_remove same_song library song)
               (x + 1) amount
      else (library, x)
  end.

Definition wf_intelligence_remove_recents
    (library list_prev list_next : list (WfSong D)) (amount : Z) : list (WfSong D) :=
  match library with
  | [] => library
  | _ =>
    if amount <=? 0 then library
    else
      let x := 0 in
      let '(library, x) := remove_listed_songs list_next library x amount in
      let '(library, x) := remove_listed_songs list_prev library x amount in
      if x <? amount then
        let new_list := g_list_sort wf_intelligence_sort_compare library in
        fst (remove_last_played_songs new_list library x amount)
      else library
  end.

Definition wf_intelligence_get_percentage_of_list
    (songs : list (WfSong D)) (percentage : D) : Z :=
  let range_min := d_of_Z 0 in
  let range_max := d_of_Z 100 in
  match songs with
  | [] => 0
  | _ =>
    if d_leb percentage range_min then 0
    else
      let total := Z.of_nat (length songs) in
      if d_leb range_max percentage then total
      else d_to_Z (d_div (d_mul (d_of_Z total) percentage) (d_of_Z 100))
  end.

(** The list that reaches the recency stage of [wf_intelligence_filter]:
    [filtered_songs] after the availability, artist and statistic stages. *)
Definition songs_before_recents (available_songs : list (WfSong D))
    (recent_artists : list Z) (filter : WfSongFilter D) (time : Z) : list (WfSong D) :=
  let filtered_songs := available_songs in
  let filtered_songs := wf_intelligence_remove_invalid_songs filtered_songs in
  let filtered_songs :=
    wf_intelligence_remove_songs_with_artists filtered_songs recent_artists
      (filter_recent_artists filter) in
  wf_intelligence_filter_by_stats filtered_songs filter time.

(** The value of the local [remove_recent] of [wf_intelligence_filter] when
    [wf_intelligence_remove_recents] is called. *)
Definition remove_recent_amount (available_songs : list (WfSong D))
    (recent_artists : list Z) (filter : WfSongFilter D) (time : Z) : Z :=
  let filtered_songs := songs_before_recents available_songs recent_artists filter time in
  let remove_recent :=
    wf_intelligence_get_percentage_of_list filtered_songs
      (filter_remove_recents_percentage filter) in
  remove_recent + filter_remove_recents_amount filter.

(** [filter] is [None] for a [NULL] filter; the empty list is [NULL]. *)
Definition wf_intelligence_filter
    (available_songs previous_songs play_next : list (WfSong D))
    (recent_artists : list Z) (filter : option (WfSongFilter D)) (time : Z)
    : list (WfSong D) :=
  match available_songs, filter with
  | [], _ => []
  | _, None => available_songs
  | _, Some filter =>
      let filtered_songs := songs_before_recents available_songs recent_artists filter time in
      let remove_recent := remove_recent_amount available_songs recent_artists filter time in
      let filtered_songs :=
        wf_intelligence_remove_recents filtered_songs previous_songs play_next remove_recent in
      if (Z.of_nat (length filtered_songs) =? 0) then [] else filtered_songs
  end.
End Recents.

Section Picker.
Context {D : Type} `{GDouble D}.

Definition wf_intelligence_determine_modifiers (preferences : option (WfSongEntries D))
    : bool * WfIntelligenceContainer :=
  let container := mkContainer 0 0 false 0 false 0 false 0 false 0 false 0 in
  match preferences with
  | None => (false, container)
  | Some preferences =>
      let container :=
        if entries_use_rating preferences
           && d_ltb (d_of_Z 0) (entries_rating_multiplier preferences)
        then mkContainer (total_entries container)
               (entries_use_default_rating preferences)
               (entries_invert_rating preferences)
               (d_to_Z (d_mul (entries_rating_multiplier preferences) (d_of_Z MULTIPLIER_RATING)))
               (favor_low_scores container) (score_factor container)
               (favor_low_playcount container) (playcount_factor container)
               (favor_low_skipcount container) (skipcount_factor container)
               (favor_low_lastplayed container) (lastplayed_factor container)
        else container in
      let container :=
        if entries_use_score preferences
           && d_ltb (d_of_Z 0) (entries_score_multiplier preferences)
        then mkContainer (total_entries container) (default_rating container)
               (favor_low_ratings container) (rating_factor container)
               (entries_invert_score preferences)
               (d_to_Z (d_mul (entries_score_multiplier preferences) (d_of_Z MULTIPLIER_SCORE)))
               (favor_low_playcount container) (playcount_factor container)
               (favor_low_skipcount container) (skipcount_factor container)
               (favor_low_lastplayed container) (lastplayed_factor container)
        else container in
      let container :=
        if entries_use_playcount preferences
           && d_ltb (d_of_Z 0) (entries_playcount_multiplier preferences)
        then mkContainer (total_entries container) (default_rating container)
               (favor_low_ratings container) (rating_factor container)
               (favor_low_scores container) (score_factor container)
               (entries_invert_playcount preferences)
               (d_to_Z (d_mul (entries_playcount_multiplier preferences) (d_of_Z MULTIPLIER_PLAYCOUNT)))
               (favor_low_skipcount container) (skipcount_factor container)
               (favor_low_lastplayed container) (lastplayed_factor container)
        else container in
      let container :=
        if entries_use_skipcount preferences
           && d_ltb (d_of_Z 0) (entries_skipcount_multiplier preferences)
        then mkContainer (total_entries container) (default_rating container)
               (favor_low_ratings container) (rating_factor container)
               (favor_low_scores container) (score_factor container)
               (favor_low_playcount container) (playcount_factor container)
               (entries_invert_skipcount preferences)
               (d_to_Z (d_mul (entries_skipcount_multiplier preferences) (d_of_Z MULTIPLIER_SKIPCOUNT)))
               (favor_low_lastplayed container) (lastplayed_factor container)
        else container in
      let container :=
        if entries_use_lastplayed preferences
           && d_ltb (d_of_Z 0) (entries_lastplayed_multiplier preferences)
        then mkContainer (total_entries container) (default_rating container)
               (favor_low_ratings container) (rating_factor container)
               (favor_low_scores container) (score_factor container)
               (favor_low_playcount container) (playcount_factor container)
               (favor_low_skipcount container) (skipcount_factor container)
               (entries_invert_lastplayed preferences)
               (d_to_Z (d_mul (entries_lastplayed_multiplier preferences) (d_of_Z MULTIPLIER_LASTPLAYED)))
        else container in
      (true, container)
  end.

(** The body of the loop of [wf_intelligence_calculate_song_entries] up to
    the test for disqualification: the value of [entries] once the five
    modifiers have been added. *)
Definition song_entries (container : WfIntelligenceContainer) (current_time : Z)
    (song : WfSong D) : Z :=
  let use_rating := negb (rating_factor container =? 0) in
  let use_score := negb (score_factor container =? 0) in
  let use_playcount := negb (playcount_factor container =? 0) in
  let use_skipcount := negb (skipcount_factor container =? 0) in
  let use_lastplayed := negb (lastplayed_factor container =? 0) in
  let entries := 0 in
  let entries :=
    if use_rating then
      let rating := wf_song_get_rating song in
      if wf_stats_rating_is_valid rating then
        let rating :=
          if favor_low_ratings container then wf_stats_rating_invert rating
          else if rating =? 0 then default_rating container
          else rating in
        entries + rating * rating_factor container
      else entries
    else entries in
  let entries :=
    if use_score then
      let score := wf_song_get_score song in
      if wf_stats_score_is_valid score then
        let score :=
          if favor_low_scores container then wf_stats_score_invert score else score in
        d_to_Z (d_add (d_of_Z entries) (d_mul score (d_of_Z (score_factor container))))
      else entries
    else entries in
  let entries :=
    if use_playcount then
      let playcount := wf_song_get_play_count song in
      if wf_stats_playcount_is_valid playcount then
        let x :=
          if favor_low_playcount container
          then wf_intelligence_get_entries_count_inverted playcount
          else wf_intelligence_get_entries_count playcount in
        entries + x * playcount_factor container
      else entries
    else entries in
  let entries :=
    if use_skipcount then
      let skipcount := wf_song_get_skip_count song in
      if wf_stats_skipcount_is_valid skipcount then
        let x :=
          if favor_low_skipcount container
          then wf_intelligence_get_entries_count_inverted skipcount
          else wf_intelligence_get_entries_count skipcount in
        entries + x * skipcount_factor container
      else entries
    else entries in
  let entries :=
    if use_lastplayed then
      let lastplayed := wf_song_get_last_played song in
      if wf_stats_lastplayed_is_valid lastplayed then
        let time_since_last_played := wf_utils_time_compare lastplayed current_time in
        let x :=
          if one_year <? time_since_last_played then 100
          else if favor_low_lastplayed container
          then wf_intelligence_get_entries_time_since_inverted time_since_last_played
          else wf_intelligence_get_entries_time_since time_since_last_played in
        entries + x * lastplayed_factor container
      else entries
    else entries in
  entries.

(** One turn of the loop of [wf_intelligence_calculate_song_entries]; the
    state is the list built so far and [full_sum], a [gint]. *)
Definition calculate_song_entries_step (container : WfIntelligenceContainer)
    (current_time : Z) (acc : WfDList D * Z) (song : WfSong D) : WfDList D * Z :=
  let '(dlist, full_sum) := acc in
  let entries := song_entries container current_time song in
  if entries <? 0 then (dlist, full_sum)
  else
    let entries := if entries =? 0 then 1 else entries in
    (wf_d_list_add dlist song entries, gint_wrap (full_sum + entries)).

(** The result is the container (with [total_entries] set on success) and
    the list, [[]] for [NULL]. *)
Definition wf_intelligence_calculate_song_entries (container : WfIntelligenceContainer)
    (songs : list (WfSong D)) (current_time : Z) : WfIntelligenceContainer * WfDList D :=
  match songs with
  | [] => (container, [])
  | _ =>
    let '(dlist, full_sum) :=
      fold_left (calculate_song_entries_step container current_time) songs ([], 0) in
    if full_sum <=? 0 then (container, [])
    else
      (mkContainer full_sum (default_rating container)
         (favor_low_ratings container) (rating_factor container)
         (favor_low_scores container) (score_factor container)
         (favor_low_playcount container) (playcount_factor container)
         (favor_low_skipcount container) (skipcount_factor container)
         (favor_low_lastplayed container) (lastplayed_factor container),
       dlist)
  end.

(** The loop of [wf_intelligence_pick_winner]; [sum] is the running sum. *)
Fixpoint pick_winner_loop (dlist : WfDList D) (rand sum : Z) : option (WfSong D) :=
  match dlist with
  | [] => None
  | (song, entries) :: dlist' =>
      if entries <=? 0 then pick_winner_loop dlist' rand sum
      else
        let sum := sum + entries in
        if rand <=? sum then Some song else pick_winner_loop dlist' rand sum
  end.

(** [value] is the number [g_rand_int] gives to [wf_intelligence_random]. *)
Definition wf_intelligence_pick_winner (container : WfIntelligenceContainer)
    (dlist : WfDList D) (value : Z) : option (WfSong D) :=
  match dlist with
  | [] => None
  | _ =>
    let total := total_entries container in
    if negb (0 <? total) then None
    else
      let rand := wf_intelligence_random value 1 total in
      pick_winner_loop dlist rand 0
  end.

Definition wf_intelligence_get_song (filtered_songs : list (WfSong D))
    (preferences : option (WfSongEntries D)) (current_time value : Z)
    : option (WfSong D) :=
  match filtered_songs with
  | [] => None
  | _ =>
    let '(ok, container) := wf_intelligence_determine_modifiers preferences in
    if negb ok then None
    else
      let '(container, dlist) :=
        wf_intelligence_calculate_song_entries container filtered_songs current_time in
      wf_intelligence_pick_winner container dlist value
  end.

(** The result is the new value of [*library] and the chosen song. *)
Definition wf_intelligence_choose_new_song
    (library previous_songs play_next : list (WfSong D)) (recent_artists : list Z)
    (filter : option (WfSongFilter D)) (entries : option (WfSongEntries D))
    (current_time value : Z) : list (WfSong D) * option (WfSong D) :=
  match library with
  | [] => ([], None)
  | _ =>
    let library :=
      match filter with
      | Some _ =>
          wf_intelligence_filter library previous_songs play_next recent_artists
            filter current_time
      | None => library
      end in
    let new_song :=
      match entries with
      | Some _ => wf_intelligence_get_song library entries current_time value
      | None => None
      end in
    (library, new_song)
  end.
End Picker.

(** ** song_manager.c *)

Definition PLAYED_ITEMS_LIMIT : Z := 100.
Definition PLAYED_ARTISTS_LIMIT : Z := 50.

Section GListTrim.
Context {A : Type}.

(** [wf_song_manager_trim_list_length].  The result is the list returned and
    the data of the nodes freed (what [free_func] is called on).  The node
    [last_node] is the head of the list exactly when [limit - 1] is 0. *)
Definition wf_song_manager_trim_list_length (l : list A) (limit : Z)
    : list A * list A :=
  match l with
  | [] => (l, [])
  | _ =>
    if limit =? 0 then (l, [])
    else
      match g_list_nth l (Z.to_nat (limit - 1)) with
      | None => (l, [])
      | Some _ =>
          if limit - 1 =? 0 then (l, [])
          else (firstn (Z.to_nat limit) l, skipn (Z.to_nat limit) l)
      end
  end.
End GListTrim.

(** [wf_song_manager_add_recent_artist]; [[]] is [NULL]. *)
Definition wf_song_manager_add_recent_artist (l : list Z) (artist : Z) : list Z :=
  if negb (artist =? 0) then g_list_prepend l artist else [].

Section SongManager.
Context {D : Type} `{GDouble D}.

(** The history kept in [SongManagerData]; the lists hold addresses. *)
Record WfSongManagerDetails : Type := mkSongManager {
  current : option positive;
  list_previous : list positive;
  list_next : list positive;
  list_queue : list positive;
  artists : list Z;
  incognito : bool
}.

Definition wf_song_manager_get_incognito (m : WfSongManagerDetails) : bool :=
  incognito m.

Definition wf_song_manager_set_incognito (m : WfSongManagerDetails) (enable : bool)
    : WfSongManagerDetails :=
  mkSongManager (current m) (list_previous m) (list_next m) (list_queue m)
    (artists m) enable.

Definition wf_song_manager_add_prev_song (m : WfSongManagerDetails) (song : WfSong D)
    : WfSongManagerDetails :=
  mkSongManager (current m) (g_list_prepend (list_previous m) (song_ptr song))
    (list_next m) (list_queue m) (artists m) (incognito m).

(** The result is the new [SongManagerData] and the song object after the
    call; [sett] and [now] stand for the settings and the clock. *)
Definition wf_song_manager_add_played_song (sett : WfPlayedSettings D) (now : Z)
    (m : WfSongManagerDetails) (song : WfSong D) (played_fraction : D)
    (skip_score_update : bool) : WfSongManagerDetails * WfSong D :=
  if negb (d_leb (d_of_Z 0) played_fraction && d_leb played_fraction (d_of_Z 1))
  then (m, song)
  else
    let m := wf_song_manager_add_prev_song m song in
    let artist := wf_song_get_artist_hash song in
    let m :=
      mkSongManager (current m) (list_previous m) (list_next m) (list_queue m)
        (wf_song_manager_add_recent_artist (artists m) artist) (incognito m) in
    let song :=
      if negb (incognito m) then
        let song :=
          if negb skip_score_update
          then wf_stats_modify_and_update_score (wf_song_manager_get_incognito m)
                 sett song played_fraction
          else song in
        let song :=
          wf_stats_modify_and_update_playcount (wf_song_manager_get_incognito m)
            sett song played_fraction false in
        let song :=
          wf_stats_modify_and_update_skipcount (wf_song_manager_get_incognito m)
            sett song played_fraction false in
        wf_stats_modify_and_update_lastplayed (wf_song_manager_get_incognito m)
          sett now song played_fraction 0
      else song in
    (mkSongManager None (list_previous m) (list_next m) (list_queue m)
       (artists m) (incognito m),
     song).

(** The two trims at the end of [wf_song_manager_sync]. *)
Definition wf_song_manager_sync_trim (m : WfSongManagerDetails) : WfSongManagerDetails :=
  mkSongManager (current m)
    (fst (wf_song_manager_trim_list_length (list_previous m) PLAYED_ITEMS_LIMIT))
    (list_next m) (list_queue m)
    (fst (wf_song_manager_trim_list_length (artists m) PLAYED_ARTISTS_LIMIT))
    (incognito m).
End SongManager.

(** ** Sums of entries, and the data of the examples *)

Section Examples.
Context {D : Type} `{GDouble D}.

(** The sum of the entry numbers of a list of the song picker. *)
Definition sum_entries (dlist : WfDList D) : Z :=
  fold_right (fun item acc => snd item + acc) 0 dlist.

(** What one song adds to the list of the song picker: nothing when its
    modifiers sum to a negative number, else one item. *)
Definition entry_of_song (container : WfIntelligenceContainer) (current_time : Z)
    (song : WfSong D) : WfDList D :=
  let entries := song_entries container current_time song in
  if entries <? 0 then []
  else [(song, if entries =? 0 then 1 else entries)].

(** The quotient [a / b] as a double. *)
Definition fraction (a b : Z) : D := d_div (d_of_Z a) (d_of_Z b).

(** An available song without artist, at address [ptr]. *)
Definition example_song (ptr : positive) (rating : Z) (score : D)
    (playcount skipcount lastplayed : Z) : WfSong D :=
  mkSong ptr true 0 0 WF_SONG_AVAILABLE rating score playcount skipcount lastplayed.

(** The default values of [MinimumPlayedFraction] and [FullPlayedFraction]
    in settings.c, and a full played fraction of 0.9. *)
Definition default_played_settings : WfPlayedSettings D :=
  mkPlayedSettings (fraction 2 10) (fraction 8 10).
Definition played_settings_full_09 : WfPlayedSettings D :=
  mkPlayedSettings (fraction 2 10) (fraction 9 10).

(** Ten songs with a score of 50, but for the fourth one (score 5). *)
Definition library_of_ten : list (WfSong D) :=
  map (fun ptr => example_song ptr 0 (d_of_Z (if Pos.eqb ptr 4 then 5 else 50)) 0 0 0)
      [1; 2; 3; 4; 5; 6; 7; 8; 9; 10]%positive.

(** Only the score filter is on (scores from 10 to 100 pass); half of the
    list is to be removed as recently played, and no fixed amount. *)
Definition filter_score_and_half : WfSongFilter D :=
  mkSongFilter 0 0 (d_of_Z 50)
    false true false false false
    false false false false
    0 0 10 100 0 0 0.

(** Three songs rated 80, unrated and 100. *)
Definition song_A : WfSong D := example_song 1 80 (d_of_Z 50) 0 0 0.
Definition song_B : WfSong D := example_song 2 0 (d_of_Z 50) 0 0 0.
Definition song_C : WfSong D := example_song 3 100 (d_of_Z 50) 0 0 0.

(** Only the rating modifier is on: multiplier 1.0, default rating 20. *)
Definition entries_rating_only : WfSongEntries D :=
  mkSongEntries true false false false false
    false false false false false
    20 (d_of_Z 1) (d_of_Z 1) (d_of_Z 1) (d_of_Z 1) (d_of_Z 1).

(** The default values of the probability modifiers in settings.c: the
    rating and the last played modifier are on, every multiplier is 1.0 and
    the default rating is 0. *)
Definition default_song_entries : WfSongEntries D :=
  mkSongEntries true false false false true
    false false false true false
    0 (d_of_Z 1) (d_of_Z 1) (d_of_Z 1) (d_of_Z 1) (d_of_Z 1).

(** [n] unrated songs that were never played, at the addresses 1 to [n]. *)
Definition never_played_songs (n : Z) : list (WfSong D) :=
  map (fun i => example_song (Pos.of_nat i) 0 (d_of_Z 0) 0 0 0)
      (seq 1 (Z.to_nat n)).

(** A container in which only the last played modifier is on. *)
Definition container_lastplayed_only (invert : bool) : WfIntelligenceContainer :=
  mkContainer 0 0 false 0 false 0 false 0 false 0 invert 1000.
End Examples.

(** ** dlist.c: removal and the last node *)

Section DList.
Context {D : Type}.

(** [wf_d_list_remove_any]: the first node whose key or whose value matches
    is unlinked.  [key] is [None] for [NULL], which no node of the song picker
    has as key. *)
Fixpoint wf_d_list_remove_any (dlist : WfDList D) (key : option (WfSong D))
    (value : Z) : WfDList D :=
  match dlist with
  | [] => []
  | (k, v) :: dlist' =>
      if match key with Some key => same_song k key | None => false end
         || (v =? value)
      then dlist'
      else (k, v) :: wf_d_list_remove_any dlist' key value
  end.

(** [wf_d_list_remove_all]: every node whose key and value both match is
    unlinked. *)
Fixpoint wf_d_list_remove_all (dlist : WfDList D) (key : option (WfSong D))
    (value : Z) : WfDList D :=
  match dlist with
  | [] => []
  | (k, v) :: dlist' =>
      if match key with Some key => same_song k key | None => false end
         && (v =? value)
      then wf_d_list_remove_all dlist' key value
      else (k, v) :: wf_d_list_remove_all dlist' key value
  end.

(** [wf_d_list_last]: the last node, [None] for the empty list. *)
Fixpoint wf_d_list_last (dlist : WfDList D) : option (WfSong D * Z) :=
  match dlist with
  | [] => None
  | item :: dlist' =>
      match dlist' with
      | [] => Some item
      | _ => wf_d_list_last dlist'
      end
  end.
End DList.

(** ** utils.c: the fields of a duration *)

(** [wf_utils_duration_to_string] up to the call of [g_strdup_printf]: the
    numbers printed, the hours being [None] when the short format is used.
    The divisions are those of C; [floor] of a quotient of integers is that
    quotient.  The [gint] fields are integers without bound, which is right
    for a duration whose seconds fit a [gint]. *)
Definition wf_utils_duration_fields (duration : Z) : option Z * Z * Z :=
  let total_seconds := Z.quot (Z.quot (Z.quot duration 1000) 1000) 1000 in
  let minutes := Z.quot total_seconds 60 in
  let seconds := total_seconds - (minutes * 60) in
  if 60 * 60 <? total_seconds then
    let hours := Z.quot minutes 60 in
    let minutes := seconds - (hours * 60 * 60) in
    (Some hours, minutes, seconds)
  else (None, minutes, seconds).

(** ** song_manager.c: the queue, the lists and the choice of the next song *)

Section GListMore.
Context {A : Type}.

(** [g_list_remove_all]: every node whose data is [x] is unlinked. *)
Definition g_list_remove_all (eqb : A -> A -> bool) (l : list A) (x : A) : list A :=
  filter (fun y => negb (eqb y x)) l.

(** [g_list_find]: is there a node whose data is [x]? *)
Definition g_list_find (eqb : A -> A -> bool) (l : list A) (x : A) : bool :=
  existsb (fun y => eqb y x) l.

Definition g_list_append (l : list A) (x : A) : list A := l ++ [x].
End GListMore.

(** The flag [priv->queued] of the song objects, by address
    ([wf_song_get_queued], [wf_song_set_queued]). *)
Definition wf_song_get_queued (queued : positive -> bool) (song : positive) : bool :=
  queued song.

Definition wf_song_set_queued (queued : positive -> bool) (song : positive)
    (value : bool) : positive -> bool :=
  fun other => if Pos.eqb other song then value else queued other.

Definition wf_song_manager_get_queue_song (m : WfSongManagerDetails) : option positive :=
  hd_error (list_queue m).

Definition wf_song_manager_get_prev_song (m : WfSongManagerDetails) : option positive :=
  hd_error (list_previous m).

Definition wf_song_manager_add_queue_song (m : WfSongManagerDetails)
    (queued : positive -> bool) (song : positive)
    : WfSongManagerDetails * (positive -> bool) :=
  (mkSongManager (current m) (list_previous m) (list_next m)
     (g_list_append (list_queue m) song) (artists m) (incognito m),
   wf_song_set_queued queued song true).

(** [song] is [None] for [NULL]. *)
Definition wf_song_manager_rm_queue_song (m : WfSongManagerDetails)
    (queued : positive -> bool) (song : option positive)
    : WfSongManagerDetails * (positive -> bool) :=
  match song with
  | None => (m, queued)
  | Some song =>
      let list_queue' := g_list_remove Pos.eqb (list_queue m) song in
      (mkSongManager (current m) (list_previous m) (list_next m) list_queue'
         (artists m) (incognito m),
       if g_list_find Pos.eqb list_queue' song then queued
       else wf_song_set_queued queued song false)
  end.

(** [g_list_remove (list, NULL)] finds no node: the lists hold no [NULL]. *)
Definition wf_song_manager_rm_prev_song (m : WfSongManagerDetails)
    (song : option positive) : WfSongManagerDetails :=
  match song with
  | None => m
  | Some song =>
      mkSongManager (current m) (g_list_remove Pos.eqb (list_previous m) song)
        (list_next m) (list_queue m) (artists m) (incognito m)
  end.

Definition wf_song_manager_add_next_song (m : WfSongManagerDetails)
    (song : option positive) : WfSongManagerDetails :=
  match song with
  | None => m
  | Some song =>
      mkSongManager (current m) (list_previous m)
        (g_list_append (list_next m) song) (list_queue m) (artists m) (incognito m)
  end.

(** The result is the new [SongManagerData] and the song returned. *)
Definition wf_song_manager_played_song_revert (m : WfSongManagerDetails)
    : WfSongManagerDetails * option positive :=
  let current := current m in
  let song := wf_song_manager_get_prev_song m in
  let m := wf_song_manager_rm_prev_song m song in
  let m := wf_song_manager_add_next_song m current in
  (m, song).

(** [wf_player_toggle_queue] of player.c, as far as the song manager and the
    flags go. *)
Definition wf_player_toggle_queue (m : WfSongManagerDetails)
    (queued : positive -> bool) (song : positive)
    : WfSongManagerDetails * (positive -> bool) :=
  if wf_song_get_queued queued song
  then wf_song_manager_rm_queue_song m queued (Some song)
  else wf_song_manager_add_queue_song m queued song.

Section ManagerChoice.
Context {D : Type} `{GDouble D}.

(** [wf_song_manager_choose_new_song].  [deref] gives the object at an
    address, [library] is the list [wf_library_get] returns, [filter] and
    [modifiers] are the structures of the settings (never [NULL]). *)
Definition wf_song_manager_choose_new_song (deref : positive -> WfSong D)
    (m : WfSongManagerDetails) (library : list (WfSong D))
    (filter : WfSongFilter D) (modifiers : WfSongEntries D)
    (current_time value : Z) : option (WfSong D) :=
  match library with
  | [] => None
  | _ =>
    let '(artist, library) :=
      match current m with
      | Some current =>
          (wf_song_get_artist_hash (deref current),
           g_list_remove_all same_song library (deref current))
      | None => (0, library)
      end in
    match library with
    | [] => None
    | _ =>
      let artists := wf_song_manager_add_recent_artist (artists m) artist in
      snd (wf_intelligence_choose_new_song library
             (map deref (list_previous m)) (map deref (list_next m)) artists
             (Some filter) (Some modifiers) current_time value)
    end
  end.

(** [wf_song_manager_sync]: the next song is chosen when none is waiting,
    and the two histories are trimmed (the write of the library file is not
    part of the history). *)
Definition wf_song_manager_sync (deref : positive -> WfSong D)
    (m : WfSongManagerDetails) (library : list (WfSong D))
    (filter : WfSongFilter D) (modifiers : WfSongEntries D)
    (current_time value : Z) : WfSongManagerDetails :=
  let m :=
    match list_next m with
    | [] =>
        let song :=
          wf_song_manager_choose_new_song deref m library filter modifiers
            current_time value in
        wf_song_manager_add_next_song m (option_map song_ptr song)
    | _ => m
    end in
  wf_song_manager_sync_trim m.
End ManagerChoice.

(** * Properties *)

(** ** Exact arithmetic: the comparisons and the conversion to [gint] *)

Section ExactArithmetic.
Local Open Scope Q_scope.


Lemma Qltb_true (x y : Q) : Qltb x y = true <-> x < y.
Proof.
  unfold Qltb. rewrite negb_true_iff. split.
  - intros Hb. apply Qnot_le_lt. intros Hle.
    apply Qle_bool_iff in Hle. congruence.
  - intros Hlt. destruct (Qle_bool y x) eqn:E; [|reflexivity].
    apply Qle_bool_iff in E. lra.
Qed.

Lemma Qltb_false (x y : Q) : Qltb x y = false <-> y <= x.
Proof.
  unfold Qltb. rewrite negb_false_iff. apply Qle_bool_iff.
Qed.

End ExactArithmetic.


(** ** The filter pipeline *)




(** ** The entries of the songs *)

Section EntryList.
Context {D : Type} `{GDouble D}.

Lemma sum_entries_app (l1 l2 : WfDList D) :
  sum_entries (l1 ++ l2) = sum_entries l1 + sum_entries l2.
Proof.
  induction l1 as [|item l1 IH]; simpl; [reflexivity|].
  unfold sum_entries in *. simpl. rewrite IH. lia.
Qed.

(** Additions of [gint]s wrap modulo 2^32. *)
Lemma gint_wrap_range (z : Z) : - 2 ^ 31 <= gint_wrap z <= G_MAXINT.
Proof.
  unfold gint_wrap, G_MAXINT.
  pose proof (Z.mod_pos_bound (z + 2 ^ 31) (2 ^ 32) ltac:(lia)). lia.
Qed.

Lemma gint_wrap_small (z : Z) : - 2 ^ 31 <= z <= G_MAXINT -> gint_wrap z = z.
Proof.
  unfold gint_wrap, G_MAXINT. intros Hz. rewrite Z.mod_small; lia.
Qed.

Lemma gint_wrap_add (a b : Z) : gint_wrap (gint_wrap a + b) = gint_wrap (a + b).
Proof.
  unfold gint_wrap.
  replace ((a + 2 ^ 31) mod 2 ^ 32 - 2 ^ 31 + b + 2 ^ 31)
    with ((a + 2 ^ 31) mod 2 ^ 32 + b) by lia.
  rewrite Zplus_mod_idemp_l. f_equal. f_equal. lia.
Qed.

(** A sum that is not negative and wraps to a positive number is at least
    that number. *)
Lemma gint_wrap_below (z : Z) : 0 <= z -> 0 < gint_wrap z -> gint_wrap z <= z.
Proof.
  unfold gint_wrap. intros Hz Hpos.
  pose proof (Z.mod_pos_bound (z + 2 ^ 31) (2 ^ 32) ltac:(lia)) as Hbound.
  pose proof (Z.div_mod (z + 2 ^ 31) (2 ^ 32) ltac:(lia)) as Hdiv.
  assert (Hq : 0 <= (z + 2 ^ 31) / 2 ^ 32) by (apply Z.div_pos; lia).
  destruct (Z.eq_dec ((z + 2 ^ 31) / 2 ^ 32) 0) as [Hzero|Hmore]; lia.
Qed.

Lemma calculate_song_entries_fold (container : WfIntelligenceContainer)
    (current_time : Z) (songs : list (WfSong D)) (dlist : WfDList D) (full_sum : Z) :
  gint_wrap full_sum = full_sum ->
  fold_left (calculate_song_entries_step container current_time) songs (dlist, full_sum)
  = (dlist ++ flat_map (entry_of_song container current_time) songs,
     gint_wrap
       (full_sum + sum_entries (flat_map (entry_of_song container current_time) songs))).
Proof.
  revert dlist full_sum.
  induction songs as [|song songs' IH]; intros dlist full_sum Hrange.
  - simpl. rewrite app_nil_r. f_equal. unfold sum_entries. simpl.
    rewrite Z.add_0_r. symmetry. exact Hrange.
  - cbn [fold_left flat_map]. rewrite sum_entries_app.
    unfold calculate_song_entries_step at 2. unfold entry_of_song at 1 3.
    destruct (song_entries container current_time song <? 0).
    + rewrite IH by exact Hrange. reflexivity.
    + rewrite IH.
      * unfold wf_d_list_add. rewrite <- app_assoc. f_equal.
        unfold sum_entries at 2. cbn [fold_right snd].
        rewrite gint_wrap_add. f_equal. lia.
      * pose proof (gint_wrap_range
                      (full_sum + (if song_entries container current_time song =? 0
                                   then 1
                                   else song_entries container current_time song)))
          as Hr.
        apply gint_wrap_small. exact Hr.
Qed.

Lemma entry_of_song_positive (container : WfIntelligenceContainer) (current_time : Z)
    (songs : list (WfSong D)) :
  Forall (fun item => 1 <= snd item)
    (flat_map (entry_of_song container current_time) songs).
Proof.
  apply Forall_forall. intros [song entries] Hin.
  apply in_flat_map in Hin. destruct Hin as [song' [_ Hin]].
  unfold entry_of_song in Hin.
  destruct (song_entries container current_time song' <? 0) eqn:Hneg;
    [contradiction|].
  destruct Hin as [Heq|[]]. injection Heq as _ Hentries.
  rewrite <- Hentries. simpl.
  destruct (song_entries container current_time song' =? 0) eqn:Hz; lia.
Qed.

Lemma sum_entries_positive (dlist : WfDList D) :
  Forall (fun item => 1 <= snd item) dlist ->
  dlist <> [] -> 1 <= sum_entries dlist.
Proof.
  intros Hall Hne. destruct dlist as [|item dlist']; [congruence|].
  inversion Hall as [|? ? Hitem Hrest]; subst.
  assert (Hnonneg : 0 <= sum_entries dlist').
  { clear -Hrest. induction Hrest as [|item' l Hi _ IH]; unfold sum_entries in *;
      simpl; lia. }
  unfold sum_entries in *. simpl. lia.
Qed.

Lemma sum_entries_not_negative (dlist : WfDList D) :
  Forall (fun item => 1 <= snd item) dlist -> 0 <= sum_entries dlist.
Proof.
  induction 1 as [|item l Hitem _ IH]; unfold sum_entries in *; simpl; lia.
Qed.

(** What [wf_intelligence_calculate_song_entries] returns: the list of the
    entries of the songs and, in the container, their sum as the [gint]
    [full_sum] holds it, when that is positive; no list when it is not. *)
Lemma calculate_song_entries_result (container : WfIntelligenceContainer)
    (songs : list (WfSong D)) (current_time : Z) :
  let result := wf_intelligence_calculate_song_entries container songs current_time in
  let entries := flat_map (entry_of_song container current_time) songs in
  (gint_wrap (sum_entries entries) <= 0 -> result = (container, []))
  /\ (0 < gint_wrap (sum_entries entries) ->
        snd result = entries
        /\ total_entries (fst result) = gint_wrap (sum_entries entries)).
Proof.
  unfold wf_intelligence_calculate_song_entries.
  destruct songs as [|song songs'].
  { simpl. split; [reflexivity|]. intros Hpos. vm_compute in Hpos. discriminate. }
  rewrite calculate_song_entries_fold by reflexivity.
  set (entries := flat_map (entry_of_song container current_time) (song :: songs')).
  simpl app. rewrite Z.add_0_l.
  destruct (Z.leb_spec (gint_wrap (sum_entries entries)) 0) as [Hle|Hpos]; simpl.
  - split; [reflexivity|lia].
  - split; [lia|]. intros _. split; reflexivity.
Qed.

(** While the sum of the entries fits a [gint], the list is the list of the
    entries of the songs and the total is their sum. *)
Lemma calculate_song_entries_fits (container : WfIntelligenceContainer)
    (songs : list (WfSong D)) (current_time : Z) :
  let result := wf_intelligence_calculate_song_entries container songs current_time in
  sum_entries (flat_map (entry_of_song container current_time) songs) <= G_MAXINT ->
  snd result = flat_map (entry_of_song container current_time) songs
  /\ (snd result <> [] -> total_entries (fst result) = sum_entries (snd result)).
Proof.
  intros result Hfits.
  destruct (calculate_song_entries_result container songs current_time)
    as [Hnone Hsome].
  cbv zeta in Hnone, Hsome. fold result in Hnone, Hsome.
  set (entries := flat_map (entry_of_song container current_time) songs) in *.
  pose proof (entry_of_song_positive container current_time songs) as Hall.
  fold entries in Hall.
  pose proof (sum_entries_not_negative entries Hall) as Hnonneg.
  assert (Hwrap : gint_wrap (sum_entries entries) = sum_entries entries).
  { apply gint_wrap_small. lia. }
  rewrite Hwrap in Hnone, Hsome.
  destruct (Z.leb_spec (sum_entries entries) 0) as [Hle|Hpos].
  - rewrite (Hnone Hle). cbn [snd].
    assert (Hnil : entries = []).
    { destruct entries as [|item rest] eqn:E; [reflexivity|].
      assert (1 <= sum_entries (item :: rest))
        by (apply sum_entries_positive; [exact Hall|discriminate]).
      lia. }
    rewrite Hnil. split; [reflexivity|congruence].
  - destruct (Hsome Hpos) as [Hlist Htotal].
    split; [exact Hlist|]. intros _. rewrite Htotal, Hlist. reflexivity.
Qed.
End EntryList.

(** C6.  The list of [wf_intelligence_calculate_song_entries].  A song
    whose modifiers sum to a negative number has no entry in it, and every
    entry number in it is at least 1.  A song whose modifiers sum to zero is
    in it with one entry as long as the list is returned, which is the case
    while the sum of the entries fits a [gint]; but [full_sum] is a [gint],
    and when the sum wraps to a number that is not positive the function
    frees the list and returns none.  With the default modifiers and the
    clock at 2000000000, 21475 unrated songs that were never played get
    100000 entries each and an unrated song played at that very time sums to
    zero: no song is disqualified, the entries sum to 2147500001, [full_sum]
    ends at -2147467295, and no list is returned (binary64). *)
Theorem negative_entries_disqualify :
  (forall (D : Type) (GD : GDouble D) (container : WfIntelligenceContainer)
          (songs : list (WfSong D)) (current_time : Z),
      let dlist :=
        snd (wf_intelligence_calculate_song_entries container songs current_time) in
      let entries := flat_map (entry_of_song container current_time) songs in
      (forall song, In song songs ->
          song_entries container current_time song < 0 ->
          forall n, ~ In (song, n) dlist)
      /\ (forall song n, In (song, n) dlist -> 1 <= n)
      /\ (0 < gint_wrap (sum_entries entries) ->
            forall song, In song songs ->
              song_entries container current_time song = 0 -> In (song, 1) dlist)
      /\ (sum_entries entries <= G_MAXINT ->
            forall song, In song songs ->
              song_entries container current_time song = 0 -> In (song, 1) dlist)
      /\ (gint_wrap (sum_entries entries) <= 0 ->
            wf_intelligence_calculate_song_entries container songs current_time
            = (container, [])))
  /\ (let now := 2000000000 in
      let container :=
        snd (wf_intelligence_determine_modifiers (D:=float) (Some default_song_entries)) in
      let played_now := example_song (D:=float) 21476 0 (b64_of_Z 0) 1 0 now in
      let songs := never_played_songs 21475 ++ [played_now] in
      song_entries container now played_now = 0
      /\ forallb (fun song => song_entries container now song =? 100000)
           (never_played_songs 21475) = true
      /\ sum_entries (flat_map (entry_of_song container now) songs) = 2147500001
      /\ gint_wrap 2147500001 = -2147467295
      /\ wf_intelligence_calculate_song_entries container songs now = (container, [])).
Proof.
  assert (Hgen : forall (D : Type) (GD : GDouble D)
                        (container : WfIntelligenceContainer)
                        (songs : list (WfSong D)) (current_time : Z),
            gint_wrap (sum_entries (flat_map (entry_of_song container current_time) songs))
            <= 0 ->
            wf_intelligence_calculate_song_entries container songs current_time
            = (container, [])).
  { intros D GD container songs current_time.
    apply (calculate_song_entries_result container songs current_time). }
  split.
  - intros D GD container songs current_time dlist entries.
    destruct (calculate_song_entries_result container songs current_time)
      as [Hnone Hsome].
    cbv zeta in Hnone, Hsome. fold entries in Hnone, Hsome.
    assert (Hlisted : forall song n, In (song, n) dlist -> In (song, n) entries).
    { intros song n Hin. subst dlist.
      destruct (Z.leb_spec (gint_wrap (sum_entries entries)) 0) as [Hle|Hpos].
      - rewrite (Hnone Hle) in Hin. contradiction.
      - destruct (Hsome Hpos) as [Hlist _]. rewrite Hlist in Hin. exact Hin. }
    assert (Hzero : 0 < gint_wrap (sum_entries entries) ->
                    forall song, In song songs ->
                      song_entries container current_time song = 0 ->
                      In (song, 1) dlist).
    { intros Hpos song Hin Hz. subst dlist.
      destruct (Hsome Hpos) as [Hlist _]. rewrite Hlist.
      apply in_flat_map. exists song. split; [exact Hin|].
      unfold entry_of_song. rewrite Hz. simpl. left. reflexivity. }
    split; [|split; [|split; [|split]]].
    + intros song _ Hneg n Hin. apply Hlisted in Hin.
      apply in_flat_map in Hin. destruct Hin as [song' [_ Hin]].
      unfold entry_of_song in Hin.
      destruct (song_entries container current_time song' <? 0) eqn:Hneg';
        [contradiction|].
      destruct Hin as [Heq|[]]. injection Heq as Hsong _.
      rewrite Hsong in Hneg'. lia.
    + intros song n Hin. apply Hlisted in Hin.
      pose proof (entry_of_song_positive container current_time songs) as Hall.
      rewrite Forall_forall in Hall. exact (Hall _ Hin).
    + exact Hzero.
    + intros Hfits song Hin Hz. apply Hzero; [|exact Hin|exact Hz].
      assert (Hitem : In (song, 1) entries).
      { apply in_flat_map. exists song. split; [exact Hin|].
        unfold entry_of_song. rewrite Hz. simpl. left. reflexivity. }
      pose proof (entry_of_song_positive container current_time songs) as Hall.
      fold entries in Hall.
      assert (1 <= sum_entries entries).
      { apply sum_entries_positive; [exact Hall|].
        intros Hnil. rewrite Hnil in Hitem. contradiction. }
      rewrite gint_wrap_small by lia. lia.
    + apply Hgen.
  - cbv zeta.
    assert (Hsum :
      sum_entries
        (flat_map
           (entry_of_song
              (snd (wf_intelligence_determine_modifiers (D:=float)
                      (Some default_song_entries))) 2000000000)
           (never_played_songs 21475
            ++ [example_song (D:=float) 21476 0 (b64_of_Z 0) 1 0 2000000000]))
      = 2147500001) by (vm_compute; reflexivity).
    split; [vm_compute; reflexivity|].
    split; [vm_compute; reflexivity|].
    split; [exact Hsum|].
    split; [vm_compute; reflexivity|].
    apply Hgen. rewrite Hsum. vm_compute. discriminate.
Qed.

Lemma negative_entries_disqualify_witness :
  In (song_B (D:=Q), 1)
     (snd (wf_intelligence_calculate_song_entries
             (mkContainer 0 0 false (-1000) false 0 false 0 false 0 false 0)
             [song_A; song_B] 0))
  /\ (forall n,
        ~ In (song_A (D:=Q), n)
            (snd (wf_intelligence_calculate_song_entries
                    (mkContainer 0 0 false (-1000) false 0 false 0 false 0 false 0)
                    [song_A; song_B] 0))).
Proof.
  pose proof (proj1 negative_entries_disqualify Q exact_rational
    (mkContainer 0 0 false (-1000) false 0 false 0 false 0 false 0)
    [song_A; song_B] 0) as Hlist.
  cbv zeta in Hlist. destruct Hlist as [Hneg [_ [_ [Hzero _]]]].
  split.
  - apply Hzero.
    + vm_compute. discriminate.
    + right. left. reflexivity.
    + reflexivity.
  - apply Hneg.
    + left. reflexivity.
    + reflexivity.
Defined.

(** ** The weighted draw *)

Section WeightedDraw.
Context {D : Type} `{GDouble D}.

Lemma wf_intelligence_random_range (value total : Z) :
  0 < total ->
  1 <= wf_intelligence_random value 1 total <= total.
Proof.
  intros Hpos. unfold wf_intelligence_random.
  replace (total - 1 + 1) with total by lia.
  pose proof (Z.mod_pos_bound value total Hpos). lia.
Qed.


(** The loop stops at the first item at which the running sum reaches
    [rand]. *)
Lemma pick_winner_loop_first (dlist : WfDList D) (rand sum : Z) :
  Forall (fun item => 1 <= snd item) dlist ->
  sum < rand <= sum + sum_entries dlist ->
  exists before song entries after,
    dlist = before ++ (song, entries) :: after
    /\ pick_winner_loop dlist rand sum = Some song
    /\ sum + sum_entries before < rand <= sum + sum_entries before + entries.
Proof.
  revert sum.
  induction dlist as [|[song entries] dlist' IH]; intros sum Hall Hrange.
  - unfold sum_entries in Hrange. simpl in Hrange. lia.
  - inversion Hall as [|? ? Hitem Hrest]; subst. simpl in Hitem.
    change (sum_entries ((song, entries) :: dlist'))
      with (entries + sum_entries dlist') in Hrange.
    cbn [pick_winner_loop].
    destruct (Z.leb_spec entries 0) as [Hle|Hle]; [lia|].
    destruct (Z.leb_spec rand (sum + entries)) as [Hreach|Hreach].
    + exists [], song, entries, dlist'.
      change (sum_entries []) with 0. repeat split; lia.
    + destruct (IH (sum + entries) Hrest) as
        [before [song' [entries' [after [Hsplit [Hpick Hsum]]]]]]; [lia|].
      exists ((song, entries) :: before), song', entries', after.
      change (sum_entries ((song, entries) :: before))
        with (entries + sum_entries before).
      split; [rewrite Hsplit; reflexivity|].
      split; [exact Hpick|lia].
Qed.

Lemma pick_winner_within (container : WfIntelligenceContainer) (dlist : WfDList D)
    (value : Z) :
  Forall (fun item => 1 <= snd item) dlist ->
  0 < total_entries container <= sum_entries dlist ->
  let rand := wf_intelligence_random value 1 (total_entries container) in
  1 <= rand <= total_entries container
  /\ exists before song entries after,
       dlist = before ++ (song, entries) :: after
       /\ wf_intelligence_pick_winner container dlist value = Some song
       /\ sum_entries before < rand <= sum_entries before + entries.
Proof.
  intros Hall [Hpos Htotal] rand.
  pose proof (wf_intelligence_random_range value _ Hpos) as Hrange.
  fold rand in Hrange. split; [exact Hrange|].
  destruct (pick_winner_loop_first dlist rand 0 Hall) as
    [before [song [entries [after [Hsplit [Hpick Hsum]]]]]]; [lia|].
  exists before, song, entries, after.
  split; [exact Hsplit|]. split; [|lia].
  unfold wf_intelligence_pick_winner.
  destruct dlist as [|item dlist'].
  - destruct before; discriminate.
  - destruct (Z.ltb_spec 0 (total_entries container)) as [Hpos'|Hpos']; [|lia].
    exact Hpick.
Qed.


End WeightedDraw.



(** ** The score update *)

Ltac exact_ops :=
  unfold STAT_SCORE_MIN, STAT_SCORE_MAX, STAT_PLAYCOUNT_MIN in *;
  cbn [d_ltb d_leb d_eqb d_of_Z d_to_Z d_add d_sub d_mul d_div exact_rational] in *;
  change (inject_Z 0) with 0%Q in *; change (inject_Z 1) with 1%Q in *;
  change (inject_Z 2) with 2%Q in *; change (inject_Z 100) with 100%Q in *;
  change (inject_Z (-1)) with (-1 # 1)%Q in *.

Section ScoreUpdate.
Local Open Scope Q_scope.

Lemma CLAMP_exact_inside (x : Q) :
  0 <= x <= 100 -> CLAMP x 0 100 = x.
Proof.
  intros [Hlo Hhi]. unfold CLAMP. exact_ops.
  assert (H1 : Qltb 100 x = false) by (apply Qltb_false; exact Hhi).
  assert (H2 : Qltb x 0 = false) by (apply Qltb_false; exact Hlo).
  rewrite H1, H2. reflexivity.
Qed.

(** Storing a score [c] of the valid range through [wf_stats_update_score]
    with no increase: [c] is stored when it is not 0, and a [c] of 0 leaves
    the score as it is. *)
Lemma wf_stats_update_score_exact (song : WfSong Q) (c : Q) :
  0 <= song_score song <= 100 -> 0 <= c <= 100 ->
  (c == 0 -> song_score song == 0) ->
  song_score (wf_stats_update_score song c 0) == c.
Proof.
  intros [Holo Hohi] [Hclo Hchi] Hzero.
  unfold wf_stats_update_score, wf_song_get_score. exact_ops.
  destruct (Qeq_bool c (-1 # 1)) eqn:E1.
  { apply Qeq_bool_eq in E1. lra. }
  destruct (Qeq_bool c 0) eqn:E2.
  - apply Qeq_bool_eq in E2. specialize (Hzero E2).
    cbn [negb andb].
    change (Qle_bool ((-1 # 1) * 100) 0 && Qle_bool 0 100) with true.
    cbv iota.
    set (score_value := 0 + (song_score song + 0)).
    assert (Hv : score_value == song_score song).
    { subst score_value. ring. }
    assert (H1 : Qltb score_value 0 = false) by (apply Qltb_false; lra).
    assert (H2 : Qltb 100 score_value = false) by (apply Qltb_false; lra).
    rewrite H1, H2. cbn [song_score wf_song_set_score]. lra.
  - assert (H1 : Qle_bool 0 c = true) by (apply Qle_bool_iff; exact Hclo).
    assert (H2 : Qle_bool c 100 = true) by (apply Qle_bool_iff; exact Hchi).
    rewrite H1, H2. cbn [negb andb song_score wf_song_set_score]. reflexivity.
Qed.

(** The two means lie between 0 and 100, and are 0 only for an old score
    of 0. *)
Lemma mean_of_two_bounds (old_score played_fraction : Q) :
  0 <= old_score <= 100 -> 0 <= played_fraction <= 1 ->
  let new_score := (old_score + played_fraction * 100) / 2 in
  0 <= new_score <= 100 /\ (new_score == 0 -> old_score == 0).
Proof.
  intros Ho Hp new_score.
  assert (Hn : new_score == (old_score + played_fraction * 100) * (1#2)).
  { subst new_score. field. }
  split; [lra|]. intros Hz. lra.
Qed.

Lemma weighted_mean_bounds (old_score played_fraction : Q) (playcount : Z) :
  0 <= old_score <= 100 -> 0 <= played_fraction <= 1 -> (0 < playcount)%Z ->
  let new_score :=
    (old_score * inject_Z playcount + played_fraction * 100)
    / inject_Z (playcount + 1) in
  0 <= new_score <= 100 /\ (new_score == 0 -> old_score == 0).
Proof.
  intros Ho Hp Hpc new_score.
  assert (Hc : 1 <= inject_Z playcount).
  { change 1 with (inject_Z 1). rewrite <- Zle_Qle. lia. }
  assert (Hd : inject_Z (playcount + 1) == inject_Z playcount + 1).
  { rewrite inject_Z_plus. reflexivity. }
  assert (Hdpos : 0 < inject_Z (playcount + 1)) by lra.
  assert (Hmul : new_score * inject_Z (playcount + 1)
                 == old_score * inject_Z playcount + played_fraction * 100).
  { subst new_score. field. lra. }
  assert (Hprod_lo : 0 <= old_score * inject_Z playcount).
  { apply Qmult_le_0_compat; lra. }
  assert (Hprod_hi : old_score * inject_Z playcount <= 100 * inject_Z playcount).
  { apply Qmult_le_compat_r; lra. }
  assert (Hprod_ge : old_score <= old_score * inject_Z playcount).
  { setoid_replace old_score with (old_score * 1) at 1 by ring.
    rewrite (Qmult_comm old_score 1), (Qmult_comm old_score (inject_Z playcount)).
    apply Qmult_le_compat_r; lra. }
  split; [split|].
  - subst new_score. apply Qle_shift_div_l; [exact Hdpos|]. lra.
  - subst new_score. apply Qle_shift_div_r; [exact Hdpos|]. lra.
  - intros Hz. rewrite Hz in Hmul. lra.
Qed.

(** The checks of [wf_stats_modify_and_update_score] pass for a played
    fraction between 0 and 1 and a valid old score; what is left is the store
    of the clamped mean, computed with a fraction equal to the one given. *)
Lemma score_update_exact_steps (sett : WfPlayedSettings Q) (song : WfSong Q)
    (played_fraction : Q) :
  0 <= played_fraction <= 1 ->
  0 <= song_score song <= 100 ->
  exists played_fraction' : Q,
    played_fraction' == played_fraction
    /\ wf_stats_modify_and_update_score false sett song played_fraction
       = wf_stats_update_score song
           (CLAMP
              (if (song_playcount song <=? 0)%Z
               then (song_score song + played_fraction' * 100) / 2
               else (song_score song * inject_Z (song_playcount song)
                     + played_fraction' * 100)
                    / inject_Z (song_playcount song + 1))
              0 100)
           0.
Proof.
  intros Hpf Hold.
  unfold wf_stats_modify_and_update_score, wf_song_get_score, wf_song_get_play_count.
  exact_ops.
  assert (Hin : Qltb played_fraction 0 || Qltb 1 played_fraction = false).
  { apply orb_false_iff. split; apply Qltb_false; lra. }
  rewrite Hin.
  set (played_fraction' :=
         if Qle_bool 1 played_fraction
         then if Qle_bool (WF_SETTING_FULL_PLAYED_FRACTION sett) played_fraction
              then 1 else played_fraction
         else played_fraction).
  assert (Hpf' : played_fraction' == played_fraction).
  { subst played_fraction'.
    destruct (Qle_bool 1 played_fraction) eqn:E; [|reflexivity].
    destruct (Qle_bool (WF_SETTING_FULL_PLAYED_FRACTION sett) played_fraction);
      [|reflexivity].
    apply Qle_bool_iff in E. lra. }
  assert (Hvalid : Qltb (song_score song) 0 || Qltb 100 (song_score song) = false).
  { apply orb_false_iff. split; apply Qltb_false; lra. }
  rewrite Hvalid.
  exists played_fraction'. split; [exact Hpf'|reflexivity].
Qed.

(** C7.  With incognito off, a played fraction between 0 and 1, a valid old
    score and a valid play count, the score stored by
    [wf_stats_modify_and_update_score] is, clamped to the range from 0 to 100,
    (old score + played fraction * 100) / 2 when the play count is 0 and
    (old score * play count + played fraction * 100) / (play count + 1)
    otherwise (exact arithmetic; the value lies in the range already).  For a
    play count of 0, an old score of 50 and a played fraction of 1.0 the new
    score is 75, in exact and in binary64 arithmetic. *)
Theorem score_update_is_weighted_mean :
  (forall (sett : WfPlayedSettings Q) (song : WfSong Q) (played_fraction : Q),
      0 <= played_fraction <= 1 ->
      0 <= song_score song <= 100 ->
      (0 <= song_playcount song)%Z ->
      let mean :=
        if (song_playcount song =? 0)%Z
        then (song_score song + played_fraction * 100) / 2
        else (song_score song * inject_Z (song_playcount song) + played_fraction * 100)
             / inject_Z (song_playcount song + 1) in
      song_score (wf_stats_modify_and_update_score false sett song played_fraction)
      == CLAMP mean 0 100
      /\ 0 <= mean <= 100)
  /\ song_score (wf_stats_modify_and_update_score (D:=Q) false default_played_settings
                   (example_song 1 0 (inject_Z 50) 0 0 0) (inject_Z 1)) == 75
  /\ song_score (wf_stats_modify_and_update_score (D:=float) false default_played_settings
                   (example_song 1 0 (b64_of_Z 50) 0 0 0) (b64_of_Z 1)) = 75%float.
Proof.
  split; [|split; [reflexivity|vm_compute; reflexivity]].
  intros sett song played_fraction Hpf Hold Hpc mean.
  destruct (score_update_exact_steps sett song played_fraction Hpf Hold)
    as [played_fraction' [Hpf' Hsteps]].
  rewrite Hsteps. clear Hsteps.
  assert (Hpf'r : 0 <= played_fraction' <= 1) by (rewrite Hpf'; exact Hpf).
  subst mean.
  destruct (Z.eqb_spec (song_playcount song) 0) as [Hzero|Hnonzero].
  - rewrite Hzero. cbn [Z.leb Z.compare].
    destruct (mean_of_two_bounds (song_score song) played_fraction' Hold Hpf'r)
      as [Hb' Hz'].
    destruct (mean_of_two_bounds (song_score song) played_fraction Hold Hpf)
      as [Hb _].
    cbv zeta in Hb', Hz', Hb.
    rewrite (CLAMP_exact_inside _ Hb'), (CLAMP_exact_inside _ Hb).
    split; [|exact Hb].
    rewrite (wf_stats_update_score_exact song _ Hold Hb' Hz').
    rewrite Hpf'. reflexivity.
  - assert (Hpos : (0 < song_playcount song)%Z) by lia.
    destruct (Z.leb_spec (song_playcount song) 0) as [Hle|_]; [lia|].
    destruct (weighted_mean_bounds (song_score song) played_fraction'
                (song_playcount song) Hold Hpf'r Hpos) as [Hb' Hz'].
    destruct (weighted_mean_bounds (song_score song) played_fraction
                (song_playcount song) Hold Hpf Hpos) as [Hb _].
    cbv zeta in Hb', Hz', Hb.
    rewrite (CLAMP_exact_inside _ Hb'), (CLAMP_exact_inside _ Hb).
    split; [|exact Hb].
    rewrite (wf_stats_update_score_exact song _ Hold Hb' Hz').
    rewrite Hpf'. reflexivity.
Qed.

Lemma score_update_is_weighted_mean_witness :
  song_score (wf_stats_modify_and_update_score (D:=Q) false default_played_settings
                (example_song 1 0 (inject_Z 50) 3 0 0) (1 # 2))
  == CLAMP ((inject_Z 50 * inject_Z 3 + (1 # 2) * 100) / inject_Z (3 + 1)) 0 100.
Proof.
  refine (proj1 (proj1 score_update_is_weighted_mean default_played_settings
                   (example_song 1 0 (inject_Z 50) 3 0 0) (1 # 2) _ _ _)).
  - split; vm_compute; discriminate.
  - split; vm_compute; discriminate.
  - vm_compute; discriminate.
Defined.
End ScoreUpdate.

(** Below a played fraction of 1.0 the setting [FullPlayedFraction] is not
    read: the score update is the same for all its values. *)
Lemma score_update_below_one_ignores_setting :
  forall (D : Type) (GD : GDouble D) (incognito : bool)
         (sett sett' : WfPlayedSettings D) (song : WfSong D) (played_fraction : D),
    d_leb (d_of_Z 1) played_fraction = false ->
    wf_stats_modify_and_update_score incognito sett song played_fraction
    = wf_stats_modify_and_update_score incognito sett' song played_fraction.
Proof.
  intros D GD incognito sett sett' song played_fraction Hbelow.
  unfold wf_stats_modify_and_update_score. rewrite Hbelow. reflexivity.
Qed.

(** C3.  The score update below a played fraction of 1.0.  Whatever the
    full played fraction, a fraction below 1.0 is used as it is: the setting
    does not change the result, and for a song never played before the new
    score is (old score + played fraction * 100) / 2, less than the
    (old score + 100) / 2 of a full play (exact arithmetic).  With the setting
    at 0.9 and a new song of score 50, a played fraction of 0.95 gives 72.5,
    the mean of 50 and 95, where a played fraction of 1.0 gives 75, in exact
    and in binary64 arithmetic. *)
Theorem score_update_below_one_uses_fraction :
  (forall (D : Type) (GD : GDouble D) (incognito : bool)
          (sett sett' : WfPlayedSettings D) (song : WfSong D) (played_fraction : D),
      d_leb (d_of_Z 1) played_fraction = false ->
      wf_stats_modify_and_update_score incognito sett song played_fraction
      = wf_stats_modify_and_update_score incognito sett' song played_fraction)
  /\ (forall (sett : WfPlayedSettings Q) (song : WfSong Q) (played_fraction : Q),
        (0 <= played_fraction < 1)%Q ->
        (0 <= song_score song <= 100)%Q ->
        song_playcount song = 0 ->
        let song' := wf_stats_modify_and_update_score false sett song played_fraction in
        (song_score song' == (song_score song + played_fraction * 100) / 2)%Q
        /\ (song_score song' < (song_score song + 1 * 100) / 2)%Q)
  /\ (d_leb (D:=Q) (WF_SETTING_FULL_PLAYED_FRACTION played_settings_full_09)
         (fraction 95 100) = true
      /\ (song_score (wf_stats_modify_and_update_score (D:=Q) false played_settings_full_09
                       (example_song 1 0 (inject_Z 50) 0 0 0) (fraction 95 100))
          == 145 # 2)%Q
      /\ (song_score (wf_stats_modify_and_update_score (D:=Q) false played_settings_full_09
                       (example_song 1 0 (inject_Z 50) 0 0 0) (inject_Z 1))
          == 75)%Q)
  /\ (d_leb (D:=float) (WF_SETTING_FULL_PLAYED_FRACTION played_settings_full_09)
         (fraction 95 100) = true
      /\ song_score (wf_stats_modify_and_update_score (D:=float) false played_settings_full_09
                       (example_song 1 0 (b64_of_Z 50) 0 0 0) (fraction 95 100))
         = 72.5%float
      /\ song_score (wf_stats_modify_and_update_score (D:=float) false played_settings_full_09
                       (example_song 1 0 (b64_of_Z 50) 0 0 0) (b64_of_Z 1))
         = 75%float).
Proof.
  split; [exact score_update_below_one_ignores_setting|].
  split; [|split; vm_compute; repeat split].
  intros sett song played_fraction [Hlo Hhi] Hold Hpc song'.
  assert (Hpf : (0 <= played_fraction <= 1)%Q) by (split; [exact Hlo|lra]).
  destruct (score_update_exact_steps sett song played_fraction Hpf Hold)
    as [played_fraction' [Hpf' Hsteps]].
  subst song'. rewrite Hsteps. clear Hsteps.
  rewrite Hpc. cbn [Z.leb Z.compare].
  assert (Hpf'r : (0 <= played_fraction' <= 1)%Q) by (rewrite Hpf'; exact Hpf).
  destruct (mean_of_two_bounds (song_score song) played_fraction' Hold Hpf'r)
    as [Hb' Hz'].
  cbv zeta in Hb', Hz'.
  rewrite (CLAMP_exact_inside _ Hb').
  assert (Hscore :
    (song_score (wf_stats_update_score song
                   ((song_score song + played_fraction' * 100) / 2) 0)
     == (song_score song + played_fraction * 100) / 2)%Q).
  { rewrite (wf_stats_update_score_exact song _ Hold Hb' Hz').
    rewrite Hpf'. reflexivity. }
  split; [exact Hscore|].
  rewrite Hscore.
  apply Qlt_shift_div_r; [reflexivity|].
  setoid_replace ((song_score song + 1 * 100) / 2 * 2)%Q
    with (song_score song + 100)%Q by field.
  lra.
Qed.

Lemma score_update_below_one_uses_fraction_witness :
  wf_stats_modify_and_update_score (D:=Q) false played_settings_full_09
    (example_song 1 0 (inject_Z 50) 0 0 0) (fraction 95 100)
  = wf_stats_modify_and_update_score (D:=Q) false default_played_settings
      (example_song 1 0 (inject_Z 50) 0 0 0) (fraction 95 100).
Proof.
  refine (proj1 score_update_below_one_uses_fraction Q exact_rational false
    played_settings_full_09 default_played_settings
    (example_song 1 0 (inject_Z 50) 0 0 0) (fraction 95 100) _).
  reflexivity.
Defined.

(** ** Play count, skip count and last played *)

(** C4, as the code has it.  With incognito off and a valid skip count,
    [wf_stats_modify_and_update_skipcount] adds one to the skip count exactly
    when the played fraction does not exceed the full played fraction, and
    changes nothing otherwise; the minimum played fraction is not read.  In
    exact arithmetic: the skip count grows by one if and only if the played
    fraction is at most the full played fraction; so a played fraction below
    the minimum played fraction adds one to the skip count when it is at
    most the full played fraction, and changes nothing when it is above it,
    which takes a minimum set above the full played fraction: with the
    minimum at 0.9 and the full played fraction at 0.8, a played fraction of
    0.85 leaves the skip count at 0 (exact and binary64 arithmetic). *)
Theorem skipcount_update_gate :
  (forall (D : Type) (GD : GDouble D) (sett : WfPlayedSettings D)
          (song : WfSong D) (played_fraction : D),
      0 <= song_skipcount song ->
      let song' :=
        wf_stats_modify_and_update_skipcount false sett song played_fraction false in
      (d_ltb (WF_SETTING_FULL_PLAYED_FRACTION sett) played_fraction = false ->
         song_skipcount song' = song_skipcount song + 1)
      /\ (d_ltb (WF_SETTING_FULL_PLAYED_FRACTION sett) played_fraction = true ->
            song' = song)
      /\ (forall min_played_fraction : D,
            wf_stats_modify_and_update_skipcount false
              (mkPlayedSettings min_played_fraction (WF_SETTING_FULL_PLAYED_FRACTION sett))
              song played_fraction false
            = song'))
  /\ (forall (sett : WfPlayedSettings Q) (song : WfSong Q) (played_fraction : Q),
        0 <= song_skipcount song ->
        (song_skipcount
           (wf_stats_modify_and_update_skipcount false sett song played_fraction false)
         = song_skipcount song + 1
         <-> (played_fraction <= WF_SETTING_FULL_PLAYED_FRACTION sett)%Q))
  /\ (forall (sett : WfPlayedSettings Q) (song : WfSong Q) (played_fraction : Q),
        0 <= song_skipcount song ->
        (played_fraction < WF_SETTING_MIN_PLAYED_FRACTION sett)%Q ->
        let song' :=
          wf_stats_modify_and_update_skipcount false sett song played_fraction false in
        ((played_fraction <= WF_SETTING_FULL_PLAYED_FRACTION sett)%Q ->
           song_skipcount song' = song_skipcount song + 1)
        /\ ((WF_SETTING_FULL_PLAYED_FRACTION sett < played_fraction)%Q ->
              song' = song))
  /\ (let sett := mkPlayedSettings (D:=Q) (fraction 9 10) (fraction 8 10) in
      d_ltb (fraction 85 100) (WF_SETTING_MIN_PLAYED_FRACTION sett) = true
      /\ d_ltb (WF_SETTING_FULL_PLAYED_FRACTION sett) (fraction 85 100) = true
      /\ song_skipcount
           (wf_stats_modify_and_update_skipcount false sett
              (example_song 1 0 (inject_Z 50) 0 0 0) (fraction 85 100) false) = 0)
  /\ (let sett := mkPlayedSettings (D:=float) (fraction 9 10) (fraction 8 10) in
      d_ltb (fraction 85 100) (WF_SETTING_MIN_PLAYED_FRACTION sett) = true
      /\ d_ltb (WF_SETTING_FULL_PLAYED_FRACTION sett) (fraction 85 100) = true
      /\ song_skipcount
           (wf_stats_modify_and_update_skipcount false sett
              (example_song 1 0 (b64_of_Z 50) 0 0 0) (fraction 85 100) false) = 0).
Proof.
  assert (Hgen : forall (D : Type) (GD : GDouble D) (sett : WfPlayedSettings D)
          (song : WfSong D) (played_fraction : D),
      0 <= song_skipcount song ->
      (d_ltb (WF_SETTING_FULL_PLAYED_FRACTION sett) played_fraction = false ->
         song_skipcount
           (wf_stats_modify_and_update_skipcount false sett song played_fraction false)
         = song_skipcount song + 1)
      /\ (d_ltb (WF_SETTING_FULL_PLAYED_FRACTION sett) played_fraction = true ->
            wf_stats_modify_and_update_skipcount false sett song played_fraction false
            = song)).
  { intros D GD sett song played_fraction Hvalid.
    unfold wf_stats_modify_and_update_skipcount. split; intros Hgate; rewrite Hgate.
    - unfold wf_stats_update_skipcount, wf_song_get_skip_count, STAT_SKIPCOUNT_MIN.
      cbn [Z.eqb].
      destruct (Z.ltb_spec (0 + (song_skipcount song + 1)) 0) as [Hneg|_]; [lia|].
      cbn [song_skipcount wf_song_set_skip_count]. lia.
    - reflexivity. }
  split; [|split; [|split; [|split]]].
  - intros D GD sett song played_fraction Hvalid song'.
    destruct (Hgen D GD sett song played_fraction Hvalid) as [Hadd Hkeep].
    split; [exact Hadd|]. split; [exact Hkeep|].
    intros min_played_fraction. reflexivity.
  - intros sett song played_fraction Hvalid.
    destruct (Hgen Q exact_rational sett song played_fraction Hvalid) as [Hadd Hkeep].
    cbn [d_ltb exact_rational] in Hadd, Hkeep.
    destruct (Qltb (WF_SETTING_FULL_PLAYED_FRACTION sett) played_fraction) eqn:Hgate.
    + rewrite (Hkeep eq_refl). apply Qltb_true in Hgate. split.
      * intros Heq. lia.
      * intros Hle. exfalso. exact (Qlt_not_le _ _ Hgate Hle).
    + apply Qltb_false in Hgate. split; [intros _; exact Hgate|].
      intros _. apply Hadd. reflexivity.
  - intros sett song played_fraction Hvalid _ song'.
    destruct (Hgen Q exact_rational sett song played_fraction Hvalid) as [Hadd Hkeep].
    cbn [d_ltb exact_rational] in Hadd, Hkeep.
    split.
    + intros Hle. apply Hadd. apply Qltb_false. exact Hle.
    + intros Hlt. apply Hkeep. apply Qltb_true. exact Hlt.
  - vm_compute. repeat split.
  - vm_compute. repeat split.
Qed.

Lemma skipcount_update_gate_witness :
  song_skipcount
    (wf_stats_modify_and_update_skipcount (D:=Q) false default_played_settings
       (example_song 1 0 (inject_Z 50) 0 0 0) (fraction 1 2) false)
  = 0 + 1.
Proof.
  refine (proj1 (proj1 skipcount_update_gate Q exact_rational default_played_settings
                   (example_song 1 0 (inject_Z 50) 0 0 0) (fraction 1 2) _) _).
  - vm_compute; discriminate.
  - reflexivity.
Defined.

(** C4, as the specification has it, fails: a played fraction of 0.1 is
    below the minimum played fraction of 0.2, and the skip count of the song
    goes from 0 to 1 all the same, in exact and in binary64 arithmetic. *)
Lemma skipcount_counted_below_minimum :
  (d_ltb (D:=Q) (fraction 1 10)
     (WF_SETTING_MIN_PLAYED_FRACTION default_played_settings) = true
   /\ song_skipcount (example_song (D:=Q) 1 0 (inject_Z 50) 0 0 0) = 0
   /\ song_skipcount
        (wf_stats_modify_and_update_skipcount (D:=Q) false default_played_settings
           (example_song 1 0 (inject_Z 50) 0 0 0) (fraction 1 10) false) = 1)
  /\ (d_ltb (D:=float) (fraction 1 10)
        (WF_SETTING_MIN_PLAYED_FRACTION default_played_settings) = true
      /\ song_skipcount
           (wf_stats_modify_and_update_skipcount (D:=float) false default_played_settings
              (example_song 1 0 (b64_of_Z 50) 0 0 0) (fraction 1 10) false) = 1).
Proof.
  split; vm_compute; repeat split.
Qed.

(** ** Incognito *)

(** C8.  With incognito on, recording a played song leaves its rating,
    score, play count, skip count and last played as they are, whatever the
    played fraction; and each of the four [wf_stats_modify_and_update_*]
    functions returns the song unchanged. *)
Theorem incognito_keeps_statistics :
  forall (D : Type) (GD : GDouble D) (sett : WfPlayedSettings D) (now : Z)
         (m : WfSongManagerDetails) (song : WfSong D) (played_fraction : D)
         (skip_score_update decrease : bool) (time : Z),
    incognito m = true ->
    let song' :=
      snd (wf_song_manager_add_played_song sett now m song played_fraction
             skip_score_update) in
    (song_rating song' = song_rating song
     /\ song_score song' = song_score song
     /\ song_playcount song' = song_playcount song
     /\ song_skipcount song' = song_skipcount song
     /\ song_lastplayed song' = song_lastplayed song)
    /\ wf_stats_modify_and_update_score (wf_song_manager_get_incognito m)
         sett song played_fraction = song
    /\ wf_stats_modify_and_update_playcount (wf_song_manager_get_incognito m)
         sett song played_fraction decrease = song
    /\ wf_stats_modify_and_update_skipcount (wf_song_manager_get_incognito m)
         sett song played_fraction decrease = song
    /\ wf_stats_modify_and_update_lastplayed (wf_song_manager_get_incognito m)
         sett now song played_fraction time = song.
Proof.
  intros D GD sett now m song played_fraction skip_score_update decrease time
    Hincognito song'.
  assert (Hsong : song' = song).
  { subst song'. unfold wf_song_manager_add_played_song.
    destruct (negb (d_leb (d_of_Z 0) played_fraction
                    && d_leb played_fraction (d_of_Z 1))); [reflexivity|].
    cbn [incognito wf_song_manager_add_prev_song snd]. rewrite Hincognito.
    reflexivity. }
  rewrite Hsong. split; [repeat split|].
  unfold wf_song_manager_get_incognito. rewrite Hincognito.
  repeat split.
Qed.

Lemma incognito_keeps_statistics_witness :
  wf_stats_modify_and_update_score (D:=Q) true default_played_settings
    (example_song 1 0 (inject_Z 50) 0 0 0) (inject_Z 1)
  = example_song 1 0 (inject_Z 50) 0 0 0.
Proof.
  refine (proj1 (proj2 (incognito_keeps_statistics Q exact_rational default_played_settings 0
    (mkSongManager None [] [] [] [] true)
    (example_song 1 0 (inject_Z 50) 0 0 0) (inject_Z 1) false false 0 _))).
  reflexivity.
Defined.

(** ** The last played modifier *)

(** The two helpers cap the time themselves. *)
Lemma entries_time_since_capped (time_since : Z) :
  one_year < time_since ->
  wf_intelligence_get_entries_time_since time_since
  = wf_intelligence_get_entries_time_since one_year
  /\ wf_intelligence_get_entries_time_since_inverted time_since
     = wf_intelligence_get_entries_time_since_inverted one_year.
Proof.
  intros Hlate.
  unfold wf_intelligence_get_entries_time_since,
    wf_intelligence_get_entries_time_since_inverted.
  destruct (Z.ltb_spec one_year time_since) as [_|Hle]; [|lia].
  rewrite Z.ltb_irrefl. split; reflexivity.
Qed.

(** Past one year the loop does not call them: the song gets 100 times the
    factor, inverted or not. *)
Lemma song_entries_past_one_year :
  forall (D : Type) (GD : GDouble D) (invert : bool) (current_time : Z) (song : WfSong D),
    0 <= song_lastplayed song ->
    one_year < wf_utils_time_compare (song_lastplayed song) current_time ->
    song_entries (container_lastplayed_only invert) current_time song = 100 * 1000.
Proof.
  intros D GD invert current_time song Hvalid Hlate.
  unfold song_entries, container_lastplayed_only.
  cbn [rating_factor score_factor playcount_factor skipcount_factor
       lastplayed_factor favor_low_lastplayed Z.eqb negb].
  unfold wf_stats_lastplayed_is_valid, STAT_LASTPLAYED_MIN, wf_song_get_last_played.
  destruct (Z.leb_spec 0 (song_lastplayed song)) as [_|Hneg]; [|lia].
  destruct (Z.ltb_spec one_year
              (wf_utils_time_compare (song_lastplayed song) current_time))
    as [_|Hle]; [|lia].
  reflexivity.
Qed.

(** C5.  The last played modifier at one year and past it (factor 1000).
    Past one year the song gets 100 times the factor, with the plain and with
    the inverted curve alike, although the helpers would return for such a
    time what they return for one year.  With the clock at 2000000000, a song
    played exactly one year ago gets 99000 entries with the plain curve and
    1000 with the inverted curve; a song played one second earlier gets
    100000 entries with either curve.  The helpers, called with one year and
    one second, return 99 and 1. *)
Theorem lastplayed_entries_at_and_past_one_year :
  (forall (D : Type) (GD : GDouble D) (invert : bool) (current_time : Z)
          (song : WfSong D),
      0 <= song_lastplayed song ->
      one_year < wf_utils_time_compare (song_lastplayed song) current_time ->
      song_entries (container_lastplayed_only invert) current_time song = 100 * 1000)
  /\ (forall time_since : Z,
        one_year < time_since ->
        wf_intelligence_get_entries_time_since time_since
        = wf_intelligence_get_entries_time_since one_year
        /\ wf_intelligence_get_entries_time_since_inverted time_since
           = wf_intelligence_get_entries_time_since_inverted one_year)
  /\ (let now := 2000000000 in
      let played_one_year_ago :=
        example_song (D:=float) 1 0 (b64_of_Z 50) 0 0 (now - one_year) in
      let played_before :=
        example_song (D:=float) 2 0 (b64_of_Z 50) 0 0 (now - one_year - 1) in
      (song_entries (container_lastplayed_only false) now played_one_year_ago = 99000
       /\ song_entries (container_lastplayed_only false) now played_before = 100000)
      /\ (song_entries (container_lastplayed_only true) now played_one_year_ago = 1000
          /\ song_entries (container_lastplayed_only true) now played_before = 100000)
      /\ (wf_intelligence_get_entries_time_since one_year = 99
          /\ wf_intelligence_get_entries_time_since (one_year + 1) = 99
          /\ wf_intelligence_get_entries_time_since_inverted one_year = 1
          /\ wf_intelligence_get_entries_time_since_inverted (one_year + 1) = 1)).
Proof.
  split; [exact song_entries_past_one_year|].
  split; [exact entries_time_since_capped|].
  vm_compute. repeat split.
Qed.

Lemma lastplayed_entries_at_and_past_one_year_witness :
  song_entries (container_lastplayed_only true) 2000000000
    (example_song (D:=float) 2 0 (b64_of_Z 50) 0 0 (2000000000 - one_year - 1))
  = 100 * 1000.
Proof.
  refine (proj1 lastplayed_entries_at_and_past_one_year float binary64 true 2000000000
    (example_song 2 0 (b64_of_Z 50) 0 0 (2000000000 - one_year - 1)) _ _).
  - vm_compute; discriminate.
  - vm_compute; reflexivity.
Defined.

(** ** The history lists *)

Section Trim.
Context {A : Type}.

(** From a limit of 2 on, the trim keeps the first [limit] items and frees
    the rest. *)
Lemma trim_list_length_from_two (l : list A) (limit : Z) :
  2 <= limit ->
  wf_song_manager_trim_list_length l limit
  = (firstn (Z.to_nat limit) l, skipn (Z.to_nat limit) l).
Proof.
  intros Hlimit. unfold wf_song_manager_trim_list_length, g_list_nth.
  destruct l as [|x l']; [rewrite firstn_nil, skipn_nil; reflexivity|].
  destruct (Z.eqb_spec limit 0) as [Hz|_]; [lia|].
  destruct (nth_error (x :: l') (Z.to_nat (limit - 1))) eqn:Hnth.
  - destruct (Z.eqb_spec (limit - 1) 0) as [Hz|_]; [lia|]. reflexivity.
  - apply nth_error_None in Hnth.
    rewrite firstn_all2 by lia. rewrite skipn_all2 by lia. reflexivity.
Qed.

End Trim.

(** The two trims of [wf_song_manager_sync] keep the 100 newest songs of the
    history and the 50 newest artists. *)
Lemma wf_song_manager_sync_trim_keeps_newest (m : WfSongManagerDetails) :
  list_previous (wf_song_manager_sync_trim m)
  = firstn 100 (list_previous m)
  /\ artists (wf_song_manager_sync_trim m) = firstn 50 (artists m)
  /\ (length (list_previous (wf_song_manager_sync_trim m)) <= 100)%nat.
Proof.
  unfold wf_song_manager_sync_trim.
  cbn [list_previous artists].
  rewrite !trim_list_length_from_two
    by (unfold PLAYED_ITEMS_LIMIT, PLAYED_ARTISTS_LIMIT; lia).
  cbn [fst]. repeat split.
  change (Z.to_nat PLAYED_ITEMS_LIMIT) with 100%nat.
  rewrite length_firstn. lia.
Qed.




(** C10.  A played song without artist empties the list of recent artists:
    [wf_song_manager_add_recent_artist] returns the empty list for the hash 0,
    and after [wf_song_manager_add_played_song] on a song whose artist hash
    is 0, with a played fraction between 0 and 1, the list [artists] is
    empty, whatever it held before. *)
Theorem no_artist_empties_recent_artists :
  forall (D : Type) (GD : GDouble D) (sett : WfPlayedSettings D) (now : Z)
         (m : WfSongManagerDetails) (song : WfSong D) (played_fraction : D)
         (skip_score_update : bool),
    wf_song_get_artist_hash song = 0 ->
    d_leb (d_of_Z 0) played_fraction && d_leb played_fraction (d_of_Z 1) = true ->
    wf_song_manager_add_recent_artist (artists m) 0 = []
    /\ artists (fst (wf_song_manager_add_played_song sett now m song played_fraction
                       skip_score_update)) = [].
Proof.
  intros D GD sett now m song played_fraction skip_score_update Hhash Hrange.
  split; [reflexivity|].
  unfold wf_song_manager_add_played_song. rewrite Hrange, Hhash.
  reflexivity.
Qed.

Lemma no_artist_empties_recent_artists_witness :
  artists (fst (wf_song_manager_add_played_song (D:=Q) default_played_settings 0
                  (mkSongManager (Some 1%positive) [2%positive] [] [] [77; 78] false)
                  (example_song 1 0 (inject_Z 50) 0 0 0) (inject_Z 1) false)) = [].
Proof.
  refine (proj2 (no_artist_empties_recent_artists Q exact_rational default_played_settings 0
    (mkSongManager (Some 1%positive) [2%positive] [] [] [77; 78] false)
    (example_song 1 0 (inject_Z 50) 0 0 0) (inject_Z 1) false _ _)).
  - reflexivity.
  - reflexivity.
Defined.

(** * Further properties of the code *)

Ltac z_cases :=
  repeat match goal with
    | |- context [Z.eqb ?a ?b] => destruct (Z.eqb_spec a b)
    | |- context [Z.leb ?a ?b] => destruct (Z.leb_spec a b)
    | |- context [Z.ltb ?a ?b] => destruct (Z.ltb_spec a b)
    end.

(** ** statistics.c: the ranges of the statistics *)

(** X1.  [wf_stats_update_rating] keeps a valid rating valid, whatever its
    arguments, and changes nothing but the rating; only the reset (-1) takes
    a rating away: an increase that would give 0 or less is refused and the
    rating stays as it was. *)
Theorem update_rating_keeps_valid :
  forall (D : Type) (song : WfSong D) (rating increase : Z),
    0 <= song_rating song <= 100 ->
    let song' := wf_stats_update_rating song rating increase in
    0 <= song_rating song' <= 100
    /\ song' = wf_song_set_rating song (song_rating song')
    /\ (rating <> -1 -> 0 < song_rating song -> 0 < song_rating song').
Proof.
  intros D [ptr uri ah aah st r sc pc sk lp] rating increase Hvalid song'.
  subst song'. cbn [song_rating] in Hvalid.
  unfold wf_stats_update_rating, wf_song_get_rating, wf_song_set_rating,
    STAT_RATING_MIN, STAT_RATING_MAX.
  cbn [song_rating song_ptr song_uri_set song_artist_hash song_album_artist_hash
       song_status song_score song_playcount song_skipcount song_lastplayed].
  z_cases; cbn [negb andb song_rating song_ptr song_uri_set song_artist_hash
                song_album_artist_hash song_status song_score song_playcount
                song_skipcount song_lastplayed];
    repeat split; try reflexivity; try lia.
Qed.

Lemma update_rating_keeps_valid_witness :
  0 < song_rating (wf_stats_update_rating (example_song (D:=Q) 1 40 (inject_Z 50) 0 0 0) 0 (-60)).
Proof.
  refine (proj2 (proj2 (update_rating_keeps_valid Q
    (example_song 1 40 (inject_Z 50) 0 0 0) 0 (-60) _)) _ _).
  - cbn. lia.
  - lia.
  - cbn. lia.
Defined.

Ltac song_fields :=
  cbn [song_rating song_ptr song_uri_set song_artist_hash song_album_artist_hash
       song_status song_score song_playcount song_skipcount song_lastplayed] in *.

(** X2.  [wf_stats_update_playcount] and [wf_stats_update_skipcount] keep a
    valid count valid when they are given an increase, a reset (-1) or a
    value that is not negative, and an increase below 0 is refused; with an
    increase of 0 the value given is stored unchecked, so a value below -1
    leaves a negative count. *)
Theorem update_counts_keep_valid :
  forall (D : Type) (song : WfSong D) (count increase : Z),
    0 <= song_playcount song ->
    0 <= song_skipcount song ->
    ((increase <> 0 \/ -1 <= count) ->
       0 <= song_playcount (wf_stats_update_playcount song count increase)
       /\ 0 <= song_skipcount (wf_stats_update_skipcount song count increase))
    /\ (count < -1 ->
          song_playcount (wf_stats_update_playcount song count 0) = count
          /\ song_skipcount (wf_stats_update_skipcount song count 0) = count)
    /\ (count <> -1 -> increase <> 0 ->
          song_playcount (wf_stats_update_playcount song count increase)
          = (if song_playcount song + increase <? 0 then song_playcount song
             else song_playcount song + increase)
          /\ song_skipcount (wf_stats_update_skipcount song count increase)
             = (if song_skipcount song + increase <? 0 then song_skipcount song
                else song_skipcount song + increase)).
Proof.
  intros D [ptr uri ah aah st r sc pc sk lp] count increase Hpc Hsk.
  song_fields.
  unfold wf_stats_update_playcount, wf_stats_update_skipcount,
    wf_song_get_play_count, wf_song_get_skip_count, wf_song_set_play_count,
    wf_song_set_skip_count, STAT_PLAYCOUNT_MIN, STAT_SKIPCOUNT_MIN.
  song_fields.
  split; [|split].
  - intros Hargs. z_cases; song_fields; split; lia.
  - intros Hlow. z_cases; song_fields; split; lia.
  - intros Hnoreset Hinc. z_cases; song_fields; split; lia.
Qed.

Lemma update_counts_keep_valid_witness :
  song_playcount (wf_stats_update_playcount
                    (example_song (D:=Q) 1 0 (inject_Z 50) 3 4 0) (-7) 0) = -7
  /\ song_skipcount (wf_stats_update_skipcount
                       (example_song (D:=Q) 1 0 (inject_Z 50) 3 4 0) (-7) 0) = -7.
Proof.
  refine (proj1 (proj2 (update_counts_keep_valid Q
    (example_song 1 0 (inject_Z 50) 3 4 0) (-7) 0 _ _)) _).
  - cbn. lia.
  - cbn. lia.
  - lia.
Defined.

(** X3.  [wf_stats_update_lastplayed] keeps a valid time stamp valid.  A
    time stamp of 0 or more is stored as it is (0 included: the increase is
    not used for it), -1 resets to 0, and only a time stamp below -1 makes
    the function add the increase, the result being refused unless it is
    positive. *)
Theorem update_lastplayed_keeps_valid :
  forall (D : Type) (song : WfSong D) (lastplayed increase : Z),
    0 <= song_lastplayed song ->
    let song' := wf_stats_update_lastplayed song lastplayed increase in
    0 <= song_lastplayed song'
    /\ (0 <= lastplayed -> song_lastplayed song' = lastplayed)
    /\ (lastplayed = -1 -> song_lastplayed song' = 0)
    /\ (lastplayed < -1 ->
          song_lastplayed song'
          = (if song_lastplayed song + increase <=? 0 then song_lastplayed song
             else song_lastplayed song + increase)).
Proof.
  intros D [ptr uri ah aah st r sc pc sk lp] lastplayed increase Hlp song'.
  subst song'. song_fields.
  unfold wf_stats_update_lastplayed, wf_song_get_last_played,
    wf_song_set_last_played, STAT_LASTPLAYED_MIN.
  song_fields.
  z_cases; song_fields; repeat split; intros; try lia.
Qed.

Lemma update_lastplayed_keeps_valid_witness :
  song_lastplayed (wf_stats_update_lastplayed
                     (example_song (D:=Q) 1 0 (inject_Z 50) 0 0 1700000000) 0 3600)
  = 0.
Proof.
  refine (proj1 (proj2 (update_lastplayed_keeps_valid Q
    (example_song 1 0 (inject_Z 50) 0 0 1700000000) 0 3600 _)) _).
  - cbn. lia.
  - lia.
Defined.

Lemma Qle_bool_false_iff (x y : Q) : Qle_bool x y = false <-> (y < x)%Q.
Proof.
  split.
  - intros Hb. apply Qnot_le_lt. intros Hle.
    apply Qle_bool_iff in Hle. congruence.
  - intros Hlt. destruct (Qle_bool x y) eqn:E; [|reflexivity].
    apply Qle_bool_iff in E. lra.
Qed.

(** The comparisons of exact arithmetic of the goal, each turned into the
    two cases of its order. *)
Ltac q_cases :=
  repeat match goal with
    | |- context [Qeq_bool ?a ?b] =>
        let E := fresh "E" in
        destruct (Qeq_bool a b) eqn:E;
        [apply Qeq_bool_eq in E | apply Qeq_bool_neq in E]
    | |- context [Qle_bool ?a ?b] =>
        let E := fresh "E" in
        destruct (Qle_bool a b) eqn:E;
        [apply Qle_bool_iff in E | apply Qle_bool_false_iff in E]
    | |- context [Qltb ?a ?b] =>
        let E := fresh "E" in
        destruct (Qltb a b) eqn:E;
        [apply Qltb_true in E | apply Qltb_false in E]
    end.

(** X4.  In exact arithmetic [wf_stats_update_score] keeps a valid score
    valid, whatever its arguments, and changes nothing but the score. *)
Theorem update_score_keeps_valid :
  forall (song : WfSong Q) (score increase : Q),
    (0 <= song_score song <= 100)%Q ->
    let song' := wf_stats_update_score song score increase in
    (0 <= song_score song' <= 100)%Q
    /\ song' = wf_song_set_score song (song_score song').
Proof.
  intros [ptr uri ah aah st r sc pc sk lp] score increase Hvalid song'.
  subst song'. song_fields.
  unfold wf_stats_update_score, wf_song_get_score, wf_song_set_score.
  exact_ops. song_fields.
  q_cases; cbn [negb andb]; song_fields; split; try reflexivity; lra.
Qed.

Lemma update_score_keeps_valid_witness :
  (0 <= song_score (wf_stats_update_score
                      (example_song (D:=Q) 1 0 (inject_Z 50) 0 0 0) 0 (inject_Z 70))
   <= 100)%Q.
Proof.
  refine (proj1 (update_score_keeps_valid
    (example_song 1 0 (inject_Z 50) 0 0 0) 0%Q (inject_Z 70) _)).
  split; vm_compute; discriminate.
Defined.

(** X5.  [wf_stats_rating_invert] maps a valid rating to a valid rating,
    leaves the unset rating 0 unset, turns a rating r from 1 to 100 into
    100 - r, and is its own inverse on the ratings from 1 to 99; the rating
    100 is turned into 0, the unset rating, and stays there when inverted
    again.  A rating out of range gives 0. *)
Theorem rating_invert_range_and_involution :
  forall rating : Z,
    (0 <= rating <= 100 ->
       0 <= wf_stats_rating_invert rating <= 100
       /\ (0 < rating -> wf_stats_rating_invert rating = 100 - rating)
       /\ (0 < rating < 100 ->
             wf_stats_rating_invert (wf_stats_rating_invert rating) = rating))
    /\ (rating < 0 \/ 100 < rating -> wf_stats_rating_invert rating = 0)
    /\ wf_stats_rating_invert 0 = 0
    /\ wf_stats_rating_invert 100 = 0
    /\ wf_stats_rating_invert (wf_stats_rating_invert 100) = 0.
Proof.
  intros rating.
  assert (Hin : forall r, 0 < r <= 100 -> wf_stats_rating_invert r = 100 - r).
  { intros r Hr.
    unfold wf_stats_rating_invert, wf_stats_rating_is_valid, STAT_RATING_MIN,
      STAT_RATING_MAX.
    z_cases; cbn [negb andb]; lia. }
  split; [|split; [|repeat split]].
  - intros Hvalid.
    destruct (Z.eq_dec rating 0) as [Hzero|Hnonzero].
    + subst rating. split; [cbn; lia|]. split; intros; lia.
    + rewrite (Hin rating) by lia. split; [lia|]. split; [reflexivity|].
      intros Hmid. rewrite Hin by lia. lia.
  - intros Hout.
    unfold wf_stats_rating_invert, wf_stats_rating_is_valid, STAT_RATING_MIN,
      STAT_RATING_MAX.
    z_cases; cbn [negb andb]; lia.
Qed.

Lemma rating_invert_range_and_involution_witness :
  wf_stats_rating_invert (wf_stats_rating_invert 30) = 30.
Proof.
  refine (proj2 (proj2 (proj1 (rating_invert_range_and_involution 30) _)) _); lia.
Defined.

(** ** statistics.c and song_manager.c: what a played song changes *)

(** X6.  With incognito off and a valid play count,
    [wf_stats_modify_and_update_playcount] does nothing when the played
    fraction is below the minimum played fraction; otherwise it adds one to
    the play count, or, asked to decrease, takes one away but never goes
    below 0. *)
Theorem playcount_update_gate :
  forall (D : Type) (GD : GDouble D) (sett : WfPlayedSettings D)
         (song : WfSong D) (played_fraction : D),
    0 <= song_playcount song ->
    (d_ltb played_fraction (WF_SETTING_MIN_PLAYED_FRACTION sett) = true ->
       forall decrease : bool,
         wf_stats_modify_and_update_playcount false sett song played_fraction decrease
         = song)
    /\ (d_ltb played_fraction (WF_SETTING_MIN_PLAYED_FRACTION sett) = false ->
          wf_stats_modify_and_update_playcount false sett song played_fraction false
          = wf_song_set_play_count song (song_playcount song + 1)
          /\ song_playcount
               (wf_stats_modify_and_update_playcount false sett song played_fraction true)
             = Z.max 0 (song_playcount song - 1)).
Proof.
  intros D GD sett [ptr uri ah aah st r sc pc sk lp] played_fraction Hvalid.
  song_fields.
  unfold wf_stats_modify_and_update_playcount.
  split; intros Hgate; rewrite Hgate; [reflexivity|].
  unfold wf_stats_update_playcount, wf_song_get_play_count, wf_song_set_play_count,
    STAT_PLAYCOUNT_MIN.
  song_fields. cbn [Z.eqb].
  split.
  - destruct (Z.ltb_spec (0 + (pc + 1)) 0) as [Hneg|_]; [lia|].
    rewrite Z.add_0_l. reflexivity.
  - destruct (Z.ltb_spec (0 + (pc + -1)) 0) as [Hneg|Hok]; song_fields; lia.
Qed.

Lemma playcount_update_gate_witness :
  wf_stats_modify_and_update_playcount (D:=Q) false default_played_settings
    (example_song 1 0 (inject_Z 50) 7 0 0) (fraction 1 2) false
  = wf_song_set_play_count (example_song 1 0 (inject_Z 50) 7 0 0) (7 + 1).
Proof.
  refine (proj1 (proj2 (playcount_update_gate Q exact_rational default_played_settings
    (example_song 1 0 (inject_Z 50) 7 0 0) (fraction 1 2) _) _)).
  - cbn. lia.
  - reflexivity.
Defined.

(** X7.  With incognito off and a valid last played,
    [wf_stats_modify_and_update_lastplayed] does nothing when the played
    fraction is below the minimum played fraction; otherwise it stores the
    time of the clock when the time given is 0, and the time given when that
    is positive; a time of -1 resets the last played to 0, and a time below
    -1 changes nothing. *)
Theorem lastplayed_update_gate :
  forall (D : Type) (GD : GDouble D) (sett : WfPlayedSettings D) (now : Z)
         (song : WfSong D) (played_fraction : D) (time : Z),
    0 <= song_lastplayed song ->
    0 <= now ->
    let song' :=
      wf_stats_modify_and_update_lastplayed false sett now song played_fraction time in
    (d_ltb played_fraction (WF_SETTING_MIN_PLAYED_FRACTION sett) = true ->
       song' = song)
    /\ (d_ltb played_fraction (WF_SETTING_MIN_PLAYED_FRACTION sett) = false ->
          song'
          = wf_song_set_last_played song
              (if time =? 0 then now
               else if 0 <? time then time
               else if time =? -1 then 0
               else song_lastplayed song)).
Proof.
  intros D GD sett now [ptr uri ah aah st r sc pc sk lp] played_fraction time
    Hvalid Hnow song'.
  subst song'. song_fields.
  unfold wf_stats_modify_and_update_lastplayed.
  split; intros Hgate; rewrite Hgate; [reflexivity|].
  unfold wf_stats_update_lastplayed, wf_song_get_last_played,
    wf_song_set_last_played, STAT_LASTPLAYED_MIN.
  song_fields.
  z_cases; song_fields; try reflexivity; try lia; f_equal; lia.
Qed.

Lemma lastplayed_update_gate_witness :
  wf_stats_modify_and_update_lastplayed (D:=Q) false default_played_settings 1700000000
    (example_song 1 0 (inject_Z 50) 0 0 5) (fraction 1 2) 0
  = wf_song_set_last_played (example_song 1 0 (inject_Z 50) 0 0 5) 1700000000.
Proof.
  refine (proj2 (lastplayed_update_gate Q exact_rational default_played_settings
    1700000000 (example_song 1 0 (inject_Z 50) 0 0 5) (fraction 1 2) 0 _ _) _).
  - cbn. lia.
  - lia.
  - reflexivity.
Defined.

Lemma update_score_sets_score :
  forall (D : Type) (GD : GDouble D) (song : WfSong D) (score increase : D),
    wf_stats_update_score song score increase
    = wf_song_set_score song (song_score (wf_stats_update_score song score increase)).
Proof.
  intros D GD [ptr uri ah aah st r sc pc sk lp] score increase.
  unfold wf_stats_update_score, wf_song_get_score, wf_song_set_score.
  song_fields.
  repeat match goal with
    | |- context [if ?b then _ else _] => destruct b
    end; reflexivity.
Qed.

(** The score that [wf_stats_modify_and_update_score] stores, in exact
    arithmetic, with the song it returns. *)
Lemma score_update_exact_value (sett : WfPlayedSettings Q) (song : WfSong Q)
    (played_fraction : Q) :
  (0 <= played_fraction <= 1)%Q ->
  (0 <= song_score song <= 100)%Q ->
  0 <= song_playcount song ->
  exists score' : Q,
    wf_stats_modify_and_update_score false sett song played_fraction
    = wf_song_set_score song score'
    /\ (score' ==
        if song_playcount song =? 0
        then (song_score song + played_fraction * 100) / 2
        else (song_score song * inject_Z (song_playcount song) + played_fraction * 100)
             / inject_Z (song_playcount song + 1))%Q
    /\ (0 <= score' <= 100)%Q.
Proof.
  intros Hpf Hold Hpc.
  destruct (score_update_exact_steps sett song played_fraction Hpf Hold)
    as [played_fraction' [Hpf' Hsteps]].
  assert (Hpf'r : (0 <= played_fraction' <= 1)%Q) by (rewrite Hpf'; exact Hpf).
  rewrite Hsteps. rewrite update_score_sets_score.
  eexists. split; [reflexivity|].
  destruct (Z.eqb_spec (song_playcount song) 0) as [Hzero|Hnonzero].
  - rewrite Hzero. cbn [Z.leb Z.compare].
    destruct (mean_of_two_bounds (song_score song) played_fraction' Hold Hpf'r)
      as [Hb' Hz'].
    destruct (mean_of_two_bounds (song_score song) played_fraction Hold Hpf)
      as [Hb _].
    cbv zeta in Hb', Hz', Hb.
    rewrite (CLAMP_exact_inside _ Hb').
    rewrite (wf_stats_update_score_exact song _ Hold Hb' Hz').
    rewrite Hpf'. split; [reflexivity|exact Hb].
  - assert (Hpos : 0 < song_playcount song) by lia.
    destruct (Z.leb_spec (song_playcount song) 0) as [Hle|_]; [lia|].
    destruct (weighted_mean_bounds (song_score song) played_fraction'
                (song_playcount song) Hold Hpf'r Hpos) as [Hb' Hz'].
    destruct (weighted_mean_bounds (song_score song) played_fraction
                (song_playcount song) Hold Hpf Hpos) as [Hb _].
    cbv zeta in Hb', Hz', Hb.
    rewrite (CLAMP_exact_inside _ Hb').
    rewrite (wf_stats_update_score_exact song _ Hold Hb' Hz').
    rewrite Hpf'. split; [reflexivity|exact Hb].
Qed.

(** X8.  What [wf_song_manager_add_played_song] does to the statistics of
    the song when incognito is off (exact arithmetic, valid song, played
    fraction between 0 and 1, the score update not skipped).  The rating
    stays.  The score becomes the mean computed with the play count as it was
    before the call.  The play count grows by one and the last played becomes
    the time of the clock exactly when the played fraction is at least the
    minimum played fraction; the skip count grows by one exactly when the
    played fraction is at most the full played fraction.  When the minimum is
    not above the full played fraction, every played song is counted as
    played, as skipped, or as both. *)
Theorem played_song_updates_statistics :
  forall (sett : WfPlayedSettings Q) (now : Z) (m : WfSongManagerDetails)
         (song : WfSong Q) (played_fraction : Q),
    incognito m = false ->
    (0 <= played_fraction <= 1)%Q ->
    (0 <= song_score song <= 100)%Q ->
    0 <= song_playcount song ->
    0 <= song_skipcount song ->
    0 <= song_lastplayed song ->
    0 <= now ->
    let song' :=
      snd (wf_song_manager_add_played_song sett now m song played_fraction false) in
    let counted := Qle_bool (WF_SETTING_MIN_PLAYED_FRACTION sett) played_fraction in
    let skipped := Qle_bool played_fraction (WF_SETTING_FULL_PLAYED_FRACTION sett) in
    song_rating song' = song_rating song
    /\ (song_score song' ==
        if song_playcount song =? 0
        then (song_score song + played_fraction * 100) / 2
        else (song_score song * inject_Z (song_playcount song) + played_fraction * 100)
             / inject_Z (song_playcount song + 1))%Q
    /\ song_playcount song' = song_playcount song + (if counted then 1 else 0)
    /\ song_skipcount song' = song_skipcount song + (if skipped then 1 else 0)
    /\ song_lastplayed song' = (if counted then now else song_lastplayed song)
    /\ ((WF_SETTING_MIN_PLAYED_FRACTION sett <= WF_SETTING_FULL_PLAYED_FRACTION sett)%Q ->
          song_playcount song + song_skipcount song + 1
          <= song_playcount song' + song_skipcount song').
Proof.
  intros sett now m song played_fraction Hincognito Hpf Hold Hpc Hsk Hlp Hnow
    song' counted skipped.
  destruct (score_update_exact_value sett song played_fraction Hpf Hold Hpc)
    as [score' [Hscore [Hmean Hrange]]].
  assert (Hsong' :
    song' =
    wf_stats_modify_and_update_lastplayed false sett now
      (wf_stats_modify_and_update_skipcount false sett
         (wf_stats_modify_and_update_playcount false sett
            (wf_song_set_score song score') played_fraction false)
         played_fraction false)
      played_fraction 0).
  { subst song'. unfold wf_song_manager_add_played_song.
    cbn [d_leb d_of_Z exact_rational].
    assert (Hin : Qle_bool (inject_Z 0) played_fraction
                  && Qle_bool played_fraction (inject_Z 1) = true).
    { apply andb_true_iff. split; apply Qle_bool_iff.
      - change (inject_Z 0) with 0%Q. lra.
      - change (inject_Z 1) with 1%Q. lra. }
    rewrite Hin.
    cbn [negb incognito wf_song_manager_add_prev_song wf_song_manager_get_incognito snd].
    rewrite Hincognito. cbn [negb]. rewrite Hscore. reflexivity. }
  rewrite Hsong'. clear Hsong' song' Hscore.
  destruct song as [ptr uri ah aah st r sc pc sk lp].
  song_fields.
  unfold wf_stats_modify_and_update_lastplayed, wf_stats_modify_and_update_skipcount,
    wf_stats_modify_and_update_playcount.
  cbn [d_ltb exact_rational]. unfold Qltb. subst counted skipped.
  unfold wf_song_set_score. song_fields.
  destruct (Qle_bool (WF_SETTING_MIN_PLAYED_FRACTION sett) played_fraction) eqn:Emin;
    destruct (Qle_bool played_fraction (WF_SETTING_FULL_PLAYED_FRACTION sett)) eqn:Efull;
    cbn [negb];
    unfold wf_stats_update_playcount, wf_stats_update_skipcount,
      wf_stats_update_lastplayed, wf_song_get_play_count, wf_song_get_skip_count,
      wf_song_get_last_played, wf_song_set_play_count, wf_song_set_skip_count,
      wf_song_set_last_played, STAT_PLAYCOUNT_MIN, STAT_SKIPCOUNT_MIN,
      STAT_LASTPLAYED_MIN;
    song_fields; cbn [Z.eqb];
    z_cases; song_fields; try lia;
    (split; [reflexivity|]); (split; [exact Hmean|]);
    repeat split; try lia.
  all: intros Hle; apply Qle_bool_false_iff in Emin;
    apply Qle_bool_false_iff in Efull; lra.
Qed.

Lemma played_song_updates_statistics_witness :
  song_playcount
    (snd (wf_song_manager_add_played_song (D:=Q) default_played_settings 1700000000
            (mkSongManager (Some 1%positive) [] [] [] [] false)
            (example_song 1 0 (inject_Z 50) 4 2 100) (inject_Z 1) false))
  = 4 + 1.
Proof.
  refine (proj1 (proj2 (proj2 (played_song_updates_statistics default_played_settings
    1700000000 (mkSongManager (Some 1%positive) [] [] [] [] false)
    (example_song 1 0 (inject_Z 50) 4 2 100) (inject_Z 1) _ _ _ _ _ _ _)))).
  - reflexivity.
  - split; vm_compute; discriminate.
  - split; vm_compute; discriminate.
  - cbn. lia.
  - cbn. lia.
  - cbn. lia.
  - lia.
Defined.

(** ** intelligence.c: the stages of the filter *)

Section RemoveSongs.
Context {D : Type}.

Lemma same_song_refl (song : WfSong D) : same_song song song = true.
Proof. unfold same_song. apply Pos.eqb_refl. Qed.

Lemma same_song_ptr (a b : WfSong D) :
  same_song a b = true <-> song_ptr a = song_ptr b.
Proof. unfold same_song. apply Pos.eqb_eq. Qed.

(** A song whose address is not in the list is not found by
    [g_list_remove]. *)
Lemma g_list_remove_absent (l : list (WfSong D)) (song : WfSong D) :
  ~ In (song_ptr song) (map song_ptr l) ->
  g_list_remove same_song l song = l.
Proof.
  induction l as [|y l IH]; intros Habsent; [reflexivity|].
  cbn [g_list_remove]. cbn [map In] in Habsent.
  destruct (same_song y song) eqn:E.
  - apply same_song_ptr in E. exfalso. apply Habsent. left. exact E.
  - rewrite IH; [reflexivity|]. intros Hin. apply Habsent. right. exact Hin.
Qed.

Lemma g_list_remove_middle (l1 l2 : list (WfSong D)) (song : WfSong D) :
  ~ In (song_ptr song) (map song_ptr l1) ->
  g_list_remove same_song (l1 ++ song :: l2) song = l1 ++ l2.
Proof.
  induction l1 as [|y l1 IH]; intros Habsent.
  - cbn [app g_list_remove]. rewrite same_song_refl. reflexivity.
  - cbn [app g_list_remove]. cbn [map In] in Habsent.
    destruct (same_song y song) eqn:E.
    + apply same_song_ptr in E. exfalso. apply Habsent. left. exact E.
    + rewrite IH; [reflexivity|]. intros Hin. apply Habsent. right. exact Hin.
Qed.

Lemma g_list_remove_incl (l : list (WfSong D)) (song other : WfSong D) :
  In other (g_list_remove same_song l song) -> In other l.
Proof.
  induction l as [|y l IH]; [intros []|].
  cbn [g_list_remove]. destruct (same_song y song).
  - intros Hin. right. exact Hin.
  - intros [Heq|Hin]; [left; exact Heq|right; exact (IH Hin)].
Qed.

Lemma g_list_remove_length (l : list (WfSong D)) (song : WfSong D) :
  (length l <= S (length (g_list_remove same_song l song)))%nat
  /\ (length (g_list_remove same_song l song) <= length l)%nat.
Proof.
  induction l as [|y l IH]; [cbn; lia|].
  cbn [g_list_remove]. destruct (same_song y song); cbn [length]; lia.
Qed.

Lemma filter_map_ptr_incl (keep : WfSong D -> bool) (l : list (WfSong D)) (p : positive) :
  In p (map song_ptr (filter keep l)) -> In p (map song_ptr l).
Proof.
  intros Hin. apply in_map_iff in Hin. destruct Hin as [s [Hp Hs]].
  apply filter_In in Hs. apply in_map_iff. exists s. tauto.
Qed.

Lemma NoDup_ptr_filter (keep : WfSong D -> bool) (l : list (WfSong D)) :
  NoDup (map song_ptr l) -> NoDup (map song_ptr (filter keep l)).
Proof.
  induction l as [|y l IH]; intros Hnodup; [constructor|].
  cbn [map] in Hnodup. inversion Hnodup as [|? ? Hnotin Hrest]; subst.
  cbn [filter]. destruct (keep y); [|exact (IH Hrest)].
  cbn [map]. constructor; [|exact (IH Hrest)].
  intros Hin. apply Hnotin. exact (filter_map_ptr_incl keep l _ Hin).
Qed.

(** The loops that walk the library and take songs out of it with
    [g_list_remove] keep exactly the songs they do not choose, when no song is
    in the library twice. *)
Lemma remove_loop_is_filter (bad : WfSong D -> bool) (visited rest : list (WfSong D)) :
  NoDup (map song_ptr (visited ++ rest)) ->
  fold_left
    (fun library song =>
       if bad song then g_list_remove same_song library song else library)
    rest (filter (fun song => negb (bad song)) visited ++ rest)
  = filter (fun song => negb (bad song)) (visited ++ rest).
Proof.
  revert visited. induction rest as [|x rest IH]; intros visited Hnodup.
  - cbn [fold_left]. rewrite !app_nil_r. reflexivity.
  - cbn [fold_left].
    assert (Hx : ~ In (song_ptr x) (map song_ptr visited)).
    { rewrite map_app in Hnodup. cbn [map] in Hnodup.
      apply NoDup_remove_2 in Hnodup. intros Hin. apply Hnodup.
      apply in_or_app. left. exact Hin. }
    assert (Hstep : visited ++ x :: rest = (visited ++ [x]) ++ rest)
      by (rewrite <- app_assoc; reflexivity).
    rewrite Hstep in Hnodup. specialize (IH (visited ++ [x]) Hnodup).
    rewrite Hstep, <- IH. f_equal.
    rewrite filter_app. cbn [filter].
    destruct (bad x); cbn [negb].
    + rewrite app_nil_r. apply g_list_remove_middle.
      intros Hin. apply Hx. exact (filter_map_ptr_incl _ _ _ Hin).
    + rewrite <- app_assoc. reflexivity.
Qed.
End RemoveSongs.

Section FilterStages.
Context {D : Type} `{GDouble D}.

Lemma remove_invalid_songs_filter (library : list (WfSong D)) :
  NoDup (map song_ptr library) ->
  wf_intelligence_remove_invalid_songs library
  = filter (fun song => WfSongStatus_eqb (wf_song_get_status song) WF_SONG_AVAILABLE)
      library.
Proof.
  intros Hnodup. unfold wf_intelligence_remove_invalid_songs.
  pose proof (remove_loop_is_filter
    (fun song => negb (WfSongStatus_eqb (wf_song_get_status song) WF_SONG_AVAILABLE))
    [] library Hnodup) as Hloop.
  cbn [filter app] in Hloop. rewrite Hloop.
  apply filter_ext. intros song. apply negb_involutive.
Qed.

(** The inner loop looks at the first [amount] artists only. *)
Lemma artist_is_recent_firstn (artists : list Z) (amount x artist : Z) :
  x <= amount ->
  artist_is_recent artists amount x artist
  = existsb (Z.eqb artist) (firstn (Z.to_nat (amount - x)) artists).
Proof.
  revert x. induction artists as [|hash artists IH]; intros x Hx.
  - rewrite firstn_nil. reflexivity.
  - cbn [artist_is_recent].
    destruct (Z.leb_spec amount x) as [Hfull|Hroom].
    + replace (amount - x) with 0 by lia. reflexivity.
    + replace (Z.to_nat (amount - x)) with (S (Z.to_nat (amount - (x + 1)))) by lia.
      cbn [firstn existsb].
      destruct (artist =? hash); [reflexivity|].
      cbn [orb]. apply IH. lia.
Qed.

Lemma remove_songs_with_artists_filter (library : list (WfSong D))
    (artists : list Z) (amount : Z) :
  NoDup (map song_ptr library) ->
  wf_intelligence_remove_songs_with_artists library artists amount
  = filter
      (fun song =>
         negb (negb (wf_song_get_artist_hash song =? 0)
               && existsb (Z.eqb (wf_song_get_artist_hash song))
                    (firstn (Z.to_nat amount) artists)))
      library.
Proof.
  intros Hnodup. unfold wf_intelligence_remove_songs_with_artists.
  assert (Hloop :
    fold_left
      (fun library song =>
         let artist := wf_song_get_artist_hash song in
         if negb (artist =? 0) && artist_is_recent artists amount 0 artist
         then g_list_remove same_song library song else library)
      library library
    = filter
        (fun song =>
           negb (negb (wf_song_get_artist_hash song =? 0)
                 && artist_is_recent artists amount 0 (wf_song_get_artist_hash song)))
        library).
  { exact (remove_loop_is_filter
      (fun song => negb (wf_song_get_artist_hash song =? 0)
                   && artist_is_recent artists amount 0 (wf_song_get_artist_hash song))
      [] library Hnodup). }
  assert (Hpred : forall song : WfSong D,
    negb (negb (wf_song_get_artist_hash song =? 0)
          && artist_is_recent artists amount 0 (wf_song_get_artist_hash song))
    = negb (negb (wf_song_get_artist_hash song =? 0)
            && existsb (Z.eqb (wf_song_get_artist_hash song))
                 (firstn (Z.to_nat amount) artists))).
  { intros song.
    destruct (Z.le_gt_cases 0 amount) as [Hpos|Hneg].
    - rewrite artist_is_recent_firstn by exact Hpos.
      rewrite Z.sub_0_r. reflexivity.
    - replace (Z.to_nat amount) with 0%nat by lia. cbn [firstn existsb].
      assert (Hnone : forall l, artist_is_recent l amount 0
                                  (wf_song_get_artist_hash song) = false).
      { intros [|hash l]; [reflexivity|]. cbn [artist_is_recent].
        destruct (Z.leb_spec amount 0); [reflexivity|lia]. }
      rewrite Hnone. reflexivity. }
  destruct library as [|song library']; [reflexivity|].
  destruct artists as [|hash artists'].
  - rewrite firstn_nil. cbn [existsb]. symmetry.
    rewrite (filter_ext _ (fun _ => true)).
    + clear. induction (song :: library') as [|y l IH]; [reflexivity|].
      cbn [filter]. rewrite IH. reflexivity.
    + intros s. rewrite andb_false_r. reflexivity.
  - etransitivity; [exact Hloop|]. apply filter_ext. exact Hpred.
Qed.
End FilterStages.

(** X9.  [wf_intelligence_remove_invalid_songs] keeps, in their order,
    exactly the songs whose status is available, for a library in which no
    song occurs twice. *)
Theorem invalid_songs_removed :
  forall (D : Type) (library : list (WfSong D)),
    NoDup (map song_ptr library) ->
    wf_intelligence_remove_invalid_songs library
    = filter (fun song => WfSongStatus_eqb (song_status song) WF_SONG_AVAILABLE) library
    /\ (forall song,
          In song (wf_intelligence_remove_invalid_songs library)
          <-> In song library /\ song_status song = WF_SONG_AVAILABLE).
Proof.
  intros D library Hnodup.
  pose proof (remove_loop_is_filter
    (fun song : WfSong D =>
       negb (WfSongStatus_eqb (wf_song_get_status song) WF_SONG_AVAILABLE))
    [] library Hnodup) as Hloop.
  cbn [filter app] in Hloop.
  assert (Hfilter :
    wf_intelligence_remove_invalid_songs library
    = filter (fun song => WfSongStatus_eqb (song_status song) WF_SONG_AVAILABLE)
        library).
  { unfold wf_intelligence_remove_invalid_songs. rewrite Hloop.
    apply filter_ext. intros song. apply negb_involutive. }
  split; [exact Hfilter|].
  intros song. rewrite Hfilter, filter_In.
  split; intros [Hin Hstatus]; (split; [exact Hin|]).
  - destruct (song_status song); (reflexivity || discriminate).
  - rewrite Hstatus. reflexivity.
Qed.

Lemma invalid_songs_removed_witness :
  wf_intelligence_remove_invalid_songs
    [example_song (D:=Q) 1 0 (inject_Z 50) 0 0 0;
     mkSong 2 true 0 0 WF_SONG_NOT_FOUND 0 (inject_Z 50) 0 0 0;
     example_song 3 0 (inject_Z 50) 0 0 0]
  = filter (fun song => WfSongStatus_eqb (song_status song) WF_SONG_AVAILABLE)
      [example_song (D:=Q) 1 0 (inject_Z 50) 0 0 0;
       mkSong 2 true 0 0 WF_SONG_NOT_FOUND 0 (inject_Z 50) 0 0 0;
       example_song 3 0 (inject_Z 50) 0 0 0].
Proof.
  refine (proj1 (invalid_songs_removed Q
    [example_song 1 0 (inject_Z 50) 0 0 0;
     mkSong 2 true 0 0 WF_SONG_NOT_FOUND 0 (inject_Z 50) 0 0 0;
     example_song 3 0 (inject_Z 50) 0 0 0] _)).
  cbn. repeat constructor; cbn; intuition discriminate.
Defined.

(** X10.  [wf_intelligence_remove_songs_with_artists] keeps, in their
    order, exactly the songs without artist (hash 0) and the songs whose
    artist is not among the first [amount] recent artists, for a library in
    which no song occurs twice; with an amount of 0 or less nothing is
    removed. *)
Theorem recent_artist_songs_removed :
  forall (D : Type) (library : list (WfSong D)) (artists : list Z) (amount : Z),
    NoDup (map song_ptr library) ->
    (forall song,
       In song (wf_intelligence_remove_songs_with_artists library artists amount)
       <-> In song library
           /\ (wf_song_get_artist_hash song = 0
               \/ ~ In (wf_song_get_artist_hash song)
                      (firstn (Z.to_nat amount) artists)))
    /\ (amount <= 0 ->
          wf_intelligence_remove_songs_with_artists library artists amount = library).
Proof.
  intros D library artists amount Hnodup.
  assert (Hmember : forall (song : WfSong D) (recent : list Z),
    negb (negb (wf_song_get_artist_hash song =? 0)
          && existsb (Z.eqb (wf_song_get_artist_hash song)) recent) = true
    <-> wf_song_get_artist_hash song = 0
        \/ ~ In (wf_song_get_artist_hash song) recent).
  { intros song recent. rewrite negb_true_iff, andb_false_iff, negb_false_iff.
    rewrite Z.eqb_eq. split; intros [Hzero|Hnot]; [left; exact Hzero| |left; exact Hzero|].
    - right. intros Hin.
      assert (Hex : existsb (Z.eqb (wf_song_get_artist_hash song)) recent = true).
      { apply existsb_exists. exists (wf_song_get_artist_hash song).
        split; [exact Hin|apply Z.eqb_refl]. }
      congruence.
    - right. destruct (existsb (Z.eqb (wf_song_get_artist_hash song)) recent) eqn:E;
        [|reflexivity].
      apply existsb_exists in E. destruct E as [hash [Hin Heq]].
      apply Z.eqb_eq in Heq. subst hash. contradiction. }
  rewrite (remove_songs_with_artists_filter library artists amount Hnodup).
  split.
  - intros song. rewrite filter_In, Hmember. reflexivity.
  - intros Hamount. replace (Z.to_nat amount) with 0%nat by lia.
    cbn [firstn existsb].
    rewrite (filter_ext _ (fun _ => true)).
    + clear. induction library as [|y l IH]; [reflexivity|].
      cbn [filter]. rewrite IH. reflexivity.
    + intros song. rewrite andb_false_r. reflexivity.
Qed.

Lemma recent_artist_songs_removed_witness :
  wf_intelligence_remove_songs_with_artists
    [mkSong (D:=Q) 1 true 11 0 WF_SONG_AVAILABLE 0 (inject_Z 50) 0 0 0;
     mkSong 2 true 12 0 WF_SONG_AVAILABLE 0 (inject_Z 50) 0 0 0]
    [11; 12] 0
  = [mkSong (D:=Q) 1 true 11 0 WF_SONG_AVAILABLE 0 (inject_Z 50) 0 0 0;
     mkSong 2 true 12 0 WF_SONG_AVAILABLE 0 (inject_Z 50) 0 0 0].
Proof.
  refine (proj2 (recent_artist_songs_removed Q
    [mkSong 1 true 11 0 WF_SONG_AVAILABLE 0 (inject_Z 50) 0 0 0;
     mkSong 2 true 12 0 WF_SONG_AVAILABLE 0 (inject_Z 50) 0 0 0]
    [11; 12] 0 _) _).
  - cbn. repeat constructor; cbn; intuition discriminate.
  - lia.
Defined.

(** The flag of [wf_intelligence_filter_by_stats] is the disjunction of the
    five tests: skipping the tests that follow a rejection changes nothing. *)
Lemma song_filtered_by_stats_tests {D : Type} `{GDouble D}
    (filter : WfSongFilter D) (time : Z) (song : WfSong D) :
  song_filtered_by_stats filter time song
  = (wf_intelligence_use_rating_filter (filter_use_rating filter)
       (filter_rating_min filter) (filter_rating_max filter)
     && (negb (wf_stats_rating_is_valid (wf_song_get_rating song))
         || (negb (filter_rating_inc_zero filter && (wf_song_get_rating song =? 0))
             && ((wf_song_get_rating song <? filter_rating_min filter)
                 || (filter_rating_max filter <? wf_song_get_rating song)))))
    || (wf_intelligence_use_score_filter (filter_use_score filter)
          (d_of_Z (filter_score_min filter)) (d_of_Z (filter_score_max filter))
        && (negb (wf_stats_score_is_valid (wf_song_get_score song))
            || (d_ltb (wf_song_get_score song) (d_of_Z (filter_score_min filter))
                || d_ltb (d_of_Z (filter_score_max filter)) (wf_song_get_score song))))
    || (wf_intelligence_use_playcount_filter (filter_use_playcount filter)
          (filter_playcount_th filter)
        && (negb (wf_stats_playcount_is_valid (wf_song_get_play_count song))
            || (filter_playcount_invert filter
                && (filter_playcount_th filter <? wf_song_get_play_count song))
            || (negb (filter_playcount_invert filter)
                && (wf_song_get_play_count song <? filter_playcount_th filter))))
    || (wf_intelligence_use_skipcount_filter (filter_use_skipcount filter)
          (filter_skipcount_th filter)
        && (negb (wf_stats_skipcount_is_valid (wf_song_get_skip_count song))
            || (filter_skipcount_invert filter
                && (filter_skipcount_th filter <? wf_song_get_skip_count song))
            || (negb (filter_skipcount_invert filter)
                && (wf_song_get_skip_count song <? filter_skipcount_th filter))))
    || (wf_intelligence_use_lastplayed_filter (filter_use_lastplayed filter)
          (filter_lastplayed_th filter)
        && (negb (wf_stats_lastplayed_is_valid (wf_song_get_last_played song))
            || (filter_lastplayed_invert filter
                && (filter_lastplayed_th filter
                    <? wf_utils_time_compare (wf_song_get_last_played song) time))
            || (negb (filter_lastplayed_invert filter)
                && (wf_utils_time_compare (wf_song_get_last_played song) time
                    <? filter_lastplayed_th filter)))).
Proof.
  unfold song_filtered_by_stats. cbv zeta.
  destruct (wf_intelligence_use_rating_filter _ _ _);
  destruct (wf_intelligence_use_score_filter _ _ _);
  destruct (wf_intelligence_use_playcount_filter _ _);
  destruct (wf_intelligence_use_skipcount_filter _ _);
  destruct (wf_intelligence_use_lastplayed_filter _ _);
  cbn [andb orb negb];
  repeat match goal with
    | |- context [if ?b then true else _] => destruct b; cbn [andb orb negb]
    end;
  reflexivity.
Qed.

Lemma Qle_bool_inject_Z (a b : Z) :
  Qle_bool (inject_Z a) (inject_Z b) = (a <=? b).
Proof.
  unfold Qle_bool, inject_Z. cbn [Qnum Qden Z.pos_sub].
  rewrite !Z.mul_1_r. reflexivity.
Qed.

Lemma filter_all_kept {A : Type} (f : A -> bool) (l : list A) :
  (forall x, In x l -> f x = true) -> filter f l = l.
Proof.
  induction l as [|y l IH]; intros Hall; [reflexivity|].
  cbn [filter]. rewrite (Hall y (or_introl eq_refl)).
  f_equal. apply IH. intros x Hx. apply Hall. right. exact Hx.
Qed.

(** X11.  [wf_intelligence_filter_by_stats] removes nothing when every
    statistic filter is switched off or has a bound that makes
    [wf_intelligence_use_*_filter] refuse it: a rating or score bound
    outside 1..100, a threshold of 0 or less. *)
Theorem stat_filters_out_of_use :
  forall (filter : WfSongFilter Q) (time : Z) (library : list (WfSong Q)),
    (filter_use_rating filter = false
     \/ ~ 1 <= filter_rating_min filter <= 100
     \/ ~ 1 <= filter_rating_max filter <= 100) ->
    (filter_use_score filter = false
     \/ ~ 1 <= filter_score_min filter <= 100
     \/ ~ 1 <= filter_score_max filter <= 100) ->
    (filter_use_playcount filter = false \/ filter_playcount_th filter <= 0) ->
    (filter_use_skipcount filter = false \/ filter_skipcount_th filter <= 0) ->
    (filter_use_lastplayed filter = false \/ filter_lastplayed_th filter <= 0) ->
    wf_intelligence_filter_by_stats library filter time = library.
Proof.
  intros filter time library Hr Hs Hp Hk Hl.
  unfold wf_intelligence_filter_by_stats. apply filter_all_kept.
  intros song _. rewrite song_filtered_by_stats_tests.
  assert (Er : wf_intelligence_use_rating_filter (filter_use_rating filter)
                 (filter_rating_min filter) (filter_rating_max filter) = false).
  { unfold wf_intelligence_use_rating_filter, wf_stats_rating_is_valid,
      STAT_RATING_MIN, STAT_RATING_MAX.
    destruct (filter_use_rating filter); cbn [negb orb andb]; [|reflexivity].
    z_cases; cbn [negb orb andb]; try reflexivity.
    exfalso. destruct Hr as [Hr|[Hr|Hr]]; [discriminate|apply Hr; lia|apply Hr; lia]. }
  assert (Es : wf_intelligence_use_score_filter (filter_use_score filter)
                 (d_of_Z (filter_score_min filter)) (d_of_Z (filter_score_max filter))
               = false).
  { unfold wf_intelligence_use_score_filter, wf_stats_score_is_valid.
    unfold STAT_SCORE_MIN, STAT_SCORE_MAX.
    cbn [d_leb d_of_Z exact_rational]. rewrite !Qle_bool_inject_Z.
    destruct (filter_use_score filter); cbn [negb orb andb]; [|reflexivity].
    z_cases; cbn [negb orb andb]; try reflexivity.
    exfalso. destruct Hs as [Hs|[Hs|Hs]]; [discriminate|apply Hs; lia|apply Hs; lia]. }
  assert (Ep : wf_intelligence_use_playcount_filter (filter_use_playcount filter)
                 (filter_playcount_th filter) = false).
  { unfold wf_intelligence_use_playcount_filter.
    destruct (filter_use_playcount filter); cbn [negb orb]; [|reflexivity].
    z_cases; [reflexivity|]. destruct Hp as [Hp|Hp]; [discriminate|lia]. }
  assert (Ek : wf_intelligence_use_skipcount_filter (filter_use_skipcount filter)
                 (filter_skipcount_th filter) = false).
  { unfold wf_intelligence_use_skipcount_filter.
    destruct (filter_use_skipcount filter); cbn [negb orb]; [|reflexivity].
    z_cases; [reflexivity|]. destruct Hk as [Hk|Hk]; [discriminate|lia]. }
  assert (El : wf_intelligence_use_lastplayed_filter (filter_use_lastplayed filter)
                 (filter_lastplayed_th filter) = false).
  { unfold wf_intelligence_use_lastplayed_filter.
    destruct (filter_use_lastplayed filter); cbn [negb orb]; [|reflexivity].
    z_cases; [reflexivity|]. destruct Hl as [Hl|Hl]; [discriminate|lia]. }
  rewrite Er, Es, Ep, Ek, El. reflexivity.
Qed.

Lemma stat_filters_out_of_use_witness :
  wf_intelligence_filter_by_stats library_of_ten
    (mkSongFilter 0 0 (inject_Z 0)
       true true true true false
       false false false false
       0 50 50 101 0 (-3) 10)
    1000
  = library_of_ten.
Proof.
  apply stat_filters_out_of_use; cbn.
  - right. left. lia.
  - right. right. lia.
  - right. lia.
  - right. lia.
  - left. reflexivity.
Defined.

(** X12.  What [wf_intelligence_filter_by_stats] keeps, in exact
    arithmetic: a song of the library stays exactly when it passes every
    filter in use.  The rating filter passes a rating within its bounds, and
    the rating 0 when unrated songs are included; the score filter a score
    within its bounds; a count filter a valid count that is at least the
    threshold, or at most the threshold when inverted; the last-played
    filter works in the same way on the time since the song was played. *)
Theorem stat_filters_keep :
  forall (filter : WfSongFilter Q) (time : Z) (library : list (WfSong Q))
         (song : WfSong Q),
    In song (wf_intelligence_filter_by_stats library filter time)
    <-> In song library
        /\ (filter_use_rating filter = true ->
            1 <= filter_rating_min filter <= 100 ->
            1 <= filter_rating_max filter <= 100 ->
            (filter_rating_inc_zero filter = true /\ song_rating song = 0)
            \/ filter_rating_min filter <= song_rating song <= filter_rating_max filter)
        /\ (filter_use_score filter = true ->
            1 <= filter_score_min filter <= 100 ->
            1 <= filter_score_max filter <= 100 ->
            (inject_Z (filter_score_min filter) <= song_score song
             <= inject_Z (filter_score_max filter))%Q)
        /\ (filter_use_playcount filter = true ->
            1 <= filter_playcount_th filter ->
            if filter_playcount_invert filter
            then 0 <= song_playcount song <= filter_playcount_th filter
            else filter_playcount_th filter <= song_playcount song)
        /\ (filter_use_skipcount filter = true ->
            1 <= filter_skipcount_th filter ->
            if filter_skipcount_invert filter
            then 0 <= song_skipcount song <= filter_skipcount_th filter
            else filter_skipcount_th filter <= song_skipcount song)
        /\ (filter_use_lastplayed filter = true ->
            1 <= filter_lastplayed_th filter ->
            0 <= song_lastplayed song
            /\ if filter_lastplayed_invert filter
               then Z.abs (time - song_lastplayed song) <= filter_lastplayed_th filter
               else filter_lastplayed_th filter <= Z.abs (time - song_lastplayed song)).
Proof.
  intros filter time library song.
  unfold wf_intelligence_filter_by_stats.
  rewrite filter_In, negb_true_iff, song_filtered_by_stats_tests, !orb_false_iff.
  assert (Hr :
    wf_intelligence_use_rating_filter (filter_use_rating filter)
      (filter_rating_min filter) (filter_rating_max filter)
    && (negb (wf_stats_rating_is_valid (wf_song_get_rating song))
        || (negb (filter_rating_inc_zero filter && (wf_song_get_rating song =? 0))
            && ((wf_song_get_rating song <? filter_rating_min filter)
                || (filter_rating_max filter <? wf_song_get_rating song)))) = false
    <-> (filter_use_rating filter = true ->
         1 <= filter_rating_min filter <= 100 ->
         1 <= filter_rating_max filter <= 100 ->
         (filter_rating_inc_zero filter = true /\ song_rating song = 0)
         \/ filter_rating_min filter <= song_rating song <= filter_rating_max filter)).
  { unfold wf_intelligence_use_rating_filter, wf_stats_rating_is_valid,
      STAT_RATING_MIN, STAT_RATING_MAX, wf_song_get_rating.
    destruct (filter_use_rating filter), (filter_rating_inc_zero filter);
      cbn [negb orb andb];
      z_cases; cbn [negb orb andb];
      (split; [intros Hb; try discriminate Hb; intros; try lia;
               try (left; split; [reflexivity|lia]); try (right; lia)
              |intros Hp; try reflexivity; exfalso;
               try (destruct Hp as [[Ht Hz]|Hin];
                    [reflexivity|lia|lia| |]; (discriminate || lia))]). }
  assert (Hs :
    wf_intelligence_use_score_filter (filter_use_score filter)
      (d_of_Z (filter_score_min filter)) (d_of_Z (filter_score_max filter))
    && (negb (wf_stats_score_is_valid (wf_song_get_score song))
        || (d_ltb (wf_song_get_score song) (d_of_Z (filter_score_min filter))
            || d_ltb (d_of_Z (filter_score_max filter)) (wf_song_get_score song)))
    = false
    <-> (filter_use_score filter = true ->
         1 <= filter_score_min filter <= 100 ->
         1 <= filter_score_max filter <= 100 ->
         (inject_Z (filter_score_min filter) <= song_score song
          <= inject_Z (filter_score_max filter))%Q)).
  { unfold wf_intelligence_use_score_filter, wf_stats_score_is_valid,
      STAT_SCORE_MIN, STAT_SCORE_MAX, wf_song_get_score.
    cbn [d_leb d_ltb d_of_Z exact_rational]. rewrite !Qle_bool_inject_Z.
    destruct (filter_use_score filter); cbn [negb orb andb];
      [|split; [intros _ Hu; discriminate Hu|reflexivity]].
    assert (Hmin : 1 <= filter_score_min filter <= 100 ->
                   (1 <= inject_Z (filter_score_min filter) <= 100)%Q).
    { intros [Ha Hb]. split;
        [change 1%Q with (inject_Z 1)|change 100%Q with (inject_Z 100)];
        rewrite <- Zle_Qle; assumption. }
    assert (Hmax : 1 <= filter_score_max filter <= 100 ->
                   (1 <= inject_Z (filter_score_max filter) <= 100)%Q).
    { intros [Ha Hb]. split;
        [change 1%Q with (inject_Z 1)|change 100%Q with (inject_Z 100)];
        rewrite <- Zle_Qle; assumption. }
    change (inject_Z 0) with 0%Q. change (inject_Z 100) with 100%Q.
    z_cases; cbn [negb orb andb];
      try (split; [intros _ _ Hsmin Hsmax; exfalso; lia|reflexivity]).
    assert (Hsmin : 1 <= filter_score_min filter <= 100) by lia.
    assert (Hsmax : 1 <= filter_score_max filter <= 100) by lia.
    specialize (Hmin Hsmin). specialize (Hmax Hsmax).
    q_cases; cbn [negb orb andb];
      (split; [intros Hb; try discriminate Hb; intros _ _ _; split; lra
              |intros Hp; try reflexivity; exfalso;
               specialize (Hp eq_refl Hsmin Hsmax); lra]). }
  assert (Hp :
    wf_intelligence_use_playcount_filter (filter_use_playcount filter)
      (filter_playcount_th filter)
    && (negb (wf_stats_playcount_is_valid (wf_song_get_play_count song))
        || (filter_playcount_invert filter
            && (filter_playcount_th filter <? wf_song_get_play_count song))
        || (negb (filter_playcount_invert filter)
            && (wf_song_get_play_count song <? filter_playcount_th filter))) = false
    <-> (filter_use_playcount filter = true ->
         1 <= filter_playcount_th filter ->
         if filter_playcount_invert filter
         then 0 <= song_playcount song <= filter_playcount_th filter
         else filter_playcount_th filter <= song_playcount song)).
  { unfold wf_intelligence_use_playcount_filter, wf_stats_playcount_is_valid,
      STAT_PLAYCOUNT_MIN, wf_song_get_play_count.
    destruct (filter_use_playcount filter), (filter_playcount_invert filter);
      cbn [negb orb andb]; z_cases; cbn [negb orb andb];
      (split; [intros Hb; try discriminate Hb; intros; lia
              |intros Hp; try reflexivity; exfalso;
               first [specialize (Hp eq_refl); lia | discriminate]]). }
  assert (Hk :
    wf_intelligence_use_skipcount_filter (filter_use_skipcount filter)
      (filter_skipcount_th filter)
    && (negb (wf_stats_skipcount_is_valid (wf_song_get_skip_count song))
        || (filter_skipcount_invert filter
            && (filter_skipcount_th filter <? wf_song_get_skip_count song))
        || (negb (filter_skipcount_invert filter)
            && (wf_song_get_skip_count song <? filter_skipcount_th filter))) = false
    <-> (filter_use_skipcount filter = true ->
         1 <= filter_skipcount_th filter ->
         if filter_skipcount_invert filter
         then 0 <= song_skipcount song <= filter_skipcount_th filter
         else filter_skipcount_th filter <= song_skipcount song)).
  { unfold wf_intelligence_use_skipcount_filter, wf_stats_skipcount_is_valid,
      STAT_SKIPCOUNT_MIN, wf_song_get_skip_count.
    destruct (filter_use_skipcount filter), (filter_skipcount_invert filter);
      cbn [negb orb andb]; z_cases; cbn [negb orb andb];
      (split; [intros Hb; try discriminate Hb; intros; lia
              |intros Hq; try reflexivity; exfalso;
               first [specialize (Hq eq_refl); lia | discriminate]]). }
  assert (Hl :
    wf_intelligence_use_lastplayed_filter (filter_use_lastplayed filter)
      (filter_lastplayed_th filter)
    && (negb (wf_stats_lastplayed_is_valid (wf_song_get_last_played song))
        || (filter_lastplayed_invert filter
            && (filter_lastplayed_th filter
                <? wf_utils_time_compare (wf_song_get_last_played song) time))
        || (negb (filter_lastplayed_invert filter)
            && (wf_utils_time_compare (wf_song_get_last_played song) time
                <? filter_lastplayed_th filter))) = false
    <-> (filter_use_lastplayed filter = true ->
         1 <= filter_lastplayed_th filter ->
         0 <= song_lastplayed song
         /\ if filter_lastplayed_invert filter
            then Z.abs (time - song_lastplayed song) <= filter_lastplayed_th filter
            else filter_lastplayed_th filter <= Z.abs (time - song_lastplayed song))).
  { unfold wf_intelligence_use_lastplayed_filter, wf_stats_lastplayed_is_valid,
      STAT_LASTPLAYED_MIN, wf_song_get_last_played, wf_utils_time_compare.
    destruct (filter_use_lastplayed filter), (filter_lastplayed_invert filter);
      cbn [negb orb andb]; z_cases; cbn [negb orb andb];
      (split; [intros Hb; try discriminate Hb; intros; lia
              |intros Hq; try reflexivity; exfalso;
               first [specialize (Hq eq_refl); lia | discriminate]]). }
  rewrite Hr, Hs, Hp, Hk, Hl. tauto.
Qed.

Section RemoveRecents.
Context {D : Type} `{GDouble D}.

Lemma remove_listed_songs_firstn (songs library : list (WfSong D)) (x amount : Z) :
  remove_listed_songs songs library x amount
  = (fold_left (g_list_remove same_song)
       (firstn (Z.to_nat (amount - x)) songs) library,
     x + Z.of_nat (length (firstn (Z.to_nat (amount - x)) songs))).
Proof.
  revert library x. induction songs as [|song songs IH]; intros library x.
  - cbn [remove_listed_songs]. rewrite firstn_nil. cbn. f_equal. lia.
  - cbn [remove_listed_songs]. destruct (Z.ltb_spec x amount) as [Hlt|Hge].
    + rewrite IH.
      replace (Z.to_nat (amount - x)) with (S (Z.to_nat (amount - (x + 1)))) by lia.
      cbn [firstn fold_left length]. f_equal. lia.
    + replace (Z.to_nat (amount - x)) with 0%nat by lia.
      cbn. f_equal. lia.
Qed.

Lemma remove_last_played_songs_firstn (songs library : list (WfSong D)) (x amount : Z) :
  remove_last_played_songs songs library x amount
  = (fold_left (g_list_remove same_song)
       (firstn (Z.to_nat (amount - x))
          (filter (fun song => 0 <? wf_song_get_last_played song) songs)) library,
     x + Z.of_nat (length
           (firstn (Z.to_nat (amount - x))
              (filter (fun song => 0 <? wf_song_get_last_played song) songs)))).
Proof.
  revert library x. induction songs as [|song songs IH]; intros library x.
  - cbn [remove_last_played_songs filter]. rewrite firstn_nil. cbn. f_equal. lia.
  - cbn [remove_last_played_songs filter].
    destruct (Z.ltb_spec x amount) as [Hlt|Hge].
    + destruct (Z.leb_spec (wf_song_get_last_played song) 0) as [Hnever|Hplayed];
        destruct (Z.ltb_spec 0 (wf_song_get_last_played song)); try lia.
      * apply IH.
      * rewrite IH.
        replace (Z.to_nat (amount - x)) with (S (Z.to_nat (amount - (x + 1)))) by lia.
        cbn [firstn fold_left length]. f_equal. lia.
    + replace (Z.to_nat (amount - x)) with 0%nat by lia.
      cbn. f_equal. lia.
Qed.

(** The songs that [wf_intelligence_remove_recents] hands to
    [g_list_remove]: first those of the queue and of the history, then the
    played songs of what is left, the most recently played first. *)
Lemma remove_recents_two_stages (library list_prev list_next : list (WfSong D))
    (amount : Z) :
  let listed := firstn (Z.to_nat amount) (list_next ++ list_prev) in
  let rest := fold_left (g_list_remove same_song) listed library in
  wf_intelligence_remove_recents library list_prev list_next amount
  = fold_left (g_list_remove same_song)
      (firstn (Z.to_nat amount - length listed)
         (filter (fun song => 0 <? wf_song_get_last_played song)
            (g_list_sort wf_intelligence_sort_compare rest)))
      rest.
Proof.
  intros listed rest.
  assert (Hfold_nil : forall songs : list (WfSong D),
            fold_left (g_list_remove same_song) songs [] = []).
  { induction songs as [|s songs IH]; [reflexivity|exact IH]. }
  unfold wf_intelligence_remove_recents.
  destruct library as [|first library].
  { subst rest. rewrite Hfold_nil. cbn. rewrite firstn_nil. reflexivity. }
  destruct (Z.leb_spec amount 0) as [Hle|Hpos].
  { subst rest listed. replace (Z.to_nat amount) with 0%nat by lia. reflexivity. }
  rewrite remove_listed_songs_firstn.
  rewrite remove_listed_songs_firstn.
  rewrite Z.sub_0_r, Z.add_0_l.
  set (taken := firstn (Z.to_nat amount) list_next).
  assert (Hlisted : listed
                    = taken ++ firstn (Z.to_nat (amount - Z.of_nat (length taken)))
                                 list_prev).
  { subst listed taken. rewrite firstn_app. f_equal.
    rewrite length_firstn.
    destruct (Nat.le_gt_cases (Z.to_nat amount) (length list_next)) as [Hn|Hn].
    - rewrite Nat.min_l by exact Hn.
      replace (Z.to_nat amount - length list_next)%nat with 0%nat by lia.
      replace (Z.to_nat (amount - Z.of_nat (Z.to_nat amount))) with 0%nat by lia.
      reflexivity.
    - rewrite Nat.min_r by lia. f_equal. lia. }
  assert (Hrest : rest
                  = fold_left (g_list_remove same_song)
                      (firstn (Z.to_nat (amount - Z.of_nat (length taken))) list_prev)
                      (fold_left (g_list_remove same_song) taken (first :: library))).
  { subst rest. rewrite Hlisted. apply fold_left_app. }
  rewrite <- Hrest.
  assert (Hcount : Z.of_nat (length taken)
                   + Z.of_nat (length (firstn (Z.to_nat (amount - Z.of_nat (length taken)))
                                         list_prev))
                   = Z.of_nat (length listed)).
  { rewrite Hlisted, length_app. lia. }
  rewrite Hcount.
  assert (Hbound : (length listed <= Z.to_nat amount)%nat).
  { subst listed. rewrite length_firstn. lia. }
  destruct (Z.ltb_spec (Z.of_nat (length listed)) amount) as [Hlt|Hge].
  - rewrite remove_last_played_songs_firstn. cbn [fst].
    replace (Z.to_nat (amount - Z.of_nat (length listed)))
      with (Z.to_nat amount - length listed)%nat by lia.
    reflexivity.
  - replace (Z.to_nat amount - length listed)%nat with 0%nat by lia.
    reflexivity.
Qed.

Lemma fold_remove_incl (songs library : list (WfSong D)) (other : WfSong D) :
  In other (fold_left (g_list_remove same_song) songs library) -> In other library.
Proof.
  revert library. induction songs as [|song songs IH]; intros library Hin.
  - exact Hin.
  - cbn [fold_left] in Hin. apply IH in Hin.
    exact (g_list_remove_incl _ _ _ Hin).
Qed.

Lemma fold_remove_length (songs library : list (WfSong D)) :
  (length library <= length songs
                     + length (fold_left (g_list_remove same_song) songs library))%nat
  /\ (length (fold_left (g_list_remove same_song) songs library) <= length library)%nat.
Proof.
  revert library. induction songs as [|song songs IH]; intros library.
  - cbn. lia.
  - cbn [fold_left length].
    pose proof (IH (g_list_remove same_song library song)) as [IH1 IH2].
    pose proof (g_list_remove_length library song) as [Hr1 Hr2]. lia.
Qed.

Lemma fold_remove_absent (songs library : list (WfSong D)) :
  (forall song, In song songs -> ~ In (song_ptr song) (map song_ptr library)) ->
  fold_left (g_list_remove same_song) songs library = library.
Proof.
  induction songs as [|song songs IH]; intros Habsent; [reflexivity|].
  cbn [fold_left]. rewrite g_list_remove_absent.
  - apply IH. intros s Hs. apply Habsent. right. exact Hs.
  - apply Habsent. left. reflexivity.
Qed.
End RemoveRecents.

(** X13.  [wf_intelligence_remove_recents] only takes songs away, and never
    more than [amount] of them; nothing at all when [amount] is 0 or less. *)
Theorem remove_recents_takes_at_most_amount :
  forall (D : Type) (Dops : GDouble D)
         (library list_prev list_next : list (WfSong D)) (amount : Z),
    let result := wf_intelligence_remove_recents library list_prev list_next amount in
    (forall song, In song result -> In song library)
    /\ Z.of_nat (length library) - Z.max 0 amount <= Z.of_nat (length result)
       <= Z.of_nat (length library)
    /\ (amount <= 0 -> result = library).
Proof.
  intros D Dops library list_prev list_next amount result.
  pose proof (remove_recents_two_stages library list_prev list_next amount) as Hstages.
  cbv zeta in Hstages. fold result in Hstages.
  set (listed := firstn (Z.to_nat amount) (list_next ++ list_prev)) in *.
  set (rest := fold_left (g_list_remove same_song) listed library) in *.
  set (played := firstn (Z.to_nat amount - length listed)
                   (filter (fun song => 0 <? wf_song_get_last_played song)
                      (g_list_sort wf_intelligence_sort_compare rest))) in *.
  assert (Hlisted : (length listed <= Z.to_nat amount)%nat).
  { subst listed. rewrite length_firstn. lia. }
  assert (Hplayed : (length played <= Z.to_nat amount - length listed)%nat).
  { subst played. rewrite length_firstn. lia. }
  split; [|split].
  - intros song Hin. rewrite Hstages in Hin.
    apply fold_remove_incl in Hin. apply fold_remove_incl in Hin. exact Hin.
  - pose proof (fold_remove_length listed library) as [Ha1 Ha2].
    pose proof (fold_remove_length played rest) as [Hb1 Hb2].
    fold rest in Ha1, Ha2. rewrite <- Hstages in Hb1, Hb2. lia.
  - intros Hle. rewrite Hstages. subst played rest listed.
    replace (Z.to_nat amount) with 0%nat by lia. reflexivity.
Qed.

(** X14.  While [amount] is at most the number of songs in the queue and
    the history, [wf_intelligence_remove_recents] hands exactly the first
    [amount] of them (the queue first) to [g_list_remove] and never looks
    at when a song was played; a listed song that is not in the library
    uses up its place all the same, so that nothing is removed when none of
    them is in the library. *)
Theorem remove_recents_from_queue_and_history :
  forall (D : Type) (Dops : GDouble D)
         (library list_prev list_next : list (WfSong D)) (amount : Z),
    0 <= amount <= Z.of_nat (length list_next + length list_prev) ->
    let listed := firstn (Z.to_nat amount) (list_next ++ list_prev) in
    wf_intelligence_remove_recents library list_prev list_next amount
    = fold_left (g_list_remove same_song) listed library
    /\ ((forall song, In song listed -> ~ In (song_ptr song) (map song_ptr library)) ->
        wf_intelligence_remove_recents library list_prev list_next amount = library).
Proof.
  intros D Dops library list_prev list_next amount Hamount listed.
  pose proof (remove_recents_two_stages library list_prev list_next amount) as Hstages.
  cbv zeta in Hstages. fold listed in Hstages.
  assert (Hlen : length listed = Z.to_nat amount).
  { subst listed. rewrite length_firstn, length_app. lia. }
  rewrite Hlen, Nat.sub_diag in Hstages. cbn [firstn fold_left] in Hstages.
  split; [exact Hstages|].
  intros Habsent. rewrite Hstages. apply fold_remove_absent. exact Habsent.
Qed.

Lemma remove_recents_from_queue_and_history_witness :
  wf_intelligence_remove_recents
    [example_song (D:=Q) 1 0 (inject_Z 50) 1 0 10;
     example_song 2 0 (inject_Z 50) 1 0 30;
     example_song 3 0 (inject_Z 50) 1 0 20]
    [example_song 9 0 (inject_Z 50) 1 0 40]
    [example_song 2 0 (inject_Z 50) 1 0 30] 2
  = fold_left (g_list_remove same_song)
      (firstn (Z.to_nat 2)
         ([example_song 2 0 (inject_Z 50) 1 0 30]
          ++ [example_song 9 0 (inject_Z 50) 1 0 40]))
      [example_song 1 0 (inject_Z 50) 1 0 10;
       example_song 2 0 (inject_Z 50) 1 0 30;
       example_song 3 0 (inject_Z 50) 1 0 20].
Proof.
  refine (proj1 (remove_recents_from_queue_and_history Q exact_rational
    [example_song 1 0 (inject_Z 50) 1 0 10;
     example_song 2 0 (inject_Z 50) 1 0 30;
     example_song 3 0 (inject_Z 50) 1 0 20]
    [example_song 9 0 (inject_Z 50) 1 0 40]
    [example_song 2 0 (inject_Z 50) 1 0 30] 2 _)).
  cbn. lia.
Defined.

Section RecentsOrder.
Context {D : Type} `{GDouble D}.

Lemma g_list_remove_ptr_incl (l : list (WfSong D)) (song : WfSong D) (p : positive) :
  In p (map song_ptr (g_list_remove same_song l song)) -> In p (map song_ptr l).
Proof.
  induction l as [|y l IH]; cbn [g_list_remove map In]; [tauto|].
  destruct (same_song y song); cbn [map In]; tauto.
Qed.

Lemma g_list_remove_NoDup (l : list (WfSong D)) (song : WfSong D) :
  NoDup (map song_ptr l) -> NoDup (map song_ptr (g_list_remove same_song l song)).
Proof.
  induction l as [|y l IH]; cbn [g_list_remove map]; intros Hnodup; [exact Hnodup|].
  inversion Hnodup as [|p ps Hnotin Hrest]; subst.
  destruct (same_song y song); [exact Hrest|].
  cbn [map]. constructor; [|exact (IH Hrest)].
  intros Hin. apply Hnotin. exact (g_list_remove_ptr_incl _ _ _ Hin).
Qed.

(** In a list without repeated address [g_list_remove] takes out the song
    of that address and nothing else. *)
Lemma g_list_remove_In (l : list (WfSong D)) (song other : WfSong D) :
  NoDup (map song_ptr l) ->
  In other (g_list_remove same_song l song)
  <-> In other l /\ song_ptr other <> song_ptr song.
Proof.
  induction l as [|y l IH]; cbn [g_list_remove map]; intros Hnodup.
  - cbn [In]. tauto.
  - inversion Hnodup as [|p ps Hnotin Hrest]; subst.
    destruct (same_song y song) eqn:E.
    + apply same_song_ptr in E. cbn [In]. split.
      * intros Hin. split; [right; exact Hin|].
        intros Heq. apply Hnotin. rewrite E, <- Heq. apply in_map. exact Hin.
      * intros [[Heq|Hin] Hneq]; [subst y; congruence|exact Hin].
    + assert (Hneq : song_ptr y <> song_ptr song).
      { intros Heq. apply same_song_ptr in Heq. congruence. }
      cbn [In]. rewrite (IH Hrest). split.
      * intros [Heq|[Hin Hn]]; [subst y; tauto|tauto].
      * tauto.
Qed.

Lemma fold_remove_NoDup (songs library : list (WfSong D)) :
  NoDup (map song_ptr library) ->
  NoDup (map song_ptr (fold_left (g_list_remove same_song) songs library)).
Proof.
  revert library. induction songs as [|song songs IH]; intros library Hnodup.
  - exact Hnodup.
  - cbn [fold_left]. apply IH. apply g_list_remove_NoDup. exact Hnodup.
Qed.

Lemma fold_remove_In (songs library : list (WfSong D)) (other : WfSong D) :
  NoDup (map song_ptr library) ->
  In other (fold_left (g_list_remove same_song) songs library)
  <-> In other library /\ ~ In (song_ptr other) (map song_ptr songs).
Proof.
  revert library. induction songs as [|song songs IH]; intros library Hnodup.
  - cbn [fold_left map In]. tauto.
  - cbn [fold_left map In].
    rewrite (IH _ (g_list_remove_NoDup library song Hnodup)).
    rewrite (g_list_remove_In library song other Hnodup).
    split.
    + intros [[Hin Hneq] Hnot]. split; [exact Hin|].
      intros [Heq|Hin']; [congruence|contradiction].
    + intros [Hin Hnot]. split; [split; [exact Hin|]|].
      * intros Heq. apply Hnot. left. symmetry. exact Heq.
      * intros Hin'. apply Hnot. right. exact Hin'.
Qed.

(** Two songs of a list without repeated address that have the same address
    are the same song. *)
Lemma NoDup_ptr_same (l : list (WfSong D)) (a b : WfSong D) :
  NoDup (map song_ptr l) -> In a l -> In b l -> song_ptr a = song_ptr b -> a = b.
Proof.
  induction l as [|y l IH]; cbn [map In]; intros Hnodup Ha Hb Heq; [contradiction|].
  inversion Hnodup as [|p ps Hnotin Hrest]; subst.
  destruct Ha as [Ha|Ha], Hb as [Hb|Hb].
  - congruence.
  - subst y. exfalso. apply Hnotin. rewrite Heq. apply in_map. exact Hb.
  - subst y. exfalso. apply Hnotin. rewrite <- Heq. apply in_map. exact Ha.
  - exact (IH Hrest Ha Hb Heq).
Qed.

Lemma g_list_insert_sorted_In {A : Type} (cmp : A -> A -> Z) (x : A) (l : list A) (y : A) :
  In y (g_list_insert_sorted cmp x l) <-> y = x \/ In y l.
Proof.
  induction l as [|z l IH]; cbn [g_list_insert_sorted].
  - cbn [In]. intuition congruence.
  - destruct (0 <? cmp x z); cbn [In]; [rewrite IH|]; intuition congruence.
Qed.

Lemma g_list_sort_In {A : Type} (cmp : A -> A -> Z) (l : list A) (y : A) :
  In y (g_list_sort cmp l) <-> In y l.
Proof.
  induction l as [|x l IH]; [reflexivity|].
  unfold g_list_sort in *. cbn [fold_right].
  rewrite g_list_insert_sorted_In, IH. cbn [In]. intuition congruence.
Qed.

(** [g_list_sort] with [wf_intelligence_sort_compare] puts valid songs in
    the order of their last played time, the latest first. *)
Lemma sort_compare_insert_ordered (x : WfSong D) (l : list (WfSong D)) :
  wf_song_is_valid x = true ->
  Forall (fun song => wf_song_is_valid song = true) l ->
  ForallOrdPairs (fun a b => song_lastplayed b <= song_lastplayed a) l ->
  ForallOrdPairs (fun a b => song_lastplayed b <= song_lastplayed a)
    (g_list_insert_sorted wf_intelligence_sort_compare x l).
Proof.
  intros Hx Hvalid Hord. induction Hord as [|y l Hy Hl IH].
  - cbn. constructor; [constructor|constructor].
  - inversion Hvalid as [|y' l' Hvy Hvl]; subst.
    cbn [g_list_insert_sorted].
    assert (Hcmp : (0 <? wf_intelligence_sort_compare x y)
                   = (song_lastplayed x <? song_lastplayed y)).
    { unfold wf_intelligence_sort_compare, wf_song_get_last_played.
      rewrite Hx, Hvy. cbn [negb andb].
      destruct (Z.ltb_spec (song_lastplayed y) (song_lastplayed x));
        destruct (Z.ltb_spec (song_lastplayed x) (song_lastplayed y));
        (reflexivity || lia). }
    rewrite Hcmp. destruct (Z.ltb_spec (song_lastplayed x) (song_lastplayed y)).
    + constructor; [|exact (IH Hvl)].
      apply Forall_forall. intros z Hz. apply g_list_insert_sorted_In in Hz.
      destruct Hz as [Hz|Hz]; [subst z; lia|].
      rewrite Forall_forall in Hy. exact (Hy z Hz).
    + constructor; [|constructor; assumption].
      constructor; [exact H0|].
      rewrite Forall_forall in Hy. apply Forall_forall. intros z Hz.
      specialize (Hy z Hz). cbv beta in Hy. lia.
Qed.

Lemma sort_compare_ordered (l : list (WfSong D)) :
  Forall (fun song => wf_song_is_valid song = true) l ->
  ForallOrdPairs (fun a b => song_lastplayed b <= song_lastplayed a)
    (g_list_sort wf_intelligence_sort_compare l).
Proof.
  induction l as [|x l IH]; intros Hvalid; [constructor|].
  inversion Hvalid as [|x' l' Hx Hl]; subst.
  unfold g_list_sort in *. cbn [fold_right].
  apply sort_compare_insert_ordered; [exact Hx| |exact (IH Hl)].
  apply Forall_forall. intros z Hz.
  rewrite Forall_forall in Hl. apply Hl.
  exact (proj1 (g_list_sort_In wf_intelligence_sort_compare l z) Hz).
Qed.

Lemma ordered_filter {A : Type} (R : A -> A -> Prop) (keep : A -> bool) (l : list A) :
  ForallOrdPairs R l -> ForallOrdPairs R (filter keep l).
Proof.
  induction 1 as [|a l Ha Hl IH]; cbn [filter]; [constructor|].
  destruct (keep a); [|exact IH].
  constructor; [|exact IH].
  rewrite Forall_forall in Ha. apply Forall_forall.
  intros b Hb. apply filter_In in Hb. apply Ha. tauto.
Qed.

Lemma firstn_In {A : Type} (n : nat) (l : list A) (x : A) :
  In x (firstn n l) -> In x l.
Proof.
  revert n. induction l as [|y l IH]; intros [|n]; cbn [firstn In]; try tauto.
  intros [Heq|Hin]; [left; exact Heq|right; exact (IH n Hin)].
Qed.

Lemma ordered_front_back {A : Type} (R : A -> A -> Prop) (n : nat) (l : list A)
    (a b : A) :
  ForallOrdPairs R l -> In a (firstn n l) -> In b l -> ~ In b (firstn n l) -> R a b.
Proof.
  intros Hord. revert n. induction Hord as [|x l Hx Hl IH]; intros n Ha Hb Hnb.
  - contradiction.
  - destruct n as [|n]; [contradiction|].
    cbn [firstn In] in Ha, Hnb. cbn [In] in Hb.
    destruct Hb as [Hb|Hb]; [tauto|].
    destruct Ha as [Ha|Ha].
    + subst x. rewrite Forall_forall in Hx. exact (Hx b Hb).
    + apply (IH n Ha Hb). tauto.
Qed.

(** What stays after [wf_intelligence_remove_recents], for a library
    without repeated song. *)
Lemma remove_recents_In (library list_prev list_next : list (WfSong D))
    (amount : Z) (song : WfSong D) :
  NoDup (map song_ptr library) ->
  let listed := firstn (Z.to_nat amount) (list_next ++ list_prev) in
  let rest := fold_left (g_list_remove same_song) listed library in
  let played :=
    firstn (Z.to_nat amount - length listed)
      (filter (fun song => 0 <? wf_song_get_last_played song)
         (g_list_sort wf_intelligence_sort_compare rest)) in
  (In song rest <-> In song library /\ ~ In (song_ptr song) (map song_ptr listed))
  /\ (In song (wf_intelligence_remove_recents library list_prev list_next amount)
      <-> In song rest /\ ~ In (song_ptr song) (map song_ptr played))
  /\ (In song rest -> In (song_ptr song) (map song_ptr played) -> In song played).
Proof.
  intros Hnodup listed rest played.
  assert (Hrest : forall s, In s rest
                  <-> In s library /\ ~ In (song_ptr s) (map song_ptr listed)).
  { intros s. apply fold_remove_In. exact Hnodup. }
  split; [apply Hrest|].
  pose proof (remove_recents_two_stages library list_prev list_next amount) as Hstages.
  cbv zeta in Hstages. fold listed rest played in Hstages. rewrite Hstages.
  assert (Hnodup' : NoDup (map song_ptr rest)).
  { apply fold_remove_NoDup. exact Hnodup. }
  split; [exact (fold_remove_In played rest song Hnodup')|].
  intros Hin Hp. apply in_map_iff in Hp. destruct Hp as [other [Heq Hother]].
  assert (Hother' : In other rest).
  { subst played. apply firstn_In in Hother. apply filter_In in Hother.
    apply (g_list_sort_In wf_intelligence_sort_compare). tauto. }
  rewrite (NoDup_ptr_same rest song other Hnodup' Hin Hother' (eq_sym Heq)).
  exact Hother.
Qed.
End RecentsOrder.

(** X15.  Beyond the queue and the history, [wf_intelligence_remove_recents]
    removes the most recently played songs first: in a library of valid
    songs without repeated song, no song it keeps has been played later
    than a song it removes that is not among the listed ones. *)
Theorem remove_recents_latest_first :
  forall (D : Type) (Dops : GDouble D)
         (library list_prev list_next : list (WfSong D)) (amount : Z)
         (removed kept : WfSong D),
    NoDup (map song_ptr library) ->
    (forall song, In song library -> wf_song_is_valid song = true) ->
    let result := wf_intelligence_remove_recents library list_prev list_next amount in
    In removed library ->
    ~ In (song_ptr removed)
         (map song_ptr (firstn (Z.to_nat amount) (list_next ++ list_prev))) ->
    ~ In removed result ->
    In kept result ->
    song_lastplayed kept <= song_lastplayed removed.
Proof.
  intros D Dops library list_prev list_next amount removed kept Hnodup Hvalid result
    Hin Hlisted Hgone Hkept.
  pose proof (remove_recents_In library list_prev list_next amount removed Hnodup)
    as [Hrest_r [Hres_r Hsame_r]].
  pose proof (remove_recents_In library list_prev list_next amount kept Hnodup)
    as [Hrest_k [Hres_k Hsame_k]].
  cbv zeta in Hrest_r, Hres_r, Hsame_r, Hrest_k, Hres_k, Hsame_k.
  fold result in Hres_r, Hres_k.
  set (listed := firstn (Z.to_nat amount) (list_next ++ list_prev)) in *.
  set (rest := fold_left (g_list_remove same_song) listed library) in *.
  set (sorted := filter (fun song => 0 <? wf_song_get_last_played song)
                   (g_list_sort wf_intelligence_sort_compare rest)) in *.
  assert (Hr : In removed rest) by (apply Hrest_r; tauto).
  assert (Hrp : In removed (firstn (Z.to_nat amount - length listed) sorted)).
  { apply (Hsame_r Hr).
    destruct (in_dec Pos.eq_dec (song_ptr removed)
                (map song_ptr (firstn (Z.to_nat amount - length listed) sorted)))
      as [Hyes|Hno]; [exact Hyes|].
    exfalso. apply Hgone. apply Hres_r. tauto. }
  destruct (proj1 Hres_k Hkept) as [Hk Hkp'].
  assert (Hkp : ~ In kept (firstn (Z.to_nat amount - length listed) sorted)).
  { intros Hp. apply Hkp'. apply in_map. exact Hp. }
  assert (Hplayed : 0 < song_lastplayed removed).
  { apply firstn_In in Hrp. subst sorted. apply filter_In in Hrp.
    destruct Hrp as [_ Hlt]. apply Z.ltb_lt in Hlt. exact Hlt. }
  destruct (Z.leb_spec (song_lastplayed kept) 0) as [Hnever|Hlater]; [lia|].
  assert (Hks : In kept sorted).
  { subst sorted. apply filter_In. split.
    - apply (g_list_sort_In wf_intelligence_sort_compare). exact Hk.
    - apply Z.ltb_lt. exact Hlater. }
  assert (Hord : ForallOrdPairs (fun a b => song_lastplayed b <= song_lastplayed a)
                   sorted).
  { subst sorted. apply ordered_filter. apply sort_compare_ordered.
    apply Forall_forall. intros s Hs. apply Hvalid.
    exact (fold_remove_incl _ _ _ Hs). }
  exact (ordered_front_back _ _ _ _ _ Hord Hrp Hks Hkp).
Qed.

Lemma remove_recents_latest_first_witness :
  song_lastplayed (example_song (D:=Q) 3 0 (inject_Z 50) 1 0 20)
  <= song_lastplayed (example_song (D:=Q) 2 0 (inject_Z 50) 1 0 30).
Proof.
  apply (remove_recents_latest_first Q exact_rational
           [example_song 1 0 (inject_Z 50) 1 0 10;
            example_song 2 0 (inject_Z 50) 1 0 30;
            example_song 3 0 (inject_Z 50) 1 0 20] [] [] 1).
  - cbn. repeat constructor; cbn; intuition discriminate.
  - intros song Hin. cbn in Hin.
    destruct Hin as [Hs|[Hs|[Hs|Hs]]]; [subst song; reflexivity ..|contradiction].
  - cbn. tauto.
  - cbn. tauto.
  - vm_compute. intuition discriminate.
  - vm_compute. tauto.
Defined.

(** X16.  [wf_intelligence_remove_recents] keeps every song that was never
    played (last played 0) and is not among the listed songs of the queue
    and the history, however large [amount] is, in a library without
    repeated song. *)
Theorem remove_recents_spares_never_played :
  forall (D : Type) (Dops : GDouble D)
         (library list_prev list_next : list (WfSong D)) (amount : Z)
         (song : WfSong D),
    NoDup (map song_ptr library) ->
    In song library ->
    ~ In (song_ptr song)
         (map song_ptr (firstn (Z.to_nat amount) (list_next ++ list_prev))) ->
    song_lastplayed song <= 0 ->
    In song (wf_intelligence_remove_recents library list_prev list_next amount).
Proof.
  intros D Dops library list_prev list_next amount song Hnodup Hin Hlisted Hnever.
  pose proof (remove_recents_In library list_prev list_next amount song Hnodup)
    as [Hrest [Hres Hsame]].
  cbv zeta in Hrest, Hres, Hsame.
  apply Hres. assert (Hr := proj2 Hrest (conj Hin Hlisted)).
  split; [exact Hr|].
  intros Hp. apply (Hsame Hr) in Hp. apply firstn_In in Hp.
  apply filter_In in Hp. destruct Hp as [_ Hlt].
  apply Z.ltb_lt in Hlt. unfold wf_song_get_last_played in Hlt. lia.
Qed.

Lemma remove_recents_spares_never_played_witness :
  In (example_song (D:=Q) 3 0 (inject_Z 50) 0 0 0)
     (wf_intelligence_remove_recents
        [example_song 1 0 (inject_Z 50) 1 0 10;
         example_song 2 0 (inject_Z 50) 1 0 30;
         example_song 3 0 (inject_Z 50) 0 0 0] [] [] 3).
Proof.
  apply (remove_recents_spares_never_played Q exact_rational).
  - cbn. repeat constructor; cbn; intuition discriminate.
  - cbn. tauto.
  - cbn. tauto.
  - cbn. lia.
Defined.

Section FilterPipeline.
Context {D : Type} `{GDouble D}.

(** The songs that reach the recency stage of [wf_intelligence_filter], for
    a library without repeated song. *)
Lemma songs_before_recents_In (available_songs : list (WfSong D))
    (recent_artists : list Z) (filter : WfSongFilter D) (time : Z) (song : WfSong D) :
  NoDup (map song_ptr available_songs) ->
  In song (songs_before_recents available_songs recent_artists filter time)
  <-> In song available_songs
      /\ song_status song = WF_SONG_AVAILABLE
      /\ (wf_song_get_artist_hash song = 0
          \/ ~ In (wf_song_get_artist_hash song)
                 (firstn (Z.to_nat (filter_recent_artists filter)) recent_artists))
      /\ song_filtered_by_stats filter time song = false.
Proof.
  intros Hnodup. unfold songs_before_recents. cbv zeta.
  unfold wf_intelligence_filter_by_stats.
  rewrite filter_In, negb_true_iff.
  rewrite (remove_invalid_songs_filter available_songs Hnodup).
  rewrite remove_songs_with_artists_filter
    by (apply NoDup_ptr_filter; exact Hnodup).
  rewrite !filter_In. unfold wf_song_get_status.
  assert (Hstatus : WfSongStatus_eqb (song_status song) WF_SONG_AVAILABLE = true
                    <-> song_status song = WF_SONG_AVAILABLE).
  { destruct (song_status song); cbn; split; intros Heq;
      (reflexivity || discriminate). }
  assert (Hartist :
    negb (negb (wf_song_get_artist_hash song =? 0)
          && existsb (Z.eqb (wf_song_get_artist_hash song))
               (firstn (Z.to_nat (filter_recent_artists filter)) recent_artists))
    = true
    <-> wf_song_get_artist_hash song = 0
        \/ ~ In (wf_song_get_artist_hash song)
               (firstn (Z.to_nat (filter_recent_artists filter)) recent_artists)).
  { rewrite negb_true_iff, andb_false_iff, negb_false_iff, Z.eqb_eq.
    split; (intros [Hzero|Hnone]; [left; exact Hzero|right]).
    - intros Hrecent.
      assert (Hex : existsb (Z.eqb (wf_song_get_artist_hash song))
                      (firstn (Z.to_nat (filter_recent_artists filter)) recent_artists)
                    = true).
      { apply existsb_exists. exists (wf_song_get_artist_hash song).
        split; [exact Hrecent|apply Z.eqb_refl]. }
      congruence.
    - destruct (existsb (Z.eqb (wf_song_get_artist_hash song))
                  (firstn (Z.to_nat (filter_recent_artists filter)) recent_artists))
        eqn:E; [|reflexivity].
      apply existsb_exists in E. destruct E as [hash [Hin Heq]].
      apply Z.eqb_eq in Heq. subst hash. contradiction. }
  rewrite Hstatus, Hartist. tauto.
Qed.

(** With a filter, [wf_intelligence_filter] is the recency stage applied to
    the songs that pass the other stages. *)
Lemma wf_intelligence_filter_stages
    (available_songs previous_songs play_next : list (WfSong D))
    (recent_artists : list Z) (filter : WfSongFilter D) (time : Z) :
  wf_intelligence_filter available_songs previous_songs play_next recent_artists
    (Some filter) time
  = wf_intelligence_remove_recents
      (songs_before_recents available_songs recent_artists filter time)
      previous_songs play_next
      (remove_recent_amount available_songs recent_artists filter time).
Proof.
  unfold wf_intelligence_filter.
  destruct available_songs as [|first others]; [reflexivity|].
  cbv zeta.
  destruct (wf_intelligence_remove_recents _ _ _ _); reflexivity.
Qed.

Lemma remove_recents_incl (library list_prev list_next : list (WfSong D))
    (amount : Z) (song : WfSong D) :
  In song (wf_intelligence_remove_recents library list_prev list_next amount) ->
  In song library.
Proof.
  pose proof (remove_recents_two_stages library list_prev list_next amount) as Hstages.
  cbv zeta in Hstages. rewrite Hstages. intros Hin.
  apply fold_remove_incl in Hin. apply fold_remove_incl in Hin. exact Hin.
Qed.
End FilterPipeline.

(** X17.  Every song that [wf_intelligence_filter] returns for a filter is
    a song of the library that is available, has no artist among the recent
    ones that count, and passes the statistic filters; and the recency stage
    takes at most [remove_recent] songs away from those that pass. *)
Theorem filter_returns_passing_songs :
  forall (D : Type) (Dops : GDouble D)
         (available_songs previous_songs play_next : list (WfSong D))
         (recent_artists : list Z) (filter : WfSongFilter D) (time : Z),
    NoDup (map song_ptr available_songs) ->
    let result :=
      wf_intelligence_filter available_songs previous_songs play_next
        recent_artists (Some filter) time in
    (forall song,
       In song result ->
       In song available_songs
       /\ song_status song = WF_SONG_AVAILABLE
       /\ (wf_song_get_artist_hash song = 0
           \/ ~ In (wf_song_get_artist_hash song)
                  (firstn (Z.to_nat (filter_recent_artists filter)) recent_artists))
       /\ song_filtered_by_stats filter time song = false)
    /\ Z.of_nat (length (songs_before_recents available_songs recent_artists filter time))
       - Z.max 0 (remove_recent_amount available_songs recent_artists filter time)
       <= Z.of_nat (length result).
Proof.
  intros D Dops available_songs previous_songs play_next recent_artists filter time
    Hnodup result.
  assert (Hresult := wf_intelligence_filter_stages available_songs previous_songs
                       play_next recent_artists filter time).
  fold result in Hresult.
  set (before := songs_before_recents available_songs recent_artists filter time) in *.
  set (amount := remove_recent_amount available_songs recent_artists filter time) in *.
  split.
  - intros song Hin. rewrite Hresult in Hin. apply remove_recents_incl in Hin.
    apply (songs_before_recents_In available_songs recent_artists filter time song
             Hnodup).
    exact Hin.
  - pose proof (remove_recents_two_stages before previous_songs play_next amount)
      as Hstages.
    cbv zeta in Hstages. rewrite <- Hresult in Hstages.
    set (listed := firstn (Z.to_nat amount) (play_next ++ previous_songs)) in *.
    set (rest := fold_left (g_list_remove same_song) listed before) in *.
    set (played := firstn (Z.to_nat amount - length listed)
                     (List.filter (fun song => 0 <? wf_song_get_last_played song)
                        (g_list_sort wf_intelligence_sort_compare rest))) in *.
    assert (Hlisted : (length listed <= Z.to_nat amount)%nat).
    { subst listed. rewrite length_firstn. lia. }
    assert (Hplayed : (length played <= Z.to_nat amount - length listed)%nat).
    { subst played. rewrite length_firstn. lia. }
    pose proof (fold_remove_length listed before) as [Ha1 Ha2].
    pose proof (fold_remove_length played rest) as [Hb1 Hb2].
    fold rest in Ha1, Ha2. rewrite <- Hstages in Hb1, Hb2. lia.
Qed.

Lemma filter_returns_passing_songs_witness :
  Z.of_nat (length (songs_before_recents (D:=Q) library_of_ten [] filter_score_and_half 0))
  - Z.max 0 (remove_recent_amount library_of_ten [] filter_score_and_half 0)
  <= Z.of_nat (length (wf_intelligence_filter library_of_ten [] [] []
                         (Some filter_score_and_half) 0)).
Proof.
  refine (proj2 (filter_returns_passing_songs Q exact_rational library_of_ten [] [] []
                   filter_score_and_half 0 _)).
  cbn. repeat constructor; cbn; intuition discriminate.
Defined.

Section SongChoice.
Context {D : Type} `{GDouble D}.

Lemma entry_of_song_In (container : WfIntelligenceContainer) (current_time : Z)
    (songs : list (WfSong D)) (song : WfSong D) (entries : Z) :
  In (song, entries) (flat_map (entry_of_song container current_time) songs)
  <-> In song songs
      /\ 0 <= song_entries container current_time song
      /\ entries = (if song_entries container current_time song =? 0 then 1
                    else song_entries container current_time song).
Proof.
  rewrite in_flat_map. unfold entry_of_song. split.
  - intros [s [Hs Hin]].
    destruct (Z.ltb_spec (song_entries container current_time s) 0) as [Hneg|Hpos];
      [contradiction|].
    destruct Hin as [Heq|[]]. inversion Heq; subst. tauto.
  - intros [Hs [Hpos Hentries]]. exists song. split; [exact Hs|].
    destruct (Z.ltb_spec (song_entries container current_time song) 0); [lia|].
    left. subst entries. reflexivity.
Qed.

(** With preferences [wf_intelligence_get_song] is the draw of
    [wf_intelligence_pick_winner] from what
    [wf_intelligence_calculate_song_entries] returns. *)
Lemma get_song_with_preferences (songs : list (WfSong D))
    (preferences : WfSongEntries D) (current_time value : Z) :
  let container := snd (wf_intelligence_determine_modifiers (Some preferences)) in
  wf_intelligence_get_song songs (Some preferences) current_time value
  = wf_intelligence_pick_winner
      (fst (wf_intelligence_calculate_song_entries container songs current_time))
      (snd (wf_intelligence_calculate_song_entries container songs current_time))
      value.
Proof.
  intros container.
  unfold wf_intelligence_get_song. destruct songs as [|song songs']; [reflexivity|].
  subst container.
  destruct (wf_intelligence_determine_modifiers (Some preferences))
    as [ok container] eqn:Emod.
  assert (Hok : ok = true).
  { unfold wf_intelligence_determine_modifiers in Emod.
    apply (f_equal fst) in Emod. cbn [fst] in Emod. symmetry. exact Emod. }
  subst ok. cbn [negb snd].
  destruct (wf_intelligence_calculate_song_entries container (song :: songs')
              current_time) as [container' dlist']. reflexivity.
Qed.

(** The draw fails when the [gint] sum of the entries is not positive, and
    returns a song of the list of entries when it is. *)
Lemma get_song_is_draw (songs : list (WfSong D)) (preferences : WfSongEntries D)
    (current_time value : Z) :
  let container := snd (wf_intelligence_determine_modifiers (Some preferences)) in
  let dlist := flat_map (entry_of_song container current_time) songs in
  (gint_wrap (sum_entries dlist) <= 0 ->
     wf_intelligence_get_song songs (Some preferences) current_time value = None)
  /\ (0 < gint_wrap (sum_entries dlist) ->
        exists before song entries after,
          dlist = before ++ (song, entries) :: after
          /\ wf_intelligence_get_song songs (Some preferences) current_time value
             = Some song).
Proof.
  intros container dlist.
  pose proof (get_song_with_preferences songs preferences current_time value) as Hget.
  cbv zeta in Hget. fold container in Hget.
  pose proof (calculate_song_entries_result container songs current_time)
    as [Hnone Hsome].
  cbv zeta in Hnone, Hsome. fold dlist in Hnone, Hsome.
  split.
  - intros Hle. rewrite Hget, (Hnone Hle). reflexivity.
  - intros Hpos. destruct (Hsome Hpos) as [Hlist Htotal].
    pose proof (entry_of_song_positive container current_time songs) as Hall.
    fold dlist in Hall.
    pose proof (gint_wrap_below (sum_entries dlist)
                  (sum_entries_not_negative dlist Hall) Hpos) as Hbelow.
    destruct (pick_winner_within
                (fst (wf_intelligence_calculate_song_entries container songs
                        current_time)) dlist value Hall)
      as [_ [before [song [entries [after [Hsplit [Hwin _]]]]]]].
    { rewrite Htotal. lia. }
    exists before, song, entries, after.
    rewrite Hget, Hlist. split; [exact Hsplit|exact Hwin].
Qed.

(** The song returned has an entry in the list. *)
Lemma get_song_winner_listed (songs : list (WfSong D)) (preferences : WfSongEntries D)
    (current_time value : Z) (winner : WfSong D) :
  wf_intelligence_get_song songs (Some preferences) current_time value = Some winner ->
  exists entries,
    In (winner, entries)
       (flat_map
          (entry_of_song (snd (wf_intelligence_determine_modifiers (Some preferences)))
             current_time) songs).
Proof.
  intros Hget.
  destruct (get_song_is_draw songs preferences current_time value) as [Hnone Hdraw].
  cbv zeta in Hnone, Hdraw.
  set (dlist := flat_map
                  (entry_of_song
                     (snd (wf_intelligence_determine_modifiers (Some preferences)))
                     current_time) songs) in *.
  destruct (Z.leb_spec (gint_wrap (sum_entries dlist)) 0) as [Hle|Hpos].
  - rewrite (Hnone Hle) in Hget. discriminate.
  - destruct (Hdraw Hpos) as [before [song [entries [after [Hsplit Hwin]]]]].
    rewrite Hwin in Hget. inversion Hget; subst song.
    exists entries. rewrite Hsplit. apply in_or_app. right. left. reflexivity.
Qed.

Lemma pick_winner_loop_single_entries (songs : list (WfSong D)) (rand sum : Z) :
  sum < rand ->
  pick_winner_loop (map (fun song => (song, 1)) songs) rand sum
  = nth_error songs (Z.to_nat (rand - sum - 1)).
Proof.
  revert sum. induction songs as [|song songs IH]; intros sum Hlt.
  - cbn. destruct (Z.to_nat (rand - sum - 1)); reflexivity.
  - cbn [map pick_winner_loop]. change (1 <=? 0) with false. cbv iota zeta.
    destruct (Z.leb_spec rand (sum + 1)) as [Hle|Hgt].
    + replace (Z.to_nat (rand - sum - 1)) with 0%nat by lia. reflexivity.
    + rewrite IH by lia.
      replace (Z.to_nat (rand - sum - 1)) with (S (Z.to_nat (rand - (sum + 1) - 1)))
        by lia.
      reflexivity.
Qed.
End SongChoice.

(** X18.  The song [wf_intelligence_get_song] returns is one of the songs
    it was given, and one whose modifiers do not sum to a negative number:
    a disqualified song is never chosen. *)
Theorem get_song_winner_qualifies :
  forall (D : Type) (Dops : GDouble D) (songs : list (WfSong D))
         (preferences : option (WfSongEntries D)) (current_time value : Z)
         (winner : WfSong D),
    wf_intelligence_get_song songs preferences current_time value = Some winner ->
    In winner songs
    /\ 0 <= song_entries (snd (wf_intelligence_determine_modifiers preferences))
              current_time winner.
Proof.
  intros D Dops songs preferences current_time value winner Hget.
  destruct preferences as [preferences|].
  2:{ unfold wf_intelligence_get_song in Hget.
      destruct songs; cbn in Hget; discriminate. }
  destruct (get_song_winner_listed songs preferences current_time value winner Hget)
    as [entries Hin].
  apply entry_of_song_In in Hin. tauto.
Qed.

Lemma get_song_winner_qualifies_witness :
  In (song_A (D:=Q)) [song_A; song_B; song_C]
  /\ 0 <= song_entries
            (snd (wf_intelligence_determine_modifiers (Some entries_rating_only)))
            0 song_A.
Proof.
  apply (get_song_winner_qualifies Q exact_rational [song_A; song_B; song_C]
           (Some entries_rating_only) 0 0 song_A).
  vm_compute. reflexivity.
Defined.

(** X19.  With preferences, [wf_intelligence_get_song] fails exactly when
    the sum of the entries, as the [gint] [full_sum] holds it, is not
    positive, whatever number is drawn.  While the sum of the entries fits a
    [gint] that is exactly when every song it is given is disqualified; and
    it fails too when the sum wraps: with the default modifiers, 21475
    unrated songs that were never played and one played just now, no song
    is disqualified and no song is returned (binary64). *)
Theorem get_song_fails_when_sum_not_positive :
  (forall (D : Type) (Dops : GDouble D) (songs : list (WfSong D))
          (preferences : WfSongEntries D) (current_time value : Z),
      let container := snd (wf_intelligence_determine_modifiers (Some preferences)) in
      let entries := flat_map (entry_of_song container current_time) songs in
      (wf_intelligence_get_song songs (Some preferences) current_time value = None
       <-> gint_wrap (sum_entries entries) <= 0)
      /\ (sum_entries entries <= G_MAXINT ->
          (wf_intelligence_get_song songs (Some preferences) current_time value = None
           <-> forall song, In song songs ->
                 song_entries container current_time song < 0)))
  /\ (let now := 2000000000 in
      let songs :=
        never_played_songs 21475
        ++ [example_song (D:=float) 21476 0 (b64_of_Z 0) 1 0 now] in
      forallb
        (fun song =>
           0 <=? song_entries
                   (snd (wf_intelligence_determine_modifiers
                           (Some default_song_entries))) now song)
        songs = true
      /\ forall value,
           wf_intelligence_get_song songs (Some default_song_entries) now value
           = None).
Proof.
  assert (Hgen : forall (D : Type) (Dops : GDouble D) (songs : list (WfSong D))
                        (preferences : WfSongEntries D) (current_time value : Z),
            wf_intelligence_get_song songs (Some preferences) current_time value = None
            <-> gint_wrap
                  (sum_entries
                     (flat_map
                        (entry_of_song
                           (snd (wf_intelligence_determine_modifiers (Some preferences)))
                           current_time) songs)) <= 0).
  { intros D Dops songs preferences current_time value.
    destruct (get_song_is_draw songs preferences current_time value) as [Hnone Hdraw].
    cbv zeta in Hnone, Hdraw. split; [|exact Hnone].
    intros Hfail.
    destruct (Z.leb_spec
                (gint_wrap
                   (sum_entries
                      (flat_map
                         (entry_of_song
                            (snd (wf_intelligence_determine_modifiers
                                    (Some preferences))) current_time) songs))) 0)
      as [Hle|Hpos]; [exact Hle|].
    destruct (Hdraw Hpos) as [before [song [n [after [_ Hwin]]]]]. congruence. }
  split.
  - intros D Dops songs preferences current_time value container entries.
    split; [apply Hgen|].
    intros Hfits. rewrite (Hgen D Dops songs preferences current_time value).
    fold container. fold entries.
    pose proof (entry_of_song_positive container current_time songs) as Hall.
    fold entries in Hall.
    pose proof (sum_entries_not_negative entries Hall) as Hnonneg.
    rewrite gint_wrap_small by lia.
    split.
    + intros Hle song Hin.
      destruct (Z.ltb_spec (song_entries container current_time song) 0)
        as [Hneg|Hpos]; [exact Hneg|].
      exfalso.
      assert (Hitem : In (song, if song_entries container current_time song =? 0
                                then 1
                                else song_entries container current_time song)
                        entries).
      { apply entry_of_song_In. tauto. }
      assert (1 <= sum_entries entries).
      { apply sum_entries_positive; [exact Hall|].
        intros Hnil. rewrite Hnil in Hitem. contradiction. }
      lia.
    + intros Hdis.
      destruct entries as [|[song n] rest] eqn:E; [reflexivity|].
      exfalso.
      assert (Hin : In (song, n) (flat_map (entry_of_song container current_time) songs)).
      { fold entries. rewrite E. left. reflexivity. }
      apply entry_of_song_In in Hin. destruct Hin as [Hin [Hpos _]].
      specialize (Hdis song Hin). lia.
  - cbv zeta. split; [vm_compute; reflexivity|].
    intros value. apply Hgen. vm_compute. discriminate.
Qed.

(** X20.  With preferences in which no modifier is in use, every song has
    one entry and [wf_intelligence_get_song] is a uniform draw: the number
    drawn, modulo the number of songs, is the position of the song
    returned (for a number of songs that fits the [gint] [full_sum]). *)
Theorem get_song_without_modifiers_is_uniform :
  forall (D : Type) (Dops : GDouble D) (songs : list (WfSong D))
         (preferences : WfSongEntries D) (current_time value : Z),
    entries_use_rating preferences = false ->
    entries_use_score preferences = false ->
    entries_use_playcount preferences = false ->
    entries_use_skipcount preferences = false ->
    entries_use_lastplayed preferences = false ->
    Z.of_nat (length songs) <= G_MAXINT ->
    wf_intelligence_get_song songs (Some preferences) current_time value
    = nth_error songs (Z.to_nat (value mod Z.of_nat (length songs))).
Proof.
  intros D Dops songs preferences current_time value Hr Hs Hp Hk Hl Hfits.
  pose proof (get_song_with_preferences songs preferences current_time value) as Hget.
  cbv zeta in Hget. rewrite Hget. clear Hget.
  assert (Hcontainer : snd (wf_intelligence_determine_modifiers (Some preferences))
                       = mkContainer 0 0 false 0 false 0 false 0 false 0 false 0).
  { unfold wf_intelligence_determine_modifiers.
    rewrite Hr, Hs, Hp, Hk, Hl. reflexivity. }
  rewrite Hcontainer.
  set (container := mkContainer 0 0 false 0 false 0 false 0 false 0 false 0).
  assert (Hlist : flat_map (entry_of_song container current_time) songs
                  = map (fun song => (song, 1)) songs).
  { clear Hfits. induction songs as [|song songs IH]; [reflexivity|].
    cbn [flat_map map]. rewrite IH. reflexivity. }
  assert (Hsum : sum_entries (map (fun song : WfSong D => (song, 1)) songs)
                 = Z.of_nat (length songs)).
  { clear. induction songs as [|song songs IH]; [reflexivity|].
    cbn [map length]. unfold sum_entries in *. cbn [fold_right snd].
    rewrite IH. lia. }
  destruct songs as [|first others].
  { cbn. destruct (Z.to_nat (value mod 0)); reflexivity. }
  destruct (calculate_song_entries_fits container (first :: others) current_time)
    as [Hresult Htotal].
  { rewrite Hlist, Hsum. exact Hfits. }
  rewrite Hlist in Hresult.
  rewrite Hresult in Htotal. rewrite Hresult.
  specialize (Htotal ltac:(discriminate)). rewrite Hsum in Htotal.
  unfold wf_intelligence_pick_winner. rewrite Htotal.
  cbn [map]. cbn [length].
  destruct (Z.ltb_spec 0 (Z.of_nat (S (length others)))) as [Hpos|Hneg]; [|lia].
  cbn [negb].
  change ((first, 1) :: map (fun song : WfSong D => (song, 1)) others)
    with (map (fun song : WfSong D => (song, 1)) (first :: others)).
  unfold wf_intelligence_random.
  replace (Z.of_nat (S (length others)) - 1 + 1) with (Z.of_nat (S (length others)))
    by lia.
  pose proof (Z.mod_pos_bound value (Z.of_nat (S (length others))) Hpos) as Hmod.
  rewrite pick_winner_loop_single_entries by lia.
  f_equal. lia.
Qed.

Lemma get_song_without_modifiers_is_uniform_witness :
  wf_intelligence_get_song (D:=Q) [song_A; song_B; song_C]
    (Some (mkSongEntries false false false false false
             false false false false false
             20 (inject_Z 1) (inject_Z 1) (inject_Z 1) (inject_Z 1) (inject_Z 1)))
    0 7
  = nth_error [song_A; song_B; song_C]
      (Z.to_nat (7 mod Z.of_nat (length [song_A (D:=Q); song_B; song_C]))).
Proof.
  apply get_song_without_modifiers_is_uniform;
    first [reflexivity | vm_compute; discriminate].
Defined.

Section ManagerChoiceFacts.
Context {D : Type} `{GDouble D}.

Lemma remove_loop_incl (bad : WfSong D -> bool) (songs library : list (WfSong D))
    (other : WfSong D) :
  In other
    (fold_left
       (fun library song =>
          if bad song then g_list_remove same_song library song else library)
       songs library) ->
  In other library.
Proof.
  revert library. induction songs as [|song songs IH]; intros library Hin.
  - exact Hin.
  - cbn [fold_left] in Hin. apply IH in Hin.
    destruct (bad song); [exact (g_list_remove_incl _ _ _ Hin)|exact Hin].
Qed.

Lemma wf_intelligence_filter_incl
    (available_songs previous_songs play_next : list (WfSong D))
    (recent_artists : list Z) (filter : option (WfSongFilter D)) (time : Z)
    (song : WfSong D) :
  In song (wf_intelligence_filter available_songs previous_songs play_next
             recent_artists filter time) ->
  In song available_songs.
Proof.
  destruct filter as [filter|].
  2:{ unfold wf_intelligence_filter. destruct available_songs; intros Hin; exact Hin. }
  rewrite wf_intelligence_filter_stages. intros Hin.
  apply remove_recents_incl in Hin.
  unfold songs_before_recents in Hin. cbv zeta in Hin.
  unfold wf_intelligence_filter_by_stats in Hin. apply filter_In in Hin.
  destruct Hin as [Hin _].
  assert (Hstage : In song (wf_intelligence_remove_invalid_songs available_songs)).
  { revert Hin. unfold wf_intelligence_remove_songs_with_artists.
    destruct (wf_intelligence_remove_invalid_songs available_songs) as [|s l];
      [intros Hin; exact Hin|].
    destruct recent_artists as [|a artists]; [intros Hin; exact Hin|].
    apply (remove_loop_incl
             (fun song =>
                negb (wf_song_get_artist_hash song =? 0)
                && artist_is_recent (a :: artists) (filter_recent_artists filter) 0
                     (wf_song_get_artist_hash song))). }
  revert Hstage. unfold wf_intelligence_remove_invalid_songs.
  apply (remove_loop_incl
           (fun song =>
              negb (WfSongStatus_eqb (wf_song_get_status song) WF_SONG_AVAILABLE))).
Qed.

(** The song [wf_intelligence_choose_new_song] returns is a song of the
    filtered library it leaves in [*library]. *)
Lemma choose_new_song_In (library previous_songs play_next : list (WfSong D))
    (recent_artists : list Z) (filter : option (WfSongFilter D))
    (entries : option (WfSongEntries D)) (current_time value : Z) (winner : WfSong D) :
  snd (wf_intelligence_choose_new_song library previous_songs play_next
         recent_artists filter entries current_time value) = Some winner ->
  In winner
    (fst (wf_intelligence_choose_new_song library previous_songs play_next
            recent_artists filter entries current_time value))
  /\ In winner library
  /\ 0 <= song_entries (snd (wf_intelligence_determine_modifiers entries))
            current_time winner.
Proof.
  unfold wf_intelligence_choose_new_song.
  destruct library as [|first others]; [discriminate|].
  cbv zeta. cbn [fst snd].
  destruct entries as [entries|]; [|discriminate].
  intros Hget.
  assert (Hwin := Hget).
  revert Hwin Hget.
  set (filtered := match filter with
                   | Some _ => wf_intelligence_filter (first :: others) previous_songs
                                 play_next recent_artists filter current_time
                   | None => first :: others
                   end).
  intros Hwin _.
  assert (Hin : In winner filtered
                /\ 0 <= song_entries
                          (snd (wf_intelligence_determine_modifiers (Some entries)))
                          current_time winner).
  { destruct (get_song_winner_listed filtered entries current_time value winner Hwin)
      as [n Hitem].
    apply entry_of_song_In in Hitem. tauto. }
  destruct Hin as [Hin Hentries].
  split; [exact Hin|]. split; [|exact Hentries].
  subst filtered. destruct filter as [filter|]; [|exact Hin].
  exact (wf_intelligence_filter_incl _ _ _ _ _ _ _ Hin).
Qed.
(** What [wf_song_manager_choose_new_song] returns. *)
Lemma manager_choice_facts (deref : positive -> WfSong D)
    (m : WfSongManagerDetails) (library : list (WfSong D))
    (filter : WfSongFilter D) (modifiers : WfSongEntries D)
    (current_time value : Z) (song : WfSong D) :
  wf_song_manager_choose_new_song deref m library filter modifiers
    current_time value = Some song ->
  In song library
  /\ 0 <= song_entries (snd (wf_intelligence_determine_modifiers (Some modifiers)))
            current_time song
  /\ (forall playing, current m = Some playing ->
        song_ptr song <> song_ptr (deref playing))
  /\ (NoDup (map song_ptr library) ->
      song_status song = WF_SONG_AVAILABLE
      /\ song_filtered_by_stats filter current_time song = false).
Proof.
  intros Hchoose.
  unfold wf_song_manager_choose_new_song in Hchoose.
  destruct library as [|first others]; [discriminate|].
  set (library := first :: others) in *.
  set (choice :=
         match current m with
         | Some playing =>
             (wf_song_get_artist_hash (deref playing),
              g_list_remove_all same_song library (deref playing))
         | None => (0, library)
         end) in *.
  assert (Hrest : forall s, In s (snd choice) ->
            In s library
            /\ (forall playing, current m = Some playing ->
                  song_ptr s <> song_ptr (deref playing))).
  { intros s Hs. subst choice. destruct (current m) as [playing|]; cbn [snd] in Hs.
    - unfold g_list_remove_all in Hs. apply filter_In in Hs.
      destruct Hs as [Hs Hneq]. split; [exact Hs|].
      intros playing' Heq. inversion Heq; subst playing'.
      intros Hptr. apply same_song_ptr in Hptr. rewrite Hptr in Hneq. discriminate.
    - split; [exact Hs|]. intros playing Heq. discriminate. }
  assert (Hnodup : NoDup (map song_ptr library) -> NoDup (map song_ptr (snd choice))).
  { intros Hn. subst choice. destruct (current m) as [playing|]; cbn [snd];
      [|exact Hn].
    unfold g_list_remove_all. apply NoDup_ptr_filter. exact Hn. }
  destruct choice as [artist rest]. cbn [snd] in Hrest, Hnodup.
  destruct rest as [|r rest']; [discriminate|].
  pose proof (choose_new_song_In _ _ _ _ _ _ _ _ _ Hchoose) as [Hfiltered [Hin Hentries]].
  destruct (Hrest song Hin) as [Hlib Hcur].
  split; [exact Hlib|]. split; [exact Hentries|]. split; [exact Hcur|].
  intros Hn. specialize (Hnodup Hn).
  unfold wf_intelligence_choose_new_song in Hfiltered. cbv zeta in Hfiltered.
  cbn [fst] in Hfiltered.
  rewrite wf_intelligence_filter_stages in Hfiltered.
  apply remove_recents_incl in Hfiltered.
  apply (songs_before_recents_In _ _ _ _ _ Hnodup) in Hfiltered. tauto.
Qed.
End ManagerChoiceFacts.

(** X21.  The song [wf_song_manager_choose_new_song] returns is a song of
    the library that is not disqualified and never the song that is
    playing; in a library without repeated song it is available and passes
    the statistic filters of the settings. *)
Theorem manager_never_chooses_current_song :
  forall (D : Type) (Dops : GDouble D) (deref : positive -> WfSong D)
         (m : WfSongManagerDetails) (library : list (WfSong D))
         (filter : WfSongFilter D) (modifiers : WfSongEntries D)
         (current_time value : Z) (song : WfSong D),
    wf_song_manager_choose_new_song deref m library filter modifiers
      current_time value = Some song ->
    In song library
    /\ 0 <= song_entries (snd (wf_intelligence_determine_modifiers (Some modifiers)))
              current_time song
    /\ (forall playing, current m = Some playing ->
          song_ptr song <> song_ptr (deref playing))
    /\ (NoDup (map song_ptr library) ->
        song_status song = WF_SONG_AVAILABLE
        /\ song_filtered_by_stats filter current_time song = false).
Proof.
  intros D Dops deref m library filter modifiers current_time value song Hchoose.
  exact (manager_choice_facts deref m library filter modifiers current_time value
           song Hchoose).
Qed.

Lemma manager_never_chooses_current_song_witness :
  In (example_song (D:=Q) 2 0 (inject_Z 50) 0 0 0)
     [example_song 1 0 (inject_Z 50) 0 0 0; example_song 2 0 (inject_Z 50) 0 0 0].
Proof.
  refine (proj1 (manager_never_chooses_current_song Q exact_rational
    (fun p => example_song p 0 (inject_Z 50) 0 0 0)
    (mkSongManager (Some 1%positive) [] [] [] [] false)
    [example_song 1 0 (inject_Z 50) 0 0 0; example_song 2 0 (inject_Z 50) 0 0 0]
    filter_score_and_half entries_rating_only 0 0
    (example_song 2 0 (inject_Z 50) 0 0 0) _)).
  vm_compute. reflexivity.
Defined.

Section QueueFacts.

Lemma g_list_remove_other (l : list positive) (song p : positive) :
  p <> song -> (In p (g_list_remove Pos.eqb l song) <-> In p l).
Proof.
  intros Hneq. induction l as [|y l IH]; cbn [g_list_remove]; [reflexivity|].
  destruct (Pos.eqb_spec y song) as [Heq|Hne].
  - subst y. cbn [In]. split; [intros Hin; right; exact Hin|].
    intros [Heq|Hin]; [congruence|exact Hin].
  - cbn [In]. rewrite IH. reflexivity.
Qed.

Lemma g_list_remove_sub (l : list positive) (song p : positive) :
  In p (g_list_remove Pos.eqb l song) -> In p l.
Proof.
  induction l as [|y l IH]; cbn [g_list_remove]; [tauto|].
  destruct (Pos.eqb y song); cbn [In]; tauto.
Qed.

Lemma g_list_remove_NoDup_pos (l : list positive) (song : positive) :
  NoDup l ->
  NoDup (g_list_remove Pos.eqb l song) /\ ~ In song (g_list_remove Pos.eqb l song).
Proof.
  induction l as [|y l IH]; cbn [g_list_remove]; intros Hnodup.
  - split; [constructor|intros []].
  - inversion Hnodup as [|y' l' Hnotin Hrest]; subst.
    destruct (Pos.eqb_spec y song) as [Heq|Hne].
    + subst y. split; assumption.
    + destruct (IH Hrest) as [Hn Hs]. split.
      * constructor; [|exact Hn]. intros Hin. apply Hnotin.
        exact (g_list_remove_sub _ _ _ Hin).
      * cbn [In]. tauto.
Qed.

Lemma g_list_find_In (l : list positive) (song : positive) :
  g_list_find Pos.eqb l song = true <-> In song l.
Proof.
  unfold g_list_find. rewrite existsb_exists. split.
  - intros [y [Hin Heq]]. apply Pos.eqb_eq in Heq. subst y. exact Hin.
  - intros Hin. exists song. split; [exact Hin|apply Pos.eqb_refl].
Qed.

(** [wf_song_manager_rm_queue_song] keeps the flags of the songs in step
    with the queue. *)
Lemma rm_queue_song_in_step (m : WfSongManagerDetails) (queued : positive -> bool)
    (song : option positive) :
  (forall p, queued p = true <-> In p (list_queue m)) ->
  forall p,
    snd (wf_song_manager_rm_queue_song m queued song) p = true
    <-> In p (list_queue (fst (wf_song_manager_rm_queue_song m queued song))).
Proof.
  intros Hstep p. destruct song as [song|]; [|exact (Hstep p)].
  unfold wf_song_manager_rm_queue_song. cbv zeta. cbn [fst snd list_queue].
  destruct (g_list_find Pos.eqb (g_list_remove Pos.eqb (list_queue m) song) song)
    eqn:Efind.
  - destruct (Pos.eq_dec p song) as [Heq|Hneq].
    + subst p. apply g_list_find_In in Efind. split; [intros _; exact Efind|].
      intros _. apply Hstep. exact (g_list_remove_sub _ _ _ Efind).
    + rewrite (g_list_remove_other _ _ _ Hneq). apply Hstep.
  - unfold wf_song_set_queued. destruct (Pos.eqb_spec p song) as [Heq|Hneq].
    + subst p. split; [discriminate|].
      intros Hin. apply g_list_find_In in Hin. congruence.
    + rewrite (g_list_remove_other _ _ _ Hneq). apply Hstep.
Qed.
End QueueFacts.

(** X22.  [wf_player_toggle_queue] keeps the queue free of repeated songs
    and the flag [queued] of every song in step with the queue: a song that
    was not queued is in the queue afterwards, a queued song is not, and
    the other songs stay where they are. *)
Theorem toggle_queue_keeps_flags_in_step :
  forall (m : WfSongManagerDetails) (queued : positive -> bool) (song : positive),
    (forall p, queued p = true <-> In p (list_queue m)) ->
    NoDup (list_queue m) ->
    let result := wf_player_toggle_queue m queued song in
    (forall p, snd result p = true <-> In p (list_queue (fst result)))
    /\ NoDup (list_queue (fst result))
    /\ (In song (list_queue (fst result)) <-> ~ In song (list_queue m))
    /\ (forall p, p <> song ->
          (In p (list_queue (fst result)) <-> In p (list_queue m))).
Proof.
  intros m queued song Hstep Hnodup result. subst result.
  unfold wf_player_toggle_queue, wf_song_get_queued.
  destruct (queued song) eqn:Eflag.
  - assert (Hin : In song (list_queue m)) by (apply Hstep; exact Eflag).
    split; [exact (rm_queue_song_in_step m queued (Some song) Hstep)|].
    unfold wf_song_manager_rm_queue_song. cbv zeta. cbn [fst list_queue].
    destruct (g_list_remove_NoDup_pos (list_queue m) song Hnodup) as [Hn Hgone].
    split; [exact Hn|]. split; [tauto|].
    intros p Hneq. exact (g_list_remove_other _ _ _ Hneq).
  - assert (Hout : ~ In song (list_queue m)).
    { intros Hin. apply Hstep in Hin. congruence. }
    unfold wf_song_manager_add_queue_song, g_list_append, wf_song_set_queued.
    cbn [fst snd list_queue].
    split; [|split; [|split]].
    + intros p. rewrite in_app_iff. cbn [In].
      destruct (Pos.eqb_spec p song) as [Heq|Hneq].
      * subst p. tauto.
      * rewrite Hstep. split; [tauto|]. intros [Hin|[Heq|[]]]; [exact Hin|congruence].
    + apply NoDup_app; [exact Hnodup|repeat constructor; intros []|].
      intros p Hin [Heq|[]]. subst p. contradiction.
    + rewrite in_app_iff. cbn [In]. tauto.
    + intros p Hneq. rewrite in_app_iff. cbn [In]. split; [|tauto].
      intros [Hin|[Heq|[]]]; [exact Hin|congruence].
Qed.

Lemma toggle_queue_keeps_flags_in_step_witness :
  NoDup (list_queue (fst (wf_player_toggle_queue
                            (mkSongManager None [] [] [1; 2]%positive [] false)
                            (fun p => Pos.eqb p 1 || Pos.eqb p 2) 3%positive))).
Proof.
  refine (proj1 (proj2
    (toggle_queue_keeps_flags_in_step
       (mkSongManager None [] [] [1; 2]%positive [] false)
       (fun p => Pos.eqb p 1 || Pos.eqb p 2) 3%positive _ _))).
  - intros p. cbn [list_queue In]. rewrite orb_true_iff, !Pos.eqb_eq.
    intuition congruence.
  - repeat constructor; cbn; intuition discriminate.
Defined.

(** X23.  Taking the next song from the queue, as [wf_player_play_next_song]
    does with [wf_song_manager_get_queue_song] and
    [wf_song_manager_rm_queue_song], gives the song queued first and leaves
    the songs queued after it in their order; the flags stay in step with
    the queue, so the song taken keeps its flag when it is queued once
    more further down. *)
Theorem queue_is_first_in_first_out :
  forall (m : WfSongManagerDetails) (queued : positive -> bool),
    (forall p, queued p = true <-> In p (list_queue m)) ->
    let song := wf_song_manager_get_queue_song m in
    let result := wf_song_manager_rm_queue_song m queued song in
    song = hd_error (list_queue m)
    /\ list_queue (fst result) = tl (list_queue m)
    /\ (forall p, snd result p = true <-> In p (tl (list_queue m)))
    /\ (forall added,
          wf_song_manager_get_queue_song
            (fst (wf_song_manager_add_queue_song m queued added))
          = Some (hd added (list_queue m))).
Proof.
  intros m queued Hstep song result.
  assert (Htail : list_queue (fst result) = tl (list_queue m)).
  { subst result song. unfold wf_song_manager_get_queue_song.
    destruct (list_queue m) as [|first rest] eqn:E; cbn [hd_error].
    - cbn [wf_song_manager_rm_queue_song fst]. rewrite E. reflexivity.
    - unfold wf_song_manager_rm_queue_song. cbv zeta. cbn [fst list_queue].
      rewrite E. cbn [g_list_remove tl]. rewrite Pos.eqb_refl. reflexivity. }
  split; [reflexivity|]. split; [exact Htail|]. split.
  - intros p. rewrite <- Htail. subst result.
    exact (rm_queue_song_in_step m queued song Hstep p).
  - intros added. unfold wf_song_manager_get_queue_song,
      wf_song_manager_add_queue_song, g_list_append.
    cbn [fst list_queue]. destruct (list_queue m); reflexivity.
Qed.

Lemma queue_is_first_in_first_out_witness :
  list_queue (fst (wf_song_manager_rm_queue_song
                     (mkSongManager None [] [] [1; 2]%positive [] false)
                     (fun p => Pos.eqb p 1 || Pos.eqb p 2)
                     (wf_song_manager_get_queue_song
                        (mkSongManager None [] [] [1; 2]%positive [] false))))
  = tl [1; 2]%positive.
Proof.
  refine (proj1 (proj2
    (queue_is_first_in_first_out
       (mkSongManager None [] [] [1; 2]%positive [] false)
       (fun p => Pos.eqb p 1 || Pos.eqb p 2) _))).
  intros p. cbn [list_queue In]. rewrite orb_true_iff, !Pos.eqb_eq.
  intuition congruence.
Defined.

(** X24.  After [wf_song_manager_add_played_song] has taken a song with a
    played fraction from 0 to 1, [wf_song_manager_played_song_revert] gives
    that song back and leaves the history and the list of next songs as
    they were before the song was added; the current song stays unset and
    the recent artists keep the artist of the song. *)
Theorem revert_gives_back_played_song :
  forall (sett : WfPlayedSettings Q) (now : Z) (m : WfSongManagerDetails)
         (song : WfSong Q) (played_fraction : Q) (skip_score_update : bool),
    (0 <= played_fraction <= 1)%Q ->
    let m1 := fst (wf_song_manager_add_played_song sett now m song played_fraction
                     skip_score_update) in
    let result := wf_song_manager_played_song_revert m1 in
    snd result = Some (song_ptr song)
    /\ list_previous (fst result) = list_previous m
    /\ list_next (fst result) = list_next m
    /\ list_queue (fst result) = list_queue m
    /\ current (fst result) = None
    /\ artists (fst result)
       = wf_song_manager_add_recent_artist (artists m) (wf_song_get_artist_hash song).
Proof.
  intros sett now m song played_fraction skip_score_update [Hlow Hhigh] m1 result.
  assert (Hm1 : m1 = mkSongManager None (song_ptr song :: list_previous m)
                       (list_next m) (list_queue m)
                       (wf_song_manager_add_recent_artist (artists m)
                          (wf_song_get_artist_hash song))
                       (incognito m)).
  { subst m1. unfold wf_song_manager_add_played_song.
    cbn [d_leb d_of_Z exact_rational].
    change (inject_Z 0) with 0%Q. change (inject_Z 1) with 1%Q.
    rewrite (proj2 (Qle_bool_iff 0 played_fraction) Hlow).
    rewrite (proj2 (Qle_bool_iff played_fraction 1) Hhigh).
    reflexivity. }
  subst result. rewrite Hm1.
  unfold wf_song_manager_played_song_revert, wf_song_manager_get_prev_song,
    wf_song_manager_rm_prev_song, wf_song_manager_add_next_song.
  cbn. rewrite Pos.eqb_refl. repeat split; reflexivity.
Qed.

Lemma revert_gives_back_played_song_witness :
  snd (wf_song_manager_played_song_revert
         (fst (wf_song_manager_add_played_song default_played_settings 1000
                 (mkSongManager (Some 7%positive) [3; 4]%positive [5]%positive [] [] false)
                 (example_song 7 0 (inject_Z 50) 1 0 0) (1 # 2) false)))
  = Some 7%positive.
Proof.
  refine (proj1 (revert_gives_back_played_song default_played_settings 1000
                   (mkSongManager (Some 7%positive) [3; 4]%positive [5]%positive [] []
                      false)
                   (example_song 7 0 (inject_Z 50) 1 0 0) (1 # 2) false _)).
  split; vm_compute; discriminate.
Defined.

(** X25.  [wf_song_manager_trim_list_length] loses no node: the nodes it
    keeps followed by the nodes it frees are the list it was given.  It
    frees something only for a limit of at least 2 and a longer list, and
    then keeps exactly [limit] nodes. *)
Theorem trim_list_length_keeps_or_frees :
  forall (A : Type) (l : list A) (limit : Z),
    0 <= limit ->
    let kept := fst (wf_song_manager_trim_list_length l limit) in
    let freed := snd (wf_song_manager_trim_list_length l limit) in
    kept ++ freed = l
    /\ (freed <> [] <-> 2 <= limit < Z.of_nat (length l))
    /\ (freed <> [] -> Z.of_nat (length kept) = limit).
Proof.
  intros A l limit Hlimit kept freed. subst kept freed.
  unfold wf_song_manager_trim_list_length, g_list_nth.
  destruct l as [|x l'].
  { cbn. split; [reflexivity|]. split; [split; [congruence|lia]|congruence]. }
  set (l := x :: l').
  destruct (Z.eqb_spec limit 0) as [Hzero|Hnz].
  { cbn [fst snd]. rewrite app_nil_r.
    split; [reflexivity|]. split; [split; [congruence|lia]|congruence]. }
  destruct (nth_error l (Z.to_nat (limit - 1))) as [node|] eqn:Enth.
  - assert (Hlen : (Z.to_nat (limit - 1) < length l)%nat).
    { apply nth_error_Some. congruence. }
    destruct (Z.eqb_spec (limit - 1) 0) as [Hone|Hmore].
    + cbn [fst snd]. rewrite app_nil_r.
      split; [reflexivity|]. split; [split; [congruence|lia]|congruence].
    + cbn [fst snd]. split; [apply firstn_skipn|].
      assert (Hskip : skipn (Z.to_nat limit) l <> [] <-> 2 <= limit < Z.of_nat (length l)).
      { split.
        - intros Hne. split; [lia|].
          destruct (Z.lt_ge_cases limit (Z.of_nat (length l))) as [Hlt|Hge];
            [exact Hlt|].
          exfalso. apply Hne. apply skipn_all2. lia.
        - intros [_ Hlt] Hnil.
          assert (Hl := length_skipn (Z.to_nat limit) l).
          rewrite Hnil in Hl. cbn [length] in Hl. lia. }
      split; [exact Hskip|].
      intros Hne. apply Hskip in Hne. rewrite length_firstn. lia.
  - cbn [fst snd]. rewrite app_nil_r.
    apply nth_error_None in Enth.
    split; [reflexivity|]. split; [split; [congruence|lia]|congruence].
Qed.

Lemma trim_list_length_keeps_or_frees_witness :
  fst (wf_song_manager_trim_list_length [1; 2; 3; 4; 5] 3)
  ++ snd (wf_song_manager_trim_list_length [1; 2; 3; 4; 5] 3)
  = [1; 2; 3; 4; 5].
Proof.
  refine (proj1 (trim_list_length_keeps_or_frees Z [1; 2; 3; 4; 5] 3 _)). lia.
Defined.

(** X26.  After [wf_song_manager_sync] the history holds the 100 newest
    songs at most and the recent artists the 50 newest; the queue and the
    current song are untouched.  Songs waiting in the list of next songs
    stay; when the list is empty it gets at most one song, a song of the
    library that is not the one playing. *)
Theorem sync_bounds_history_and_fills_next :
  forall (D : Type) (Dops : GDouble D) (deref : positive -> WfSong D)
         (m : WfSongManagerDetails) (library : list (WfSong D))
         (filter : WfSongFilter D) (modifiers : WfSongEntries D)
         (current_time value : Z),
    let m' := wf_song_manager_sync deref m library filter modifiers
                current_time value in
    list_previous m' = firstn 100 (list_previous m)
    /\ artists m' = firstn 50 (artists m)
    /\ list_queue m' = list_queue m
    /\ current m' = current m
    /\ (list_next m <> [] -> list_next m' = list_next m)
    /\ (list_next m = [] ->
        list_next m' = []
        \/ exists song,
             list_next m' = [song_ptr song]
             /\ In song library
             /\ forall playing, current m = Some playing ->
                  song_ptr song <> song_ptr (deref playing)).
Proof.
  intros D Dops deref m library filter modifiers current_time value m'.
  subst m'. unfold wf_song_manager_sync.
  set (chosen := wf_song_manager_choose_new_song deref m library filter modifiers
                   current_time value).
  set (m1 := match list_next m with
             | [] => wf_song_manager_add_next_song m (option_map song_ptr chosen)
             | _ => m
             end).
  assert (Hsame : list_previous m1 = list_previous m /\ artists m1 = artists m
                  /\ list_queue m1 = list_queue m /\ current m1 = current m).
  { subst m1. destruct (list_next m); [|tauto].
    unfold wf_song_manager_add_next_song.
    destruct (option_map song_ptr chosen); cbn; tauto. }
  destruct Hsame as [Hprev [Hartists [Hqueue Hcurrent]]].
  destruct (wf_song_manager_sync_trim_keeps_newest m1) as [Htrim_prev [Htrim_art _]].
  rewrite Htrim_prev, Htrim_art, Hprev, Hartists.
  split; [reflexivity|]. split; [reflexivity|].
  unfold wf_song_manager_sync_trim. cbn [list_queue current list_next].
  split; [exact Hqueue|]. split; [exact Hcurrent|].
  subst m1. split.
  - intros Hne. destruct (list_next m) eqn:Enext; [congruence|exact Enext].
  - intros Hnil. rewrite Hnil.
    unfold wf_song_manager_add_next_song.
    destruct chosen as [song|] eqn:Echosen; cbn [option_map].
    + right. exists song. cbn [list_next]. rewrite Hnil.
      split; [reflexivity|].
      destruct (manager_choice_facts deref m library filter modifiers current_time
                  value song Echosen) as [Hin [_ [Hcur _]]].
      split; [exact Hin|exact Hcur].
    + left. exact Hnil.
Qed.

(** X27.  The numbers [wf_utils_duration_to_string] prints.  Up to one
    hour they are the full minutes and the seconds that remain.  Past one
    hour the hours and the seconds are right, but the number printed as
    minutes is the seconds less the hours in seconds, which is negative. *)
Theorem duration_fields_short_and_long :
  forall duration : Z,
    0 <= duration < 2 ^ 31 * 10 ^ 9 ->
    let total_seconds := duration / 10 ^ 9 in
    (total_seconds <= 60 * 60 ->
       wf_utils_duration_fields duration
       = (None, total_seconds / 60, total_seconds mod 60))
    /\ (60 * 60 < total_seconds ->
          wf_utils_duration_fields duration
          = (Some (total_seconds / 3600),
             total_seconds mod 60 - total_seconds / 3600 * 3600,
             total_seconds mod 60)
          /\ total_seconds mod 60 - total_seconds / 3600 * 3600 < 0).
Proof.
  intros duration [Hlow Hhigh] total_seconds.
  assert (Htotal : Z.quot (Z.quot (Z.quot duration 1000) 1000) 1000 = total_seconds).
  { subst total_seconds.
    rewrite (Z.quot_div_nonneg duration 1000) by lia.
    assert (0 <= duration / 1000) by (apply Z.div_pos; lia).
    rewrite (Z.quot_div_nonneg (duration / 1000) 1000) by lia.
    assert (0 <= duration / 1000 / 1000) by (apply Z.div_pos; lia).
    rewrite (Z.quot_div_nonneg (duration / 1000 / 1000) 1000) by lia.
    rewrite !Z.div_div by lia. reflexivity. }
  assert (Hpos : 0 <= total_seconds) by (subst total_seconds; apply Z.div_pos; lia).
  assert (Hminutes : Z.quot total_seconds 60 = total_seconds / 60)
    by (apply Z.quot_div_nonneg; lia).
  assert (Hseconds : total_seconds - total_seconds / 60 * 60 = total_seconds mod 60).
  { rewrite Z.mod_eq by lia. lia. }
  assert (Hmin_pos : 0 <= total_seconds / 60) by (apply Z.div_pos; lia).
  assert (Hhours : Z.quot (total_seconds / 60) 60 = total_seconds / 3600).
  { rewrite Z.quot_div_nonneg by lia. rewrite Z.div_div by lia. reflexivity. }
  unfold wf_utils_duration_fields. cbv zeta.
  rewrite Htotal, Hminutes, Hseconds, Hhours.
  split; intros Hcase.
  - destruct (Z.ltb_spec (60 * 60) total_seconds); [lia|reflexivity].
  - destruct (Z.ltb_spec (60 * 60) total_seconds); [|lia].
    split; [f_equal; f_equal; lia|].
    pose proof (Z.mod_pos_bound total_seconds 60 ltac:(lia)).
    assert (1 <= total_seconds / 3600).
    { apply Z.div_le_lower_bound; lia. }
    lia.
Qed.

Lemma duration_fields_short_and_long_witness :
  wf_utils_duration_fields 3725000000000 = (Some 1, 5 - 3600, 5)
  /\ 5 - 3600 < 0.
Proof.
  refine (proj2 (duration_fields_short_and_long 3725000000000 _) _).
  - vm_compute. split; [discriminate|reflexivity].
  - vm_compute. reflexivity.
Defined.

(** X28.  In the lists of dlist.c the node [wf_d_list_add] adds is the last
    one.  [wf_d_list_remove_all] with its key and value takes it out again
    and gives back a list in which no other node has both.
    [wf_d_list_remove_any] takes it out again when no earlier node has that
    key or that value; when an earlier node has one of the two it is that
    node, the first such, that is unlinked, and the node added stays the last
    one. *)
Theorem d_list_add_then_remove :
  forall (D : Type) (dlist : WfDList D) (key : WfSong D) (value : Z),
    wf_d_list_last (wf_d_list_add dlist key value) = Some (key, value)
    /\ ((forall k v, In (k, v) dlist -> same_song k key = false \/ v <> value) ->
        wf_d_list_remove_all (wf_d_list_add dlist key value) (Some key) value = dlist)
    /\ ((forall k v, In (k, v) dlist -> same_song k key = false /\ v <> value) ->
        wf_d_list_remove_any (wf_d_list_add dlist key value) (Some key) value = dlist)
    /\ ((exists k v, In (k, v) dlist /\ (same_song k key = true \/ v = value)) ->
        wf_d_list_remove_any (wf_d_list_add dlist key value) (Some key) value
        = wf_d_list_add (wf_d_list_remove_any dlist (Some key) value) key value
        /\ wf_d_list_last
             (wf_d_list_remove_any (wf_d_list_add dlist key value) (Some key) value)
           = Some (key, value)
        /\ S (length (wf_d_list_remove_any dlist (Some key) value)) = length dlist).
Proof.
  intros D dlist key value. unfold wf_d_list_add.
  assert (Hself : same_song key key = true) by (unfold same_song; apply Pos.eqb_refl).
  assert (Hlast : forall l : WfDList D,
            wf_d_list_last (l ++ [(key, value)]) = Some (key, value)).
  { induction l as [|item l IH]; [reflexivity|].
    cbn [app wf_d_list_last]. rewrite IH.
    destruct (l ++ [(key, value)]) eqn:E; [|reflexivity].
    destruct l; discriminate. }
  split; [apply Hlast|]. split; [|split].
  - induction dlist as [|[k v] dlist IH]; intros Hnone.
    + cbn. rewrite Hself, Z.eqb_refl. reflexivity.
    + cbn [app wf_d_list_remove_all].
      assert (Hkv : same_song k key && (v =? value) = false).
      { destruct (Hnone k v (or_introl eq_refl)) as [Hk|Hv].
        - rewrite Hk. reflexivity.
        - apply Z.eqb_neq in Hv. rewrite Hv. apply andb_false_r. }
      rewrite Hkv. f_equal. apply IH.
      intros k' v' Hin. apply Hnone. right. exact Hin.
  - induction dlist as [|[k v] dlist IH]; intros Hnone.
    + cbn. rewrite Hself. reflexivity.
    + cbn [app wf_d_list_remove_any].
      destruct (Hnone k v (or_introl eq_refl)) as [Hk Hv].
      apply Z.eqb_neq in Hv. rewrite Hk, Hv. cbn [orb]. f_equal. apply IH.
      intros k' v' Hin. apply Hnone. right. exact Hin.
  - intros Hsome.
    assert (Hstep :
      wf_d_list_remove_any (dlist ++ [(key, value)]) (Some key) value
      = wf_d_list_remove_any dlist (Some key) value ++ [(key, value)]
      /\ S (length (wf_d_list_remove_any dlist (Some key) value)) = length dlist).
    { induction dlist as [|[k v] dlist IH].
      - destruct Hsome as [k [v [[] _]]].
      - cbn [app wf_d_list_remove_any length].
        destruct (same_song k key || (v =? value)) eqn:Ematch.
        + split; reflexivity.
        + destruct IH as [IH1 IH2].
          * destruct Hsome as [k' [v' [[Heq|Hin] Hmatch]]].
            -- inversion Heq; subst k' v'. exfalso.
               apply orb_false_iff in Ematch. destruct Ematch as [Ek Ev].
               destruct Hmatch as [Hk|Hv]; [congruence|].
               subst v. rewrite Z.eqb_refl in Ev. discriminate.
            -- exists k', v'. split; [exact Hin|exact Hmatch].
          * cbn [app length]. rewrite IH1, IH2. split; reflexivity. }
    destruct Hstep as [Hstep Hlength].
    split; [exact Hstep|]. split; [rewrite Hstep; apply Hlast|exact Hlength].
Qed.
